(** * Differential deployment: inventory, diff, ordering and snapshot resolution

    A shallow embedding of [app/back-end/modules/deploy/deployment.js]
    (class [Deployment]) and the properties of its diffing, scheduling and
    snapshot-resolution code. *)

From Stdlib Require Import String Ascii ZArith Arith Lia Bool List.
From Stdlib Require Import DecimalString DecimalNat.
From Stdlib Require Import Permutation Sorted.
Import ListNotations.

Set Warnings "-register-all".

Local Open Scope string_scope.
Local Open Scope list_scope.
Local Open Scope nat_scope.

(* ================================================================== *)
(** ** The engine's [Array.prototype.sort] *)
(* ================================================================== *)

(** [sortFiles] sorts with comparators that are not consistent orderings
    (a directory compared with a directory yields the same sign in both
    argument orders), so the outcome is fixed by the engine's algorithm and
    not by the language standard.  The program runs on V8, whose sort takes
    the leading run of the array (reversing it when it is descending) and
    extends it by binary insertion; this is the whole algorithm for arrays
    of fewer than 64 elements, longer arrays being cut into such runs that
    are then merged.  The model below is that run-and-insert phase; only the
    sign test [order < 0] of a comparison is ever observed. *)
Module ArraySort.
Section Sort.
Context {A : Type}.
Variable comparefn : A -> A -> Z.

Definition before (a b : A) : bool := (comparefn a b <? 0)%Z.

(** Length of the run continued after [previous] (loop of CountAndMakeRun). *)
Fixpoint runTail (isDescending : bool) (previous : A) (rest : list A) : nat :=
  match rest with
  | [] => 0
  | current :: rest' =>
      if Bool.eqb (before current previous) isDescending
      then S (runTail isDescending current rest')
      else 0
  end.

(** The leading run, made ascending, and the elements after it. *)
Definition CountAndMakeRun (work : list A) : list A * list A :=
  match work with
  | elementHigh :: elementLow :: rest =>
      let isDescending := before elementLow elementHigh in
      let runLength := 2 + runTail isDescending elementLow rest in
      let run := firstn runLength work in
      (if isDescending then rev run else run, skipn runLength work)
  | _ => (work, [])
  end.

(** The [while (left < right)] loop of BinaryInsertionSort. *)
Fixpoint binarySearch (fuel : nat) (pivot : A) (work : list A)
         (left right : nat) : nat :=
  match fuel with
  | 0 => left
  | S fuel' =>
      if left <? right then
        let mid := left + Nat.div2 (right - left) in
        match nth_error work mid with
        | Some x =>
            if before pivot x
            then binarySearch fuel' pivot work left mid
            else binarySearch fuel' pivot work (S mid) right
        | None => left
        end
      else left
  end.

(** One iteration of BinaryInsertionSort: [sorted] is [work[low..start)],
    the pivot is [work[start]]. *)
Definition insertPivot (pivot : A) (sorted : list A) : list A :=
  let left := binarySearch (length sorted) pivot sorted 0 (length sorted) in
  firstn left sorted ++ pivot :: skipn left sorted.

Definition BinaryInsertionSort (run rest : list A) : list A :=
  fold_left (fun sorted pivot => insertPivot pivot sorted) rest run.

Definition sort (array : list A) : list A :=
  if length array <? 2 then array
  else let (run, rest) := CountAndMakeRun array in
       BinaryInsertionSort run rest.

(** Plain binary insertion from the empty array, the reference the run
    detection is compared with. *)
Definition insertAll (array : list A) : list A :=
  BinaryInsertionSort [] array.
End Sort.
End ArraySort.

(* ================================================================== *)
(** ** Data model *)
(* ================================================================== *)

(** The [type] property of an entry: ['file'] or ['directory']. *)
Inductive kind : Set := File | Directory.

Definition kind_eqb (a b : kind) : bool :=
  match a, b with
  | File, File | Directory, Directory => true
  | _, _ => false
  end.

(** An element of [files.publii.json] / [files-remote.json]:
    [{path, type, md5}], where [md5] is a hex string or [false]. *)
Record entry : Set := Entry { path : string; type : kind; md5 : option string }.

(** An element of [filesToRemove] / [filesToUpload]: [{path, type}]. *)
Record fileItem : Set := Item { itemPath : string; itemType : kind }.

(** [a.md5 === b.md5] on hex strings and [false]. *)
Definition md5_eqb (a b : option string) : bool :=
  match a, b with
  | Some x, Some y => String.eqb x y
  | None, None => true
  | _, _ => false
  end.

Definition isDirectory (k : kind) : bool := kind_eqb k Directory.
Definition isFile (k : kind) : bool := kind_eqb k File.

(* ================================================================== *)
(** ** compareFilesList: the two detection loops and the counter *)
(* ================================================================== *)

Module Diff.

(** [protocol === 'google-cloud' || protocol === 'gitlab-pages'] *)
Definition skipsDirectories (protocol : string) : bool :=
  String.eqb protocol "google-cloud" || String.eqb protocol "gitlab-pages".

(** Inner loop of the removal detection: [fileFounded]. *)
Definition fileFounded (localFiles : list entry) (remoteFile : entry) : bool :=
  existsb (fun localFile => String.eqb (path localFile) (path remoteFile))
          localFiles.

(** Inner loop of the upload detection: [fileShouldBeUploaded]. *)
Definition fileShouldBeUploaded (remoteFiles : list entry) (localFile : entry)
  : bool :=
  negb (existsb (fun remoteFile =>
                   String.eqb (path localFile) (path remoteFile) &&
                   md5_eqb (md5 localFile) (md5 remoteFile))
                remoteFiles).

Fixpoint detectFilesToRemove (protocol : string) (localFiles : list entry)
         (remoteFiles : list entry) : list fileItem :=
  match remoteFiles with
  | [] => []
  | remoteFile :: rest =>
      let tail := detectFilesToRemove protocol localFiles rest in
      if fileFounded localFiles remoteFile then tail
      else if skipsDirectories protocol && isDirectory (type remoteFile)
           then tail
           else Item (path remoteFile) (type remoteFile) :: tail
  end.

Fixpoint detectFilesToUpload (protocol : string) (remoteFiles : list entry)
         (localFiles : list entry) : list fileItem :=
  match localFiles with
  | [] => []
  | localFile :: rest =>
      let tail := detectFilesToUpload protocol remoteFiles rest in
      if fileShouldBeUploaded remoteFiles localFile then
        if skipsDirectories protocol && isDirectory (type localFile)
        then tail
        else Item (path localFile) (type localFile) :: tail
      else tail
  end.

Definition countFiles (files : list fileItem) : nat :=
  length (filter (fun f => isFile (itemType f)) files).

Definition operationsCounter (protocol : string)
           (filesToRemove filesToUpload : list fileItem) : nat :=
  if String.eqb protocol "s3"
  then countFiles filesToRemove + countFiles filesToUpload + 1
  else length filesToRemove + length filesToUpload + 1.

(** The state [compareFilesList] leaves in the session before sorting. *)
Record result : Set := Result {
  filesToRemove : list fileItem;
  filesToUpload : list fileItem;
  operations : nat
  }.

(** [compareFilesList] once both lists are in memory; an unusable remote
    list has been replaced by [[]] by the caller below. *)
Definition compare (protocol : string) (localFiles remoteFiles : list entry)
  : result :=
  let toRemove := detectFilesToRemove protocol localFiles remoteFiles in
  let toUpload := detectFilesToUpload protocol remoteFiles localFiles in
  Result toRemove toUpload (operationsCounter protocol toRemove toUpload).

End Diff.

(* ================================================================== *)
(** ** sortFiles and the two stacks *)
(* ================================================================== *)

Module Scheduler.
Section Sorting.
(** [isBinaryFileSync(path.join(this.inputDir, p))] for an item path [p]. *)
Variable isBinaryFileSync : string -> bool.

Definition compareRemove (fileA fileB : fileItem) : Z :=
  if isDirectory (itemType fileA) then (-1)%Z
  else if isDirectory (itemType fileB) then 1%Z
  else 0%Z.

Definition compareUpload (fileA fileB : fileItem) : Z :=
  if isDirectory (itemType fileA) then 1%Z
  else if isDirectory (itemType fileB) then (-1)%Z
  else if isBinaryFileSync (itemPath fileA) then (-1)%Z
  else if isBinaryFileSync (itemPath fileB) then 1%Z
  else 0%Z.

(** [fileA.path.length] is the length of the string, paths being taken as
    one character per code unit. *)
Definition compareDirectories (fileA fileB : fileItem) : Z :=
  if isDirectory (itemType fileA) && isDirectory (itemType fileB) then
    if String.length (itemPath fileA) <=? String.length (itemPath fileB)
    then 1%Z else (-1)%Z
  else if isDirectory (itemType fileA) then 1%Z
  else if isDirectory (itemType fileB) then (-1)%Z
  else 0%Z.

Definition sortFilesToRemove (filesToRemove : list fileItem) : list fileItem :=
  ArraySort.sort compareRemove filesToRemove.

Definition sortFilesToUpload (filesToUpload : list fileItem) : list fileItem :=
  ArraySort.sort compareDirectories
                 (ArraySort.sort compareUpload filesToUpload).
End Sorting.

(** [Array.prototype.pop]: the last element and the shortened array. *)
Definition pop {A : Type} (stack : list A) : option (A * list A) :=
  match rev stack with
  | [] => None
  | last :: front => Some (last, rev front)
  end.

(** The calls a generic transport receives. *)
Inductive call : Set :=
  | removeFile (p : string)
  | removeDirectory (p : string)
  | uploadFile (p : string)
  | uploadDirectory (p : string)
  | uploadNewFileList
  | removeFileDelegated
  | startSync.

(** [removeFile()] and [uploadFile()] are re-entered after every completed
    transport call and pop one item each time, as long as the stack is not
    empty: the items in the order they are issued. *)
Fixpoint drain (fuel : nat) (stack : list fileItem) : list fileItem :=
  match fuel with
  | 0 => []
  | S fuel' =>
      match pop stack with
      | Some (next, rest) => next :: drain fuel' rest
      | None => []
      end
  end.

Definition removeCall (f : fileItem) : call :=
  match itemType f with
  | File => removeFile (itemPath f)
  | Directory => removeDirectory (itemPath f)
  end.

Definition uploadCall (f : fileItem) : call :=
  match itemType f with
  | File => uploadFile (itemPath f)
  | Directory => uploadDirectory (itemPath f)
  end.

(** Execution order of a sorted stack: one pop per transport call. *)
Definition removalOrder (filesToRemove : list fileItem) : list fileItem :=
  drain (length filesToRemove) filesToRemove.

Definition uploadOrder (filesToUpload : list fileItem) : list fileItem :=
  drain (length filesToUpload) filesToUpload.

(** The whole pump.  [removeFile()] hands the session over to the client
    for s3 ([client.removeFile()] without a path) and for gitlab-pages
    ([client.startSync()]); every other transport gets the removals, the
    uploads and then [uploadNewFileList], one call at a time.  Paths are
    those of the items, before [outputDir]/[inputDir] are joined on. *)
Definition pump (protocol : string) (filesToRemove filesToUpload : list fileItem)
  : list call :=
  if String.eqb protocol "s3" then [removeFileDelegated]
  else if String.eqb protocol "gitlab-pages" then [startSync]
  else map removeCall (removalOrder filesToRemove) ++
       map uploadCall (uploadOrder filesToUpload) ++ [uploadNewFileList].
End Scheduler.

(* ================================================================== *)
(** ** prepareLocalFilesList: the local inventory *)
(* ================================================================== *)

Module Inventory.

(** The input directory as [readdirSync]/[statSync] show it: the children
    of a directory in [readdirSync] order.  A name holds no separator,
    slash or backslash, so that [normalizePath] leaves a joined path as it
    is and the path leads back to the node it was listed for. *)
Inductive node : Set :=
  | FileNode (name : string) (content : string)
  | DirNode (name : string) (children : list node).

(** What [lstatSync]/[readFileSync] give for a listed path. *)
Inductive stat : Set :=
  | isDir
  | isRegular (content : string).

(** [normalizePath(path.join(dir.replace(self.inputDir, ''), file))]:
    [dir.replace(...)] is empty at the root of the input directory. *)
Definition joinListed (relativeDir file : string) : string :=
  match relativeDir with
  | EmptyString => file
  | _ => (relativeDir ++ "/" ++ file)%string
  end.

(** [path.join(dir, file)] with the input directory stripped again. *)
Definition enter (relativeDir file : string) : string :=
  (relativeDir ++ "/" ++ file)%string.

(** [file.indexOf('.') !== 0] *)
Definition notHidden (file : string) : bool :=
  negb (String.prefix "." file).

(** One callback of the [files.forEach] in [readDirRecursiveSync]; every
    pushed path is paired with its [stat]. *)
Fixpoint readEntry (relativeDir : string) (n : node)
         (filelist : list (string * stat)) : list (string * stat) :=
  match n with
  | FileNode file content =>
      if String.eqb file ".git" then filelist
      else if notHidden file || String.eqb file ".htaccess"
              || String.eqb file "_redirects"
           then filelist ++ [(joinListed relativeDir file, isRegular content)]
           else filelist
  | DirNode file children =>
      if String.eqb file ".git" then filelist
      else
        (fix forEach (files : list node) (filelist : list (string * stat)) :=
           match files with
           | [] => filelist
           | f :: files' =>
               forEach files' (readEntry (enter relativeDir file) f filelist)
           end)
          children (filelist ++ [(joinListed relativeDir file, isDir)])
  end.

Fixpoint forEachEntry (relativeDir : string) (files : list node)
         (filelist : list (string * stat)) : list (string * stat) :=
  match files with
  | [] => filelist
  | f :: files' =>
      forEachEntry relativeDir files' (readEntry relativeDir f filelist)
  end.

(** [readDirRecursiveSync(this.inputDir)] on the children of the root. *)
Definition readDirRecursiveSync (root : list node) : list (string * stat) :=
  forEachEntry EmptyString root [].

Section Builder.
(** [crypto.createHash('md5').update(buffer).digest('hex')] *)
Variable md5 : string -> string.
(** [isBinaryFileSync], a function of the bytes of the file. *)
Variable isBinaryFile : string -> bool.

(** [(stats.size).toString().split('')] *)
Definition sizeDigits (size : nat) : list ascii :=
  list_ascii_of_string (NilEmpty.string_of_uint (Nat.to_uint size)).

(** [Buffer.from(digits)]: every one-character digit string is converted
    to a number and stored as one byte, the digit's value. *)
Definition Buffer_from (digits : list ascii) : string :=
  string_of_list_ascii
    (map (fun d => ascii_of_nat (nat_of_ascii d - 48)) digits).

Definition fileSizePrepared (content : string) : string :=
  Buffer_from (sizeDigits (String.length content)).

(** [fileMD5] of the "Put file" branch. *)
Definition fileMD5 (content : string) : string :=
  if isBinaryFile content
  then md5 (fileSizePrepared content)
  else md5 content.

Definition excludedProtocols : list string :=
  ["s3"; "github-pages"; "google-cloud"; "netlify"].

(** [excludedProtocols.indexOf(protocol) === -1] *)
Definition notExcluded (protocol : string) : bool :=
  negb (existsb (String.eqb protocol) excludedProtocols).

(** [protocol !== 'google-cloud' && protocol !== 'gitlab-pages'] *)
Definition listsDirectories (protocol : string) : bool :=
  negb (String.eqb protocol "google-cloud") &&
  negb (String.eqb protocol "gitlab-pages").

(** [if (filePath.indexOf('/') === 0) filePath = filePath.substr(1)] *)
Definition stripLeadingSlash (filePath : string) : string :=
  match filePath with
  | String "/"%char rest => rest
  | _ => filePath
  end.

(** The loop over [tempFileList]; [None] is the exception [readFileSync]
    raises when a special name at the root is a directory. *)
Fixpoint buildFileList (protocol : string) (tempFileList : list (string * stat))
  : option (list entry) :=
  match tempFileList with
  | [] => Some []
  | (filePath, st) :: rest =>
      let continue := buildFileList protocol rest in
      let push e := option_map (cons e) continue in
      if String.eqb filePath ".git" then continue
      else if String.eqb filePath ".htaccess" || String.eqb filePath "_redirects"
      then
        if notExcluded protocol then
          match st with
          | isRegular content => push (Entry filePath File (Some (md5 content)))
          | isDir => None
          end
        else continue
      else
        match st with
        | isDir =>
            if listsDirectories protocol
            then push (Entry (stripLeadingSlash filePath) Directory None)
            else continue
        | isRegular content =>
            push (Entry filePath File (Some (fileMD5 content)))
        end
  end.

(** The list that [prepareLocalFilesList] serialises to
    [files.publii.json]; the write of the file into the walked directory,
    which can raise, is [Workspace.prepareLocalFilesList]. *)
Definition prepareLocalFilesList (protocol : string) (root : list node)
  : option (list entry) :=
  buildFileList protocol (readDirRecursiveSync root).
End Builder.
End Inventory.

(* ================================================================== *)
(** ** The files of a session and the snapshot resolution *)
(* ================================================================== *)

Module Snapshot.

(** The three files the session keeps: [files.publii.json] in the input
    directory, [files-remote.json] and [sync-revision.json] in the
    configuration directory.  [None] is a file that does not exist. *)
Record store : Set := Store {
  files_publii_json : option string;
  files_remote_json : option string;
  sync_revision_json : option string
  }.

(** The value of a [revision] property. [object] stands for any object or
    array: truthy, and never [===] to a value parsed elsewhere. *)
Inductive jsval : Set :=
  | undefined
  | null
  | boolean (b : bool)
  | number (n : Z)
  | str (s : string)
  | object.

(** A parsed document of the shapes the program writes and expects: an
    array is a list of entries, an object is read only through
    [.revision].  A bare JSON string and an array of anything but entries
    are not of these shapes; [Js.value] has every document, [Untyped] runs
    the resolution and the diff on it, and on documents of these shapes
    the two agree ([AgreementFacts.resolution_agrees]). *)
Inductive json : Set :=
  | JNull
  | JBoolean (b : bool)
  | JNumber (n : Z)
  | JArray (files : list entry)
  | JObject (revision : jsval).

Definition truthy (v : jsval) : bool :=
  match v with
  | undefined | null => false
  | boolean b => b
  | number n => negb (n =? 0)%Z
  | str s => negb (String.eqb s EmptyString)
  | object => true
  end.

(** [a === b] *)
Definition strict_eq (a b : jsval) : bool :=
  match a, b with
  | undefined, undefined | null, null => true
  | boolean x, boolean y => Bool.eqb x y
  | number x, number y => (x =? y)%Z
  | str x, str y => String.eqb x y
  | _, _ => false
  end.

(** [doc.revision]; reading a property of [null] raises a TypeError. *)
Definition get_revision (doc : json) : option jsval :=
  match doc with
  | JNull => None
  | JObject revision => Some revision
  | JBoolean _ | JNumber _ | JArray _ => Some undefined
  end.

(** Truthiness of a parsed document ([if (!remoteFiles)]). *)
Definition truthy_doc (doc : json) : bool :=
  match doc with
  | JNull => false
  | JBoolean b => b
  | JNumber n => negb (n =? 0)%Z
  | JArray _ | JObject _ => true
  end.

(** [for (... of doc)]: only an array can be iterated. *)
Definition iterate (doc : json) : option (list entry) :=
  match doc with
  | JArray files => Some files
  | _ => None
  end.

Definition quote : string := String (ascii_of_nat 34) EmptyString.

(** The template literal [{ "revision": "${this.syncRevision}" }]. *)
Definition descriptor (syncRevision : string) : string :=
  ("{ " ++ quote ++ "revision" ++ quote ++ ": " ++ quote ++ syncRevision
        ++ quote ++ " }")%string.

(** Which comparison decided the verdict. *)
Inductive route : Set := byRevision | byChecksum | legacyList.

Section Resolver.
Variable md5 : string -> string.
(** [JSON.parse]; [None] is a SyntaxError. *)
Variable JSON_parse : string -> option json.
Variable protocol : string.

(** [compareFilesList(remoteFileListExists)] up to the call of
    [sortFiles]; [None] is an exception leaving the method. *)
Definition compareFilesList (remoteFileListExists : bool) (s : store)
  : option Diff.result :=
  match files_publii_json s with
  | None => None
  | Some localText =>
      let localFiles :=
        match localText with
        | EmptyString => Some []
        | _ => match JSON_parse localText with
               | Some doc => iterate doc
               | None => None
               end
        end in
      let remoteFiles :=
        if remoteFileListExists then
          match files_remote_json s with
          | None => None
          | Some EmptyString => Some []
          | Some remoteText =>
              match JSON_parse remoteText with
              | None => Some []
              | Some doc =>
                  if String.eqb protocol "gitlab-pages" then
                    (* [remoteFiles.map] inside the inner [try] *)
                    match doc with
                    | JArray files => Some files
                    | _ => Some []
                    end
                  else if truthy_doc doc then iterate doc else Some []
              end
          end
        else Some [] in
      match localFiles, remoteFiles with
      | Some localFiles, Some remoteFiles =>
          Some (Diff.compare protocol localFiles remoteFiles)
      | _, _ => None
      end
  end.

(** The [try] block of [checkLocalListWithRemoteList] up to its call of
    [compareFilesList]: the verdict, the store at that point and the
    comparison used.  [None] is an exception raised before the call. *)
Definition resolve (fileContent : string) (s : store)
  : option (bool * store * route) :=
  match JSON_parse fileContent with
  | None => None
  | Some content =>
      let revisionID :=
        match sync_revision_json s with
        | None => Some (boolean false)
        | Some syncRevisionContent =>
            match JSON_parse syncRevisionContent with
            | None => None
            | Some doc => get_revision doc
            end
        end in
      match revisionID, get_revision content with
      | Some revisionID, Some revision =>
          if truthy revision then
            match files_remote_json s with
            | None => None
            | Some filesToCheck =>
                if truthy revisionID
                then Some (strict_eq revisionID revision, s, byRevision)
                else Some (strict_eq (str (md5 filesToCheck)) revision, s,
                           byChecksum)
            end
          else
            Some (true,
                  Store (files_publii_json s) (Some fileContent)
                        (sync_revision_json s),
                  legacyList)
      | _, _ => None
      end
  end.

(** What a run of [checkLocalListWithRemoteList] did: the arguments of its
    calls of [compareFilesList], in order, the result of the last one and
    the store it ran on. *)
Record resolution : Set := Resolution {
  invoked : list bool;
  outcome : option Diff.result;
  after : store
  }.

Definition checkLocalListWithRemoteList (fileContent : string) (s : store)
  : resolution :=
  match resolve fileContent s with
  | Some (isExpectedCopy, s', _) =>
      match compareFilesList isExpectedCopy s' with
      | Some r => Resolution [isExpectedCopy] (Some r) s'
      | None => Resolution [isExpectedCopy; false] (compareFilesList false s') s'
      end
  | None => Resolution [false] (compareFilesList false s) s
  end.

(** [replaceSyncInfoFiles]; [None] when [files.publii.json] is missing. *)
Definition replaceSyncInfoFiles (syncRevision : string) (s : store)
  : option store :=
  match files_publii_json s with
  | None => None
  | Some contentToSave =>
      let newContent := descriptor syncRevision in
      Some (Store (Some newContent) (Some contentToSave) (Some newContent))
  end.

(** [JSON.stringify(fileList, null, 4)] *)
Variable JSON_stringify : list entry -> string.
Variable isBinaryFile : string -> bool.

(** [prepareLocalFilesList] with its write of [files.publii.json], as far
    as the three files go; [Workspace.prepareLocalFilesList] has the write
    into the walked directory. *)
Definition saveLocalFilesList (root : list Inventory.node) (s : store)
  : option store :=
  match Inventory.prepareLocalFilesList md5 isBinaryFile protocol root with
  | Some fileList =>
      Some (Store (Some (JSON_stringify fileList)) (files_remote_json s)
                  (sync_revision_json s))
  | None => None
  end.

(** One successful session: inventory, resolution of the fetched
    manifest, diff, and the finalisation that the transport triggers once
    both stacks are drained ([uploadNewFileList]).  [root] is the input
    directory as the walk of this session finds it; the list file that the
    session writes there is the [files_publii_json] of the store and is not
    an entry of [root]. *)
Definition session (root : list Inventory.node) (syncRevision : string)
           (fileContent : string) (s : store) : option (Diff.result * store) :=
  match saveLocalFilesList root s with
  | None => None
  | Some s1 =>
      let r := checkLocalListWithRemoteList fileContent s1 in
      match outcome r with
      | None => None
      | Some d =>
          match replaceSyncInfoFiles syncRevision (after r) with
          | Some s2 => Some (d, s2)
          | None => None
          end
      end
  end.
End Resolver.
End Snapshot.

(* ================================================================== *)
(** ** removeFile and uploadFile, one invocation at a time *)
(* ================================================================== *)

Module Transfer.
Import Scheduler.

(** [this.filesToRemove] and [this.filesToUpload] after [sortFiles]. *)
Record stacks : Set := Stacks {
  toRemove : list fileItem;
  toUpload : list fileItem
}.

(** One invocation of [uploadFile()]: the call made on the client and the
    stacks it leaves. *)
Definition uploadFileStep (st : stacks) : call * stacks :=
  match pop (toUpload st) with
  | Some (fileToUpload, rest) =>
      (uploadCall fileToUpload, Stacks (toRemove st) rest)
  | None => (uploadNewFileList, st)
  end.

(** One invocation of [removeFile()]. *)
Definition removeFileStep (protocol : string) (st : stacks) : call * stacks :=
  if String.eqb protocol "s3" then (removeFileDelegated, st)
  else if String.eqb protocol "gitlab-pages" then (startSync, st)
  else
    match pop (toRemove st) with
    | Some (fileToRemove, rest) =>
        (removeCall fileToRemove, Stacks rest (toUpload st))
    | None => uploadFileStep st
    end.

(** Modelled from the spec: the completion callbacks of the transports,
    which are not in this file.  A completed removal re-enters
    [removeFile()], a completed upload re-enters [uploadFile()]; nothing
    follows [uploadNewFileList], and a transport that was handed the whole
    session does not come back to the pump. *)
Definition completed (protocol : string) (c : call) (st : stacks)
  : option (call * stacks) :=
  match c with
  | removeFile _ | removeDirectory _ => Some (removeFileStep protocol st)
  | uploadFile _ | uploadDirectory _ => Some (uploadFileStep st)
  | uploadNewFileList | removeFileDelegated | startSync => None
  end.

(** The calls made from [c] on, [c] included, for at most [fuel]
    completions. *)
Fixpoint run (protocol : string) (fuel : nat) (c : call) (st : stacks)
  : list call :=
  c :: match fuel with
       | 0 => []
       | S fuel' =>
           match completed protocol c st with
           | Some (c', st') => run protocol fuel' c' st'
           | None => []
           end
       end.

(** The calls of a session from the [removeFile()] that ends
    [compareFilesList]. *)
Definition transfer (protocol : string) (fuel : nat) (st : stacks) : list call :=
  let (c, st') := removeFileStep protocol st in run protocol fuel c st'.

(** The session from the two lists to the calls: [compareFilesList], then
    [sortFiles], then the pump. *)
Definition deploy (isBinaryFileSync : string -> bool) (protocol : string)
           (localFiles remoteFiles : list entry) : list call :=
  let d := Diff.compare protocol localFiles remoteFiles in
  transfer protocol (Diff.operations d)
           (Stacks (sortFilesToRemove (Diff.filesToRemove d))
                   (sortFilesToUpload isBinaryFileSync (Diff.filesToUpload d))).

End Transfer.

(* ================================================================== *)
(** ** testConnection and initSession: the choice of the client *)
(* ================================================================== *)

Module Connection.

(** The client classes required at the top of the file. *)
Inductive client : Set :=
  | FTP | SFTP | S3 | Git | GithubPages | GitlabPages | Netlify | GoogleCloud
  | ManualDeployment.

(** The [switch] of [testConnection]. *)
Definition testConnection (protocol : string) : client :=
  if String.eqb protocol "sftp" then SFTP
  else if String.eqb protocol "sftp+key" then SFTP
  else if String.eqb protocol "s3" then S3
  else if String.eqb protocol "netlify" then Netlify
  else if String.eqb protocol "google-cloud" then GoogleCloud
  else if String.eqb protocol "git" then Git
  else if String.eqb protocol "github-pages" then GithubPages
  else if String.eqb protocol "gitlab-pages" then GitlabPages
  else FTP.

(** The [switch] of [initSession]. *)
Definition initSession (protocol : string) : client :=
  if String.eqb protocol "sftp" then SFTP
  else if String.eqb protocol "sftp+key" then SFTP
  else if String.eqb protocol "s3" then S3
  else if String.eqb protocol "git" then Git
  else if String.eqb protocol "github-pages" then GithubPages
  else if String.eqb protocol "gitlab-pages" then GitlabPages
  else if String.eqb protocol "netlify" then Netlify
  else if String.eqb protocol "google-cloud" then GoogleCloud
  else if String.eqb protocol "manual" then ManualDeployment
  else FTP.

End Connection.

(* ================================================================== *)
(** ** The resolution and the diff on parsed values *)
(* ================================================================== *)

Module Js.

(** A value as [JSON.parse] gives it, and [undefined], the value of a
    property that is not there.  A number is given by its value: the
    program only tests it for zero and compares it.  The fields of an
    object have distinct names. *)
Inductive value : Set :=
  | undefined
  | null
  | boolean (b : bool)
  | number (n : Z)
  | str (s : string)
  | array (items : list value)
  | object (fields : list (string * value)).

(** [if (v)] *)
Definition truthy (v : value) : bool :=
  match v with
  | undefined | null => false
  | boolean b => b
  | number n => negb (n =? 0)%Z
  | str s => negb (String.eqb s EmptyString)
  | array _ | object _ => true
  end.

(** [a === b], where an array or an object is never the same reference as
    another value: the two sides are parsed from different texts, or one of
    them is a string of the program. *)
Definition strict_eq (a b : value) : bool :=
  match a, b with
  | undefined, undefined | null, null => true
  | boolean x, boolean y => Bool.eqb x y
  | number x, number y => (x =? y)%Z
  | str x, str y => String.eqb x y
  | _, _ => false
  end.

Fixpoint property (key : string) (fields : list (string * value)) : value :=
  match fields with
  | [] => undefined
  | (name, v) :: rest => if String.eqb name key then v else property key rest
  end.

(** [v.key] for the names the program reads, [revision], [path], [type]
    and [md5], none of which a boolean, a number, a string or an array has;
    [None] is the TypeError of a read on [null] or [undefined]. *)
Definition get (v : value) (key : string) : option value :=
  match v with
  | undefined | null => None
  | object fields => Some (property key fields)
  | boolean _ | number _ | str _ | array _ => Some undefined
  end.

(** [for (x of v)]: an array gives its items and a string its characters;
    [None] is the TypeError for a value that is not iterable. *)
Definition iterate (v : value) : option (list value) :=
  match v with
  | array items => Some items
  | str s => Some (map (fun c => str (String c EmptyString))
                       (list_ascii_of_string s))
  | undefined | null | boolean _ | number _ | object _ => None
  end.

End Js.

Module Untyped.
Import Js.

(** ['file'] and ['directory'] *)
Definition kindName (k : kind) : string :=
  match k with
  | File => "file"
  | Directory => "directory"
  end.

(** The object [{path, type, md5}] that [prepareLocalFilesList] pushes for
    an entry, as [JSON.parse] gives it back from the list file. *)
Definition encode (e : entry) : value :=
  object [("path", str (path e));
          ("type", str (kindName (type e)));
          ("md5", match md5 e with
                  | Some digest => str digest
                  | None => boolean false
                  end)].

(** An element of [filesToRemove] / [filesToUpload] as the loops push it:
    [{path: f.path, type: f.type}], whatever the two values are. *)
Record listItem : Set := ListItem { listPath : value; listType : value }.

Record result : Set := Result {
  filesToRemove : list listItem;
  filesToUpload : list listItem;
  operations : nat
  }.

Section Diff.
Variable protocol : string.

(** The inner loop of "Detect files to remove", on the items of
    [localFiles]. *)
Fixpoint fileFounded (localFiles : list value) (remoteFile : value)
  : option bool :=
  match localFiles with
  | [] => Some false
  | localFile :: rest =>
      match get localFile "path" with
      | None => None
      | Some localPath =>
          match get remoteFile "path" with
          | None => None
          | Some remotePath =>
              if strict_eq localPath remotePath then Some true
              else fileFounded rest remoteFile
          end
      end
  end.

(** The loop "Detect files to remove"; [localFiles] is iterated anew for
    every remote item. *)
Fixpoint detectFilesToRemove (localFiles : value) (remoteFiles : list value)
  : option (list listItem) :=
  match remoteFiles with
  | [] => Some []
  | remoteFile :: rest =>
      match iterate localFiles with
      | None => None
      | Some items =>
          match fileFounded items remoteFile with
          | None => None
          | Some true => detectFilesToRemove localFiles rest
          | Some false =>
              match get remoteFile "type", get remoteFile "path" with
              | Some remoteType, Some remotePath =>
                  if Diff.skipsDirectories protocol
                     && strict_eq remoteType (str "directory")
                  then detectFilesToRemove localFiles rest
                  else option_map (cons (ListItem remotePath remoteType))
                                  (detectFilesToRemove localFiles rest)
              | _, _ => None
              end
          end
      end
  end.

(** The inner loop of "Detect files to upload". *)
Fixpoint fileShouldBeUploaded (remoteFiles : list value) (localFile : value)
  : option bool :=
  match remoteFiles with
  | [] => Some true
  | remoteFile :: rest =>
      match get localFile "path" with
      | None => None
      | Some localPath =>
          match get remoteFile "path" with
          | None => None
          | Some remotePath =>
              if strict_eq localPath remotePath then
                match get localFile "md5", get remoteFile "md5" with
                | Some localMD5, Some remoteMD5 =>
                    if strict_eq localMD5 remoteMD5 then Some false
                    else fileShouldBeUploaded rest localFile
                | _, _ => None
                end
              else fileShouldBeUploaded rest localFile
          end
      end
  end.

(** The loop "Detect files to upload"; [remoteFiles] has been iterated by
    the first loop. *)
Fixpoint detectFilesToUpload (remoteFiles : list value) (localFiles : list value)
  : option (list listItem) :=
  match localFiles with
  | [] => Some []
  | localFile :: rest =>
      match fileShouldBeUploaded remoteFiles localFile with
      | None => None
      | Some false => detectFilesToUpload remoteFiles rest
      | Some true =>
          match get localFile "type", get localFile "path" with
          | Some localType, Some localPath =>
              if Diff.skipsDirectories protocol
                 && strict_eq localType (str "directory")
              then detectFilesToUpload remoteFiles rest
              else option_map (cons (ListItem localPath localType))
                              (detectFilesToUpload remoteFiles rest)
          | _, _ => None
          end
      end
  end.

(** [files.filter(file => file.type === 'file').length] *)
Definition countFiles (files : list listItem) : nat :=
  length (filter (fun file => strict_eq (listType file) (str "file")) files).

Definition operationsCounter (toRemove toUpload : list listItem) : nat :=
  if String.eqb protocol "s3"
  then countFiles toRemove + countFiles toUpload + 1
  else length toRemove + length toUpload + 1.

(** [JSON.parse] on a text; [None] is a SyntaxError. *)
Variable JSON_parse : string -> option value.

(** [localFiles] after lines 260-265: the text itself when it is empty,
    the parsed text otherwise. *)
Definition readLocalFiles (s : Snapshot.store) : option value :=
  match Snapshot.files_publii_json s with
  | None => None
  | Some EmptyString => Some (str EmptyString)
  | Some localText => JSON_parse localText
  end.

(** [remoteFiles] after lines 261-284; the [map] of the gitlab-pages case
    raises inside the inner [try] on anything but an array. *)
Definition readRemoteFiles (remoteFileListExists : bool) (s : Snapshot.store)
  : option value :=
  if remoteFileListExists then
    match Snapshot.files_remote_json s with
    | None => None
    | Some EmptyString => Some (str EmptyString)
    | Some remoteText =>
        match JSON_parse remoteText with
        | None => Some (boolean false)
        | Some doc =>
            if String.eqb protocol "gitlab-pages" then
              match doc with
              | array _ => Some doc
              | _ => Some (boolean false)
              end
            else Some doc
        end
    end
  else Some (boolean false).

(** Lines 286-357: the default of [remoteFiles], the two loops and the
    counter; [None] is an exception. *)
Definition compare (localFiles remoteFiles : value) : option result :=
  let remoteFiles := if truthy remoteFiles then remoteFiles else array [] in
  match iterate remoteFiles with
  | None => None
  | Some remoteItems =>
      match detectFilesToRemove localFiles remoteItems with
      | None => None
      | Some toRemove =>
          match iterate localFiles with
          | None => None
          | Some localItems =>
              match detectFilesToUpload remoteItems localItems with
              | None => None
              | Some toUpload =>
                  Some (Result toRemove toUpload
                               (operationsCounter toRemove toUpload))
              end
          end
      end
  end.

(** [compareFilesList(remoteFileListExists)] up to the call of
    [sortFiles]; [None] is an exception leaving the method. *)
Definition compareFilesList (remoteFileListExists : bool) (s : Snapshot.store)
  : option result :=
  match readLocalFiles s with
  | None => None
  | Some localFiles =>
      match readRemoteFiles remoteFileListExists s with
      | None => None
      | Some remoteFiles => compare localFiles remoteFiles
      end
  end.

(** [crypto.createHash('md5').update(buffer).digest('hex')] *)
Variable md5 : string -> string.

(** The [try] block of [checkLocalListWithRemoteList] up to its call of
    [compareFilesList]: the verdict and the store at that point.  [None] is
    an exception raised before the call. *)
Definition resolve (fileContent : string) (s : Snapshot.store)
  : option (bool * Snapshot.store) :=
  match JSON_parse fileContent with
  | None => None
  | Some content =>
      let revisionID :=
        match Snapshot.sync_revision_json s with
        | None => Some (boolean false)
        | Some syncRevisionContent =>
            match JSON_parse syncRevisionContent with
            | None => None
            | Some doc => get doc "revision"
            end
        end in
      match revisionID with
      | None => None
      | Some revisionID =>
          match get content "revision" with
          | None => None
          | Some revision =>
              if truthy revision then
                match Snapshot.files_remote_json s with
                | None => None
                | Some filesToCheck =>
                    if truthy revisionID
                    then Some (strict_eq revisionID revision, s)
                    else Some (strict_eq (str (md5 filesToCheck)) revision, s)
                end
              else
                Some (true,
                      Snapshot.Store (Snapshot.files_publii_json s)
                                     (Some fileContent)
                                     (Snapshot.sync_revision_json s))
          end
      end
  end.

(** What a run of [checkLocalListWithRemoteList] did: the arguments of its
    calls of [compareFilesList], in order, the result of the last one and
    the store it ran on. *)
Record resolution : Set := Resolution {
  invoked : list bool;
  outcome : option result;
  after : Snapshot.store
  }.

(** [checkLocalListWithRemoteList]: an exception of the [try] block, raised
    before the call of [compareFilesList] or by it, is caught and answered
    with [compareFilesList(false)]. *)
Definition checkLocalListWithRemoteList (fileContent : string) (s : Snapshot.store)
  : resolution :=
  match resolve fileContent s with
  | Some (isExpectedCopy, s') =>
      match compareFilesList isExpectedCopy s' with
      | Some r => Resolution [isExpectedCopy] (Some r) s'
      | None => Resolution [isExpectedCopy; false] (compareFilesList false s') s'
      end
  | None => Resolution [false] (compareFilesList false s) s
  end.

End Diff.
End Untyped.

(* ================================================================== *)
(** ** The list file inside the input directory *)
(* ================================================================== *)

Module Workspace.
Import Inventory.

(** [files.publii.json], which [prepareLocalFilesList] writes into the
    directory it has just walked. *)
Definition manifest : string := "files.publii.json".

(** The files of a session as they lie on disk: the children of the input
    directory, [files.publii.json] among them once it is written, and the
    two files of the configuration directory. *)
Record disk : Set := Disk {
  inputDir : list node;
  files_remote_json : option string;
  sync_revision_json : option string
  }.

Definition isFileNamed (name : string) (n : node) : bool :=
  match n with
  | FileNode file _ => String.eqb file name
  | DirNode _ _ => false
  end.

Definition isDirectoryNamed (name : string) (n : node) : bool :=
  match n with
  | FileNode _ _ => false
  | DirNode file _ => String.eqb file name
  end.

(** [fs.readFileSync(path.join(dir, name))] on the children of [dir];
    [None] is the exception for a name that is missing or a directory. *)
Fixpoint readFile (name : string) (files : list node) : option string :=
  match files with
  | [] => None
  | FileNode file content :: rest =>
      if String.eqb file name then Some content else readFile name rest
  | DirNode file _ :: rest =>
      if String.eqb file name then None else readFile name rest
  end.

Definition rewritten (name content : string) (n : node) : node :=
  if isFileNamed name n then FileNode name content else n.

(** [fs.writeFileSync(path.join(dir, name), content)] on the children of
    [dir]: a directory of that name raises ([None]), a file of that name is
    rewritten where it is, and a new file shows up at the index [place]
    of the next [readdirSync], which is the file system's choice. *)
Definition writeFile (place : nat) (name content : string) (files : list node)
  : option (list node) :=
  if existsb (isDirectoryNamed name) files then None
  else if existsb (isFileNamed name) files
       then Some (map (rewritten name content) files)
       else Some (firstn place files ++ FileNode name content :: skipn place files).

Section Session.
Variable md5 : string -> string.
Variable JSON_parse : string -> option Js.value.
Variable protocol : string.
Variable JSON_stringify : list entry -> string.
Variable isBinaryFile : string -> bool.
Variable place : nat.

(** The three files as the resolution and the diff read them. *)
Definition view (d : disk) : Snapshot.store :=
  Snapshot.Store (readFile manifest (inputDir d)) (files_remote_json d)
                 (sync_revision_json d).

(** [prepareLocalFilesList]: the walk of the input directory, the list,
    and the write of the list into the input directory. *)
Definition prepareLocalFilesList (d : disk) : option disk :=
  match Inventory.prepareLocalFilesList md5 isBinaryFile protocol (inputDir d) with
  | None => None
  | Some fileList =>
      match writeFile place manifest (JSON_stringify fileList) (inputDir d) with
      | None => None
      | Some files => Some (Disk files (files_remote_json d) (sync_revision_json d))
      end
  end.

(** [replaceSyncInfoFiles] *)
Definition replaceSyncInfoFiles (syncRevision : string) (d : disk) : option disk :=
  match readFile manifest (inputDir d) with
  | None => None
  | Some contentToSave =>
      let newContent := Snapshot.descriptor syncRevision in
      match writeFile place manifest newContent (inputDir d) with
      | None => None
      | Some files => Some (Disk files (Some contentToSave) (Some newContent))
      end
  end.

(** One successful session on the disk: inventory, resolution of the
    fetched manifest, diff, and the finalisation that the transport
    triggers once both stacks are drained ([uploadNewFileList]). *)
Definition session (syncRevision fileContent : string) (d : disk)
  : option (Untyped.result * disk) :=
  match prepareLocalFilesList d with
  | None => None
  | Some d1 =>
      let r := Untyped.checkLocalListWithRemoteList protocol JSON_parse md5
                                                    fileContent (view d1) in
      match Untyped.outcome r with
      | None => None
      | Some result =>
          match replaceSyncInfoFiles
                  syncRevision
                  (Disk (inputDir d1)
                        (Snapshot.files_remote_json (Untyped.after r))
                        (sync_revision_json d1)) with
          | Some d2 => Some (result, d2)
          | None => None
          end
      end
  end.
End Session.
End Workspace.

(* ================================================================== *)
(** ** Vocabulary of the statements *)
(* ================================================================== *)

(** The data model's invariant on an entry: a directory has no digest. *)
Definition directoryFree (e : entry) : Prop :=
  type e = Directory -> md5 e = None.

Module SchedulerSpec.

(** The three classes the upload comparators tell apart: directories,
    binary files and the other files. *)
Definition isDirItem (f : fileItem) : bool := isDirectory (itemType f).
Definition isFileItem (f : fileItem) : bool := isFile (itemType f).

Section Classes.
Variable isBinaryFileSync : string -> bool.

Definition isBinaryItem (f : fileItem) : bool :=
  isFileItem f && isBinaryFileSync (itemPath f).
Definition isTextItem (f : fileItem) : bool :=
  isFileItem f && negb (isBinaryFileSync (itemPath f)).

(** The array [w] is in three layers: binary files, other files,
    directories. *)
Definition layered (w bs ts ds : list fileItem) : Prop :=
  w = bs ++ ts ++ ds /\
  Forall (fun f => isBinaryItem f = true) bs /\
  Forall (fun f => isTextItem f = true) ts /\
  Forall (fun f => isDirItem f = true) ds.

(** Invariant of the first upload sort. *)
Definition layers (w : list fileItem) : Prop :=
  exists bs ts ds, layered w bs ts ds.
End Classes.

(** [file.path.length] and the order of the directories in the array. *)
Definition pathLength (f : fileItem) : nat := String.length (itemPath f).

Definition longerFirst (a b : fileItem) : Prop := pathLength b <= pathLength a.

(** Where binary insertion puts a directory among directories already in
    decreasing length: before the first strictly shorter one. *)
Fixpoint insertDirectory (x : fileItem) (ds : list fileItem) : list fileItem :=
  match ds with
  | [] => [x]
  | d :: ds' =>
      if pathLength d <? pathLength x then x :: d :: ds'
      else d :: insertDirectory x ds'
  end.

(** The directories of the array after the second upload sort. *)
Definition orderDirectories (ds : list fileItem) : list fileItem :=
  fold_left (fun sorted x => insertDirectory x sorted) ds [].

(** The array [w] is files first, then directories in decreasing length. *)
Definition twoLayered (w fs ds : list fileItem) : Prop :=
  w = fs ++ ds /\
  Forall (fun f => isDirItem f = false) fs /\
  Forall (fun f => isDirItem f = true) ds /\
  StronglySorted longerFirst ds.

(** Invariant of the second upload sort. *)
Definition twoLayers (w : list fileItem) : Prop :=
  exists fs ds, twoLayered w fs ds.

(** The removal order as first stated: files, then directories, each group
    in the order of discovery. *)
Definition removalFollowsDiscovery (filesToRemove : list fileItem) : Prop :=
  Scheduler.removalOrder (Scheduler.sortFilesToRemove filesToRemove)
  = filter (fun f => isFile (itemType f)) filesToRemove
    ++ filter (fun f => isDirectory (itemType f)) filesToRemove.

End SchedulerSpec.

Module TransferSpec.
Import Scheduler.

(** The kinds of calls a transport receives. *)
Definition isRemoval (c : call) : Prop :=
  match c with removeFile _ | removeDirectory _ => True | _ => False end.

Definition isUpload (c : call) : Prop :=
  match c with uploadFile _ | uploadDirectory _ => True | _ => False end.

Definition isDirectoryCall (c : call) : Prop :=
  match c with removeDirectory _ | uploadDirectory _ => True | _ => False end.

(** The transports [removeFile()] drives item by item. *)
Definition perItem (protocol : string) : Prop :=
  protocol <> "s3" /\ protocol <> "gitlab-pages".

End TransferSpec.

Module OperationSpec.

(** The number of File entries of a set, counted entry by entry. *)
Fixpoint fileEntries (items : list fileItem) : nat :=
  match items with
  | [] => 0
  | Item _ File :: rest => S (fileEntries rest)
  | Item _ Directory :: rest => fileEntries rest
  end.

(** The transports without directories: s3 counts no directory, and the
    sets of google-cloud and gitlab-pages are built without any. *)
Definition withoutDirectories (protocol : string) : bool :=
  existsb (String.eqb protocol) ["s3"; "google-cloud"; "gitlab-pages"].

End OperationSpec.

Module InventorySpec.
Import Inventory.

(** The file [name], with [content], is listed as [listed] below [files],
    through the directories [ancestors] (outermost first); [relativeDir] is
    the listing prefix of [files]. *)
Inductive inside : string -> list node -> list string -> string -> string
                   -> string -> Prop :=
| inside_here (relativeDir : string) (files : list node) (name content : string) :
    In (FileNode name content) files ->
    inside relativeDir files [] name (joinListed relativeDir name) content
| inside_below (relativeDir : string) (files : list node) (dir : string)
               (children : list node) (ancestors : list string)
               (name listed content : string) :
    In (DirNode dir children) files ->
    inside (enter relativeDir dir) children ancestors name listed content ->
    inside relativeDir files (dir :: ancestors) name listed content.

(** The listed path of anything below a directory of the root. *)
Definition startsWithSlash (s : string) : Prop :=
  exists rest, s = String "/"%char rest.

(** The two names [prepareLocalFilesList] treats apart. *)
Definition isSpecialName (name : string) : Prop :=
  name = ".htaccess" \/ name = "_redirects".

(** Induction on a tree, through the children of a directory. *)
Fixpoint node_induction (P : node -> Prop)
         (Hfile : forall name content, P (FileNode name content))
         (Hdir : forall name children, Forall P children -> P (DirNode name children))
         (n : node) : P n :=
  match n with
  | FileNode name content => Hfile name content
  | DirNode name children =>
      Hdir name children
           ((fix all (l : list node) : Forall P l :=
               match l with
               | [] => Forall_nil P
               | x :: l' => Forall_cons x (node_induction P Hfile Hdir x) (all l')
               end) children)
  end.

(** The inclusion of nested special files as first stated: a [.htaccess] or
    [_redirects] below any directory of the root is in the inventory with
    the digest of its content. *)
Definition nestedSpecialFilesListed
           (md5 : string -> string) (isBinaryFile : string -> bool)
           (protocol : string) (root : list node) : Prop :=
  forall ancestors name listed content,
    inside EmptyString root ancestors name listed content ->
    ancestors <> [] ->
    isSpecialName name ->
    exists fileList,
      prepareLocalFilesList md5 isBinaryFile protocol root
      = Some fileList /\
      In (Entry listed File (Some (md5 content))) fileList.

End InventorySpec.

Module FingerprintSpec.

(** Reading the buffer of a binary file back: every byte is taken as a
    decimal digit, most significant first. *)
Definition digitOfByte (b : ascii) (d : Decimal.uint) : Decimal.uint :=
  match nat_of_ascii b with
  | 0 => Decimal.D0 d | 1 => Decimal.D1 d | 2 => Decimal.D2 d
  | 3 => Decimal.D3 d | 4 => Decimal.D4 d | 5 => Decimal.D5 d
  | 6 => Decimal.D6 d | 7 => Decimal.D7 d | 8 => Decimal.D8 d
  | _ => Decimal.D9 d
  end.

Fixpoint uintOfBuffer (buffer : string) : Decimal.uint :=
  match buffer with
  | EmptyString => Decimal.Nil
  | String b rest => digitOfByte b (uintOfBuffer rest)
  end.

Definition sizeOfBuffer (buffer : string) : nat :=
  Nat.of_uint (uintOfBuffer buffer).

(** The bytes whose values are the decimal digits of a number, most
    significant first: 12 gives the two bytes 1 and 2. *)
Fixpoint bytesOfUint (d : Decimal.uint) : string :=
  match d with
  | Decimal.Nil => EmptyString
  | Decimal.D0 d' => String (ascii_of_nat 0) (bytesOfUint d')
  | Decimal.D1 d' => String (ascii_of_nat 1) (bytesOfUint d')
  | Decimal.D2 d' => String (ascii_of_nat 2) (bytesOfUint d')
  | Decimal.D3 d' => String (ascii_of_nat 3) (bytesOfUint d')
  | Decimal.D4 d' => String (ascii_of_nat 4) (bytesOfUint d')
  | Decimal.D5 d' => String (ascii_of_nat 5) (bytesOfUint d')
  | Decimal.D6 d' => String (ascii_of_nat 6) (bytesOfUint d')
  | Decimal.D7 d' => String (ascii_of_nat 7) (bytesOfUint d')
  | Decimal.D8 d' => String (ascii_of_nat 8) (bytesOfUint d')
  | Decimal.D9 d' => String (ascii_of_nat 9) (bytesOfUint d')
  end.

Definition digitBytes (size : nat) : string := bytesOfUint (Nat.to_uint size).

(** The decimal string of a number: 12 gives the two characters "1" and
    "2", the bytes 49 and 50. *)
Definition decimalString (size : nat) : string :=
  NilEmpty.string_of_uint (Nat.to_uint size).

(** What is hashed for a file outside the two special root names. *)
Definition hashed (isBinaryFile : string -> bool) (content : string) : string :=
  if isBinaryFile content then digitBytes (String.length content) else content.

(** The fingerprint rule as first stated: every file of the inventory has
    the digest of its bytes when it is not binary and the digest of the
    decimal string of its size when it is. *)
Definition asStated (md5 : string -> string) (isBinaryFile : string -> bool)
           (protocol : string) (root : list Inventory.node) : Prop :=
  forall fileList ancestors name listed content h,
    Inventory.prepareLocalFilesList md5 isBinaryFile protocol root = Some fileList ->
    InventorySpec.inside EmptyString root ancestors name listed content ->
    In (Entry listed File (Some h)) fileList ->
    h = md5 (if isBinaryFile content
             then decimalString (String.length content)
             else content).

(** Its last clause alone: two binary files of the same size have the
    same fingerprint in the inventory. *)
Definition equalSizesEqualFingerprints
           (md5 : string -> string) (isBinaryFile : string -> bool)
           (protocol : string) (root : list Inventory.node) : Prop :=
  forall fileList ancestorsA nameA listedA contentA hA
         ancestorsB nameB listedB contentB hB,
    Inventory.prepareLocalFilesList md5 isBinaryFile protocol root = Some fileList ->
    InventorySpec.inside EmptyString root ancestorsA nameA listedA contentA ->
    InventorySpec.inside EmptyString root ancestorsB nameB listedB contentB ->
    isBinaryFile contentA = true -> isBinaryFile contentB = true ->
    String.length contentA = String.length contentB ->
    In (Entry listedA File (Some hA)) fileList ->
    In (Entry listedB File (Some hB)) fileList ->
    hA = hB.

End FingerprintSpec.

Module SnapshotSpec.
Import Snapshot.

(** The list every local entry gives when nothing is known of the remote:
    all of them, directories excepted for a transport that skips them. *)
Definition everyLocalEntry (protocol : string) (localFiles : list entry)
  : list fileItem :=
  map (fun e => Item (path e) (type e))
      (filter (fun e => negb (Diff.skipsDirectories protocol
                              && isDirectory (type e)))
              localFiles).

(** [files.publii.json] is there and holds the array [localFiles]. *)
Definition localListIs (JSON_parse : string -> option json) (s : store)
           (localFiles : list entry) : Prop :=
  exists text, files_publii_json s = Some text /\ text <> EmptyString /\
               JSON_parse text = Some (JArray localFiles).

End SnapshotSpec.

Module UntypedSpec.
Import Js Untyped.

(** The element pushed for an entry of kind and path known. *)
Definition item (f : fileItem) : listItem :=
  ListItem (str (itemPath f)) (str (kindName (itemType f))).

(** [files.publii.json] holds the list [prepareLocalFilesList] has just
    written: a text that is not empty and parses to the array of the
    entries. *)
Definition localListIs (JSON_parse : string -> option value)
           (s : Snapshot.store) (localFiles : list entry) : Prop :=
  exists text, Snapshot.files_publii_json s = Some text /\
               text <> EmptyString /\
               JSON_parse text = Some (array (map encode localFiles)).

(** Nothing is removed and every local entry is uploaded (directories
    excepted for a transport that skips them). *)
Definition fullUpload (protocol : string) (localFiles : list entry)
           (r : result) : Prop :=
  filesToRemove r = [] /\
  filesToUpload r = map item (SnapshotSpec.everyLocalEntry protocol localFiles).

(** A document of the expected shapes as a parsed value. *)
Definition embedRevision (revision : Snapshot.jsval) : value :=
  match revision with
  | Snapshot.undefined => undefined
  | Snapshot.null => null
  | Snapshot.boolean b => boolean b
  | Snapshot.number n => number n
  | Snapshot.str s => str s
  | Snapshot.object => object []
  end.

Definition embed (doc : Snapshot.json) : value :=
  match doc with
  | Snapshot.JNull => null
  | Snapshot.JBoolean b => boolean b
  | Snapshot.JNumber n => number n
  | Snapshot.JArray files => array (map encode files)
  | Snapshot.JObject revision => object [("revision", embedRevision revision)]
  end.

Definition embedResult (d : Diff.result) : result :=
  Result (map item (Diff.filesToRemove d)) (map item (Diff.filesToUpload d))
         (Diff.operations d).

(** [null] and [undefined], on which a property read raises. *)
Definition nullish (v : value) : Prop := v = null \/ v = undefined.

(** What stops the two loops on a document: [for ... of] raises on it, or
    a property is read on one of its items that is [null]. *)
Definition stopsTheLoops (doc : value) : Prop :=
  iterate doc = None \/
  exists items x, iterate doc = Some items /\ In x items /\ nullish x.

(** A document that cannot be used as a list of files: anything but an
    array or a string, and an array with a [null] item. *)
Definition unusable (doc : value) : Prop :=
  match doc with
  | array items => exists x, In x items /\ nullish x
  | str _ => False
  | undefined | null | boolean _ | number _ | object _ => True
  end.

(** The same for the cached remote list, which is replaced by an empty
    list when it is [null], [false], [0] or an empty string. *)
Definition unusableRemote (doc : value) : Prop :=
  match doc with
  | array items => exists x, In x items /\ nullish x
  | boolean b => b = true
  | number n => n <> 0%Z
  | object _ => True
  | undefined | null | str _ => False
  end.

(** [files.publii.json] makes [compareFilesList] raise. *)
Definition localListBroken (JSON_parse : string -> option value)
           (s : Snapshot.store) : Prop :=
  Snapshot.files_publii_json s = None \/
  exists text, Snapshot.files_publii_json s = Some text /\
               text <> EmptyString /\
               (JSON_parse text = None \/
                exists doc, JSON_parse text = Some doc /\ unusable doc).

(** [files-remote.json] makes [compareFilesList(true)] raise; for
    gitlab-pages anything but an array is caught by the inner [try]. *)
Definition remoteListBroken (JSON_parse : string -> option value)
           (protocol : string) (s : Snapshot.store) : Prop :=
  Snapshot.files_remote_json s = None \/
  exists text doc, Snapshot.files_remote_json s = Some text /\
                   text <> EmptyString /\
                   JSON_parse text = Some doc /\
                   unusableRemote doc /\
                   (protocol = "gitlab-pages" -> exists items, doc = array items).

End UntypedSpec.

Module SessionSpec.
Import Inventory.

(** Idempotence as first stated: after a successful first session, a
    second session on what the first one left on disk, fetching the
    manifest the first one published, finds nothing to remove and nothing
    to upload. *)
Definition idempotent
           (md5 : string -> string) (JSON_parse : string -> option Js.value)
           (protocol : string) (JSON_stringify : list entry -> string)
           (isBinaryFile : string -> bool) (place : nat)
           (R1 R2 fileContent : string) (d0 : Workspace.disk) : Prop :=
  forall r1 d1,
    Workspace.session md5 JSON_parse protocol JSON_stringify isBinaryFile place
                      R1 fileContent d0 = Some (r1, d1) ->
    exists r2 d2,
      Workspace.session md5 JSON_parse protocol JSON_stringify isBinaryFile place
                        R2 (Snapshot.descriptor R1) d1 = Some (r2, d2) /\
      Untyped.filesToRemove r2 = [] /\ Untyped.filesToUpload r2 = [].

(** [JSON.stringify] and [JSON.parse] on the list built from a directory:
    the text is not empty and parses back to the list. *)
Definition roundTrips
           (md5 : string -> string) (JSON_parse : string -> option Js.value)
           (protocol : string) (JSON_stringify : list entry -> string)
           (isBinaryFile : string -> bool) (files : list node) : Prop :=
  forall fileList,
    Inventory.prepareLocalFilesList md5 isBinaryFile protocol files = Some fileList ->
    JSON_stringify fileList <> EmptyString /\
    JSON_parse (JSON_stringify fileList)
    = Some (Js.array (map Untyped.encode fileList)).

(** Two states of a directory that differ at most in the file [name]. *)
Definition sameBut (name : string) (before after : list node) : Prop :=
  (forall dir children,
      In (DirNode dir children) after <-> In (DirNode dir children) before) /\
  (forall file content,
      In (FileNode file content) after ->
      In (FileNode file content) before \/ file = name) /\
  (forall file content,
      In (FileNode file content) before -> file <> name ->
      In (FileNode file content) after).

End SessionSpec.

Module RemovalSpec.

(** The remote entries of kind [k] whose path no local entry has, in the
    order of the remote list. *)
Definition staleEntries (localFiles : list entry) (k : kind)
           (remoteFiles : list entry) : list fileItem :=
  map (fun r => Item (path r) (type r))
      (filter (fun r => kind_eqb (type r) k
                        && negb (Diff.fileFounded localFiles r))
              remoteFiles).

End RemovalSpec.

Module TreeSpec.
Import Inventory.

(** The directory [name] is listed as [listed] below [files], through the
    directories [ancestors] (outermost first); [relativeDir] is the listing
    prefix of [files]. *)
Inductive dirInside : string -> list node -> list string -> string -> string
                      -> Prop :=
| dir_here (relativeDir : string) (files : list node) (name : string)
           (children : list node) :
    In (DirNode name children) files ->
    dirInside relativeDir files [] name (joinListed relativeDir name)
| dir_below (relativeDir : string) (files : list node) (dir : string)
            (children : list node) (ancestors : list string)
            (name listed : string) :
    In (DirNode dir children) files ->
    dirInside (enter relativeDir dir) children ancestors name listed ->
    dirInside relativeDir files (dir :: ancestors) name listed.

(** The test of [readDirRecursiveSync] on a file name. *)
Definition listedName (name : string) : Prop :=
  name <> ".git" /\ (notHidden name = true \/ name = ".htaccess").

(** What a listed element stands for in the tree below [files]. *)
Definition sound (rel : string) (files : list node) (x : string * stat) : Prop :=
  match x with
  | (listed, isRegular content) =>
      exists ancestors name,
        InventorySpec.inside rel files ancestors name listed content /\
        ~ In ".git" ancestors /\ listedName name
  | (listed, isDir) =>
      exists ancestors name,
        dirInside rel files ancestors name listed /\
        ~ In ".git" (ancestors ++ [name])
  end.

(** A special name at the root of the input directory. *)
Definition specialAtRoot (ancestors : list string) (name : string) : Prop :=
  ancestors = [] /\ InventorySpec.isSpecialName name.

(** [p] is [listed] without its leading slash, if it has one. *)
Definition withoutLeadingSlash (listed p : string) : Prop :=
  listed = String "/"%char p \/
  (listed = p /\ ~ InventorySpec.startsWithSlash p).

(** A file entry has a digest, a directory entry has none. *)
Definition wellFormed (e : entry) : Prop :=
  match type e with
  | File => md5 e <> None
  | Directory => md5 e = None
  end.

Section Pushed.
Variable md5 : string -> string.
Variable isBinaryFile : string -> bool.

(** What one iteration of the loop of [prepareLocalFilesList] pushes, when
    it does not raise. *)
Definition pushed (protocol : string) (x : string * stat) : list entry :=
  let (filePath, st) := x in
  if String.eqb filePath ".git" then []
  else if String.eqb filePath ".htaccess" || String.eqb filePath "_redirects"
  then
    match st with
    | isRegular content =>
        if notExcluded protocol
        then [Entry filePath File (Some (md5 content))] else []
    | isDir => []
    end
  else
    match st with
    | isDir =>
        if listsDirectories protocol
        then [Entry (stripLeadingSlash filePath) Directory None] else []
    | isRegular content =>
        [Entry filePath File (Some (fileMD5 md5 isBinaryFile content))]
    end.
End Pushed.

End TreeSpec.

(* ================================================================== *)
(** ** Binary insertion: where a pivot lands *)
(* ================================================================== *)

Module ArraySortFacts.
Import ArraySort.
Section Insertion.
Context {A : Type}.
Variable comparefn : A -> A -> Z.

Local Abbreviation lt := (before comparefn).
Local Abbreviation insert := (insertPivot comparefn).
Local Abbreviation BIS := (BinaryInsertionSort comparefn).

  (** The search stops at the boundary of a prefix the pivot does not
      precede and a suffix it precedes. *)
Lemma binarySearch_boundary (pivot : A) (keep move : list A) :
    Forall (fun x => lt pivot x = false) keep ->
    Forall (fun x => lt pivot x = true) move ->
    forall fuel left right,
      left <= length keep <= right ->
      right <= length (keep ++ move) ->
      right - left <= fuel ->
      binarySearch comparefn fuel pivot (keep ++ move) left right = length keep.
  Proof.
    intros Hkeep Hmove.
    induction fuel as [|fuel IH]; intros left right Hb Hr Hf; simpl.
    - lia.
    - destruct (left <? right) eqn:Hlt.
      + apply Nat.ltb_lt in Hlt.
        assert (Hhalf : Nat.div2 (right - left) < right - left)
          by (apply Nat.lt_div2; lia).
        remember (Nat.div2 (right - left)) as half eqn:Ehalf. clear Ehalf.
        set (mid := left + half) in *.
        destruct (nth_error (keep ++ move) mid) as [x|] eqn:Hx.
        * destruct (Nat.lt_ge_cases mid (length keep)) as [Hin|Hout].
          -- rewrite nth_error_app1 in Hx by exact Hin.
             apply nth_error_In in Hx.
             rewrite Forall_forall in Hkeep. rewrite (Hkeep _ Hx).
             apply IH; subst mid; lia.
          -- rewrite nth_error_app2 in Hx by exact Hout.
             apply nth_error_In in Hx.
             rewrite Forall_forall in Hmove. rewrite (Hmove _ Hx).
             apply IH; subst mid; lia.
        * apply nth_error_None in Hx. subst mid. lia.
      + apply Nat.ltb_ge in Hlt. lia.
  Qed.

Lemma insertPivot_boundary (pivot : A) (keep move : list A) :
    Forall (fun x => lt pivot x = false) keep ->
    Forall (fun x => lt pivot x = true) move ->
    insert pivot (keep ++ move) = keep ++ pivot :: move.
  Proof.
    intros Hkeep Hmove. unfold insertPivot.
    rewrite (binarySearch_boundary pivot keep move Hkeep Hmove)
      by (rewrite ?length_app; lia).
    rewrite firstn_app, skipn_app, firstn_all, skipn_all, Nat.sub_diag.
    simpl. now rewrite app_nil_r.
  Qed.

Lemma insertPivot_last (pivot : A) (sorted : list A) :
    Forall (fun x => lt pivot x = false) sorted ->
    insert pivot sorted = sorted ++ [pivot].
  Proof.
    intros H.
    rewrite <- (app_nil_r sorted) at 1.
    now apply insertPivot_boundary.
  Qed.

Lemma insertPivot_first (pivot : A) (sorted : list A) :
    Forall (fun x => lt pivot x = true) sorted ->
    insert pivot sorted = pivot :: sorted.
  Proof.
    intros H. now apply (insertPivot_boundary pivot [] sorted).
  Qed.

  (** *** The leading run is what insertion would have built *)

Variable Inv : list A -> Prop.
Hypothesis Inv_single : forall a, Inv [a].
Hypothesis Inv_insert : forall x w, Inv w -> Inv (insert x w).
Hypothesis ascending_step : forall acc prev x,
      Inv (acc ++ [prev]) -> lt x prev = false ->
      insert x (acc ++ [prev]) = (acc ++ [prev]) ++ [x].
Hypothesis descending_step : forall acc prev x,
      Inv (prev :: acc) -> lt x prev = true ->
      insert x (prev :: acc) = x :: prev :: acc.

Lemma ascending_run : forall rest acc prev,
      Inv (acc ++ [prev]) ->
      let n := runTail comparefn false prev rest in
      BIS ((acc ++ [prev]) ++ firstn n rest) (skipn n rest)
      = BIS (acc ++ [prev]) rest.
  Proof.
    induction rest as [|x rest IH]; intros acc prev HI; simpl.
    - now rewrite app_nil_r.
    - destruct (lt x prev) eqn:Hx; simpl.
      + now rewrite app_nil_r.
      + rewrite (ascending_step acc prev x HI Hx).
        rewrite <- (IH (acc ++ [prev]) x).
        * now rewrite <- (app_assoc (acc ++ [prev]) [x]).
        * rewrite <- (ascending_step acc prev x HI Hx). now apply Inv_insert.
  Qed.

Lemma descending_run : forall rest acc prev,
      Inv (prev :: acc) ->
      let n := runTail comparefn true prev rest in
      BIS (rev (firstn n rest) ++ prev :: acc) (skipn n rest)
      = BIS (prev :: acc) rest.
  Proof.
    induction rest as [|x rest IH]; intros acc prev HI; simpl.
    - reflexivity.
    - destruct (lt x prev) eqn:Hx; simpl.
      + rewrite (descending_step acc prev x HI Hx).
        rewrite <- (IH (prev :: acc) x).
        * now rewrite <- app_assoc.
        * rewrite <- (descending_step acc prev x HI Hx). now apply Inv_insert.
      + reflexivity.
  Qed.

Theorem sort_insertAll (array : list A) :
    sort comparefn array = insertAll comparefn array.
  Proof.
    destruct array as [|a0 [|a1 rest]]; try reflexivity.
    unfold sort, insertAll.
    change (length (a0 :: a1 :: rest) <? 2) with false. cbv iota.
    unfold CountAndMakeRun.
    set (n := runTail comparefn (lt a1 a0) a1 rest).
    change (firstn (2 + n) (a0 :: a1 :: rest)) with (a0 :: a1 :: firstn n rest).
    change (skipn (2 + n) (a0 :: a1 :: rest)) with (skipn n rest).
    assert (H0 : insert a0 [] = [a0]) by reflexivity.
    change (BIS [] (a0 :: a1 :: rest)) with (BIS (insert a1 (insert a0 [])) rest).
    rewrite H0. subst n.
    destruct (lt a1 a0) eqn:Hd.
    - change (rev (a0 :: a1 :: firstn (runTail comparefn true a1 rest) rest))
        with ((rev (firstn (runTail comparefn true a1 rest) rest) ++ [a1]) ++ [a0]).
      rewrite <- app_assoc. simpl app at 2.
      assert (E : insert a1 [a0] = [a1; a0])
        by (apply (descending_step [] a0 a1); auto).
      rewrite E. apply descending_run. rewrite <- E. auto.
    - assert (E : insert a1 [a0] = [a0; a1])
        by (apply (ascending_step [] a0 a1); simpl; auto).
      rewrite E.
      change (a0 :: a1 :: firstn (runTail comparefn false a1 rest) rest)
        with (([a0] ++ [a1]) ++ firstn (runTail comparefn false a1 rest) rest).
      change [a0; a1] with ([a0] ++ [a1]).
      apply ascending_run. simpl. rewrite <- E. auto.
  Qed.
End Insertion.
End ArraySortFacts.

(* ================================================================== *)
(** ** What sortFiles leaves in the two stacks *)
(* ================================================================== *)

Module SchedulerFacts.
Import ArraySort ArraySortFacts Scheduler SchedulerSpec.

Lemma isFileItem_negb (f : fileItem) : isFileItem f = negb (isDirItem f).
Proof. unfold isFileItem, isDirItem. now destruct (itemType f). Qed.

Lemma pop_snoc {A : Type} (front : list A) (last : A) :
  pop (front ++ [last]) = Some (last, front).
Proof. unfold pop. rewrite rev_unit. now rewrite rev_involutive. Qed.

Lemma drain_rev : forall fuel stack,
    length stack <= fuel -> drain fuel stack = rev stack.
Proof.
  induction fuel as [|fuel IH]; intros stack Hlen.
  - destruct stack; simpl in *; [reflexivity | lia].
  - destruct stack as [|x stack'] using rev_ind; [reflexivity|].
    simpl. rewrite pop_snoc, rev_unit. f_equal.
    apply IH. rewrite length_app in Hlen. simpl in Hlen. lia.
Qed.

Lemma removalOrder_rev (stack : list fileItem) : removalOrder stack = rev stack.
Proof. apply drain_rev. lia. Qed.

Lemma uploadOrder_rev (stack : list fileItem) : uploadOrder stack = rev stack.
Proof. apply drain_rev. lia. Qed.

(** *** The removal comparator looks at its first argument only *)

Lemma before_compareRemove (x y : fileItem) :
  before compareRemove x y = isDirItem x.
Proof.
  unfold before, compareRemove, isDirItem.
  destruct (isDirectory (itemType x)); [reflexivity|].
  now destruct (isDirectory (itemType y)).
Qed.

Lemma insert_compareRemove (x : fileItem) (w : list fileItem) :
  insertPivot compareRemove x w = if isDirItem x then x :: w else w ++ [x].
Proof.
  destruct (isDirItem x) eqn:Hx.
  - apply insertPivot_first. apply Forall_forall. intros y _.
    now rewrite before_compareRemove.
  - apply insertPivot_last. apply Forall_forall. intros y _.
    now rewrite before_compareRemove.
Qed.

Lemma insertAll_compareRemove : forall l w,
    BinaryInsertionSort compareRemove w l
    = rev (filter isDirItem l) ++ w ++ filter isFileItem l.
Proof.
  induction l as [|x l IH]; intros w; simpl.
  - now rewrite app_nil_r.
  - rewrite insert_compareRemove, IH, isFileItem_negb.
    destruct (isDirItem x); simpl.
    + now rewrite <- app_assoc.
    + now rewrite <- app_assoc.
Qed.

Lemma sortFilesToRemove_eq (l : list fileItem) :
  sortFilesToRemove l = rev (filter isDirItem l) ++ filter isFileItem l.
Proof.
  unfold sortFilesToRemove.
  rewrite (sort_insertAll compareRemove (fun _ => True)).
  - unfold insertAll. now rewrite insertAll_compareRemove.
  - auto.
  - auto.
  - intros acc prev x _ Hx. rewrite before_compareRemove in Hx.
    now rewrite insert_compareRemove, Hx.
  - intros acc prev x _ Hx. rewrite before_compareRemove in Hx.
    now rewrite insert_compareRemove, Hx.
Qed.

(** *** The first upload sort: binary files, other files, directories *)

Section Upload.
Variable isBinaryFileSync : string -> bool.

Local Abbreviation isBinaryItem := (SchedulerSpec.isBinaryItem isBinaryFileSync).
Local Abbreviation isTextItem := (SchedulerSpec.isTextItem isBinaryFileSync).
Local Abbreviation layered := (SchedulerSpec.layered isBinaryFileSync).
Local Abbreviation layers := (SchedulerSpec.layers isBinaryFileSync).

Local Abbreviation cmpU := (compareUpload isBinaryFileSync).

Lemma before_compareUpload (x y : fileItem) :
  before cmpU x y
  = negb (isDirItem x) && (isDirItem y || isBinaryFileSync (itemPath x)).
Proof.
  unfold before, compareUpload, isDirItem.
  destruct (isDirectory (itemType x)); [reflexivity|].
  destruct (isDirectory (itemType y)); [reflexivity|].
  destruct (isBinaryFileSync (itemPath x)); [reflexivity|].
  now destruct (isBinaryFileSync (itemPath y)).
Qed.

Lemma class_cases (x : fileItem) :
  (isDirItem x = true /\ isBinaryItem x = false /\ isTextItem x = false) \/
  (isDirItem x = false /\ isBinaryItem x = true /\ isTextItem x = false
   /\ isBinaryFileSync (itemPath x) = true) \/
  (isDirItem x = false /\ isBinaryItem x = false /\ isTextItem x = true
   /\ isBinaryFileSync (itemPath x) = false).
Proof.
  unfold SchedulerSpec.isBinaryItem, SchedulerSpec.isTextItem.
  rewrite isFileItem_negb.
  destruct (isDirItem x), (isBinaryFileSync (itemPath x)); simpl; tauto.
Qed.

Lemma binary_not_dir (x : fileItem) : isBinaryItem x = true -> isDirItem x = false.
Proof. destruct (class_cases x) as [H|[H|H]]; intuition congruence. Qed.

Lemma text_not_dir (x : fileItem) : isTextItem x = true -> isDirItem x = false.
Proof. destruct (class_cases x) as [H|[H|H]]; intuition congruence. Qed.

Lemma insert_compareUpload (x : fileItem) (w bs ts ds : list fileItem) :
  layered w bs ts ds ->
  insertPivot cmpU x w =
  if isDirItem x then bs ++ ts ++ ds ++ [x]
  else if isBinaryFileSync (itemPath x) then (x :: bs) ++ ts ++ ds
       else bs ++ (ts ++ [x]) ++ ds.
Proof.
  intros (-> & Hb & Ht & Hd).
  destruct (isDirItem x) eqn:Hx.
  - rewrite insertPivot_last.
    + now rewrite <- !app_assoc.
    + apply Forall_forall. intros y _. now rewrite before_compareUpload, Hx.
  - destruct (isBinaryFileSync (itemPath x)) eqn:Hbin.
    + apply insertPivot_first. apply Forall_forall. intros y _.
      rewrite before_compareUpload, Hx, Hbin. simpl. apply orb_true_r.
    + rewrite (app_assoc bs ts ds).
      rewrite insertPivot_boundary.
      * now rewrite <- !app_assoc.
      * apply Forall_app. split.
        -- eapply Forall_impl; [|exact Hb]. intros y Hy. simpl in Hy.
           rewrite before_compareUpload, Hx, Hbin, (binary_not_dir y Hy).
           reflexivity.
        -- eapply Forall_impl; [|exact Ht]. intros y Hy. simpl in Hy.
           rewrite before_compareUpload, Hx, Hbin, (text_not_dir y Hy).
           reflexivity.
      * eapply Forall_impl; [|exact Hd]. intros y Hy. simpl in Hy.
        rewrite before_compareUpload, Hx, Hbin, Hy. reflexivity.
Qed.

Lemma layers_insert (x : fileItem) (w : list fileItem) :
  layers w -> layers (insertPivot cmpU x w).
Proof.
  intros (bs & ts & ds & H).
  rewrite (insert_compareUpload x w bs ts ds H).
  destruct H as (_ & Hb & Ht & Hd).
  destruct (class_cases x) as [(Hx & _)|[(Hx & Hxb & _ & Hbin)|(Hx & _ & Hxt & Hbin)]];
    rewrite Hx; try rewrite Hbin.
  - exists bs, ts, (ds ++ [x]). repeat split; auto.
    apply Forall_app. split; auto.
  - exists (x :: bs), ts, ds. repeat split; auto.
  - exists bs, (ts ++ [x]), ds. repeat split; auto.
    apply Forall_app. split; auto.
Qed.

Lemma layers_single (a : fileItem) : layers [a].
Proof.
  destruct (class_cases a) as [(Hx & _)|[(Hx & Hxb & _)|(Hx & _ & Hxt & _)]].
  - exists [], [], [a]. repeat split; auto.
  - exists [a], [], []. repeat split; auto.
  - exists [], [a], []. repeat split; auto.
Qed.

Lemma last_of_layers (acc : list fileItem) (prev : fileItem) bs ts ds :
  layered (acc ++ [prev]) bs ts ds -> isDirItem prev = false -> ds = [].
Proof.
  intros (E & _ & _ & Hd) Hprev.
  destruct ds as [|d ds'] using rev_ind; [reflexivity|].
  rewrite !app_assoc in E. apply app_inj_tail in E. destruct E as [_ ->].
  apply Forall_app in Hd. destruct Hd as [_ Hd]. inversion Hd; congruence.
Qed.

Lemma head_of_layers (acc : list fileItem) (prev : fileItem) bs ts ds :
  layered (prev :: acc) bs ts ds -> isDirItem prev = true ->
  bs = [] /\ ts = [].
Proof.
  intros (E & Hb & Ht & _) Hprev.
  destruct bs as [|b bs'].
  - split; [reflexivity|]. destruct ts as [|t ts']; [reflexivity|].
    simpl in E. injection E as -> _. inversion Ht; subst.
    pose proof (text_not_dir t). intuition congruence.
  - simpl in E. injection E as -> _. inversion Hb; subst.
    pose proof (binary_not_dir b). intuition congruence.
Qed.

Lemma sort_compareUpload_insertAll (l : list fileItem) :
  sort cmpU l = insertAll cmpU l.
Proof.
  apply (sort_insertAll cmpU layers).
  - apply layers_single.
  - apply layers_insert.
  - intros acc prev x (bs & ts & ds & H) Hx.
    rewrite (insert_compareUpload x _ bs ts ds H).
    rewrite before_compareUpload in Hx.
    destruct (isDirItem x) eqn:Hdx.
    + destruct H as (-> & _). now rewrite <- !app_assoc.
    + simpl in Hx. destruct (isBinaryFileSync (itemPath x)).
      * now rewrite orb_true_r in Hx.
      * rewrite orb_false_r in Hx.
        pose proof (last_of_layers acc prev bs ts ds H Hx) as ->.
        destruct H as (-> & _). now rewrite !app_nil_r, <- app_assoc.
  - intros acc prev x (bs & ts & ds & H) Hx.
    rewrite (insert_compareUpload x _ bs ts ds H).
    rewrite before_compareUpload in Hx.
    destruct (isDirItem x) eqn:Hdx; [discriminate|]. simpl in Hx.
    destruct (isBinaryFileSync (itemPath x)).
    + destruct H as (-> & _). reflexivity.
    + rewrite orb_false_r in Hx.
      destruct (head_of_layers acc prev bs ts ds H Hx) as [-> ->].
      destruct H as (-> & _). reflexivity.
Qed.

Lemma insertAll_compareUpload : forall l w bs ts ds,
    layered w bs ts ds ->
    BinaryInsertionSort cmpU w l
    = (rev (filter isBinaryItem l) ++ bs) ++ (ts ++ filter isTextItem l)
      ++ (ds ++ filter isDirItem l).
Proof.
  induction l as [|x l IH]; intros w bs ts ds H; simpl.
  - destruct H as (-> & _). now rewrite !app_nil_r.
  - pose proof (insert_compareUpload x w bs ts ds H) as E.
    destruct H as (-> & Hb & Ht & Hd).
    destruct (class_cases x)
      as [(Hx & Hxb & Hxt)|[(Hx & Hxb & Hxt & Hbin)|(Hx & Hxb & Hxt & Hbin)]];
      rewrite Hx in *; rewrite Hxb, Hxt; try rewrite Hbin in E.
    + rewrite (IH _ bs ts (ds ++ [x])).
      * now rewrite <- !app_assoc.
      * repeat split; auto. apply Forall_app. split; auto.
    + rewrite (IH _ (x :: bs) ts ds).
      * simpl. now rewrite <- !app_assoc.
      * repeat split; auto.
    + rewrite (IH _ bs (ts ++ [x]) ds).
      * now rewrite <- !app_assoc.
      * repeat split; auto. apply Forall_app. split; auto.
Qed.

Lemma sort_compareUpload_eq (l : list fileItem) :
  sort cmpU l
  = rev (filter isBinaryItem l) ++ filter isTextItem l ++ filter isDirItem l.
Proof.
  rewrite sort_compareUpload_insertAll. unfold insertAll.
  rewrite (insertAll_compareUpload l [] [] [] []).
  - now rewrite app_nil_r.
  - repeat split; auto.
Qed.

(** *** The second upload sort: directories by decreasing path length *)

Lemma before_compareDirectories (x y : fileItem) :
  before compareDirectories x y
  = isDirItem y && (negb (isDirItem x) || (pathLength y <? pathLength x)).
Proof.
  unfold before, compareDirectories, isDirItem, pathLength.
  destruct (isDirectory (itemType x)), (isDirectory (itemType y)); simpl;
    try reflexivity.
  destruct (Nat.leb_spec (String.length (itemPath x)) (String.length (itemPath y)))
    as [H|H]; symmetry.
  - apply Nat.ltb_ge in H. now rewrite H.
  - apply Nat.ltb_lt in H. now rewrite H.
Qed.

Lemma insertDirectory_split (x : fileItem) : forall ds,
    StronglySorted longerFirst ds ->
    exists keep move,
      ds = keep ++ move /\ insertDirectory x ds = keep ++ x :: move /\
      Forall (fun d => (pathLength d <? pathLength x) = false) keep /\
      Forall (fun d => (pathLength d <? pathLength x) = true) move.
Proof.
  induction ds as [|d ds IH]; intros Hs; simpl.
  - exists [], []. repeat split; auto.
  - apply StronglySorted_inv in Hs. destruct Hs as [Hs Hd].
    destruct (pathLength d <? pathLength x) eqn:Hlt.
    + exists [], (d :: ds). repeat split; auto.
      constructor; [exact Hlt|].
      eapply Forall_impl; [|exact Hd]. intros e He. unfold longerFirst in He.
      apply Nat.ltb_lt in Hlt. apply Nat.ltb_lt. lia.
    + destruct (IH Hs) as (keep & move & -> & E & Hk & Hm).
      exists (d :: keep), move. rewrite E. repeat split; auto.
Qed.

Lemma insertDirectory_sorted (x : fileItem) (ds : list fileItem) :
  StronglySorted longerFirst ds -> StronglySorted longerFirst (insertDirectory x ds).
Proof.
  induction ds as [|d ds IH]; intros Hs; simpl.
  - repeat constructor.
  - pose proof Hs as Hs0.
    apply StronglySorted_inv in Hs. destruct Hs as [Hs Hd].
    destruct (pathLength d <? pathLength x) eqn:Hlt.
    + constructor; [exact Hs0|].
      apply Nat.ltb_lt in Hlt.
      constructor; [unfold longerFirst; lia|].
      eapply Forall_impl; [|exact Hd]. unfold longerFirst. intros; lia.
    + constructor; [auto|].
      apply Nat.ltb_ge in Hlt.
      destruct (insertDirectory_split x ds Hs) as (keep & move & -> & E & _).
      rewrite E. apply Forall_app in Hd. destruct Hd as [Hk Hm].
      apply Forall_app. split; [exact Hk|].
      constructor; [unfold longerFirst; lia | exact Hm].
Qed.

Lemma insertDirectory_perm (x : fileItem) (ds : list fileItem) :
  Permutation (x :: ds) (insertDirectory x ds).
Proof.
  induction ds as [|d ds IH]; simpl; [reflexivity|].
  destruct (pathLength d <? pathLength x); [reflexivity|].
  rewrite perm_swap. now constructor.
Qed.

Lemma insertDirectory_last (x : fileItem) : forall ds,
    Forall (fun d => pathLength x <= pathLength d) ds ->
    insertDirectory x ds = ds ++ [x].
Proof.
  induction ds as [|d ds IH]; intros H; simpl; [reflexivity|].
  inversion H as [|? ? Hd Hds]; subst.
  apply Nat.ltb_ge in Hd. rewrite Hd. now rewrite IH.
Qed.

Lemma sorted_snoc_bound (ds : list fileItem) (prev : fileItem) :
  StronglySorted longerFirst (ds ++ [prev]) ->
  Forall (fun d => pathLength prev <= pathLength d) (ds ++ [prev]).
Proof.
  induction ds as [|d ds IH]; intros Hs; simpl in *.
  - repeat constructor.
  - apply StronglySorted_inv in Hs. destruct Hs as [Hs Hd].
    constructor; [|auto].
    apply Forall_app in Hd. destruct Hd as [_ Hd]. now inversion Hd.
Qed.

Lemma insert_compareDirectories (x : fileItem) (w fs ds : list fileItem) :
  twoLayered w fs ds ->
  insertPivot compareDirectories x w =
  if isDirItem x then fs ++ insertDirectory x ds else (fs ++ [x]) ++ ds.
Proof.
  intros (-> & Hf & Hd & Hs).
  destruct (isDirItem x) eqn:Hx.
  - destruct (insertDirectory_split x ds Hs) as (keep & move & -> & E & Hk & Hm).
    rewrite E, app_assoc, insertPivot_boundary.
    + now rewrite <- app_assoc.
    + apply Forall_app. split.
      * eapply Forall_impl; [|exact Hf]. intros y Hy. simpl in Hy.
        now rewrite before_compareDirectories, Hy.
      * eapply Forall_impl; [|exact Hk]. intros y Hy. simpl in Hy.
        rewrite before_compareDirectories, Hx, Hy. simpl. apply andb_false_r.
    + apply Forall_app in Hd. destruct Hd as [_ Hd].
      rewrite Forall_forall in *. intros y Hy.
      now rewrite before_compareDirectories, Hx, (Hd y Hy), (Hm y Hy).
  - rewrite insertPivot_boundary.
    + now rewrite <- app_assoc.
    + eapply Forall_impl; [|exact Hf]. intros y Hy. simpl in Hy.
      now rewrite before_compareDirectories, Hy.
    + eapply Forall_impl; [|exact Hd]. intros y Hy. simpl in Hy.
      now rewrite before_compareDirectories, Hx, Hy.
Qed.

Lemma twoLayered_insert (x : fileItem) (w fs ds : list fileItem) :
  twoLayered w fs ds ->
  if isDirItem x
  then twoLayered (insertPivot compareDirectories x w) fs (insertDirectory x ds)
  else twoLayered (insertPivot compareDirectories x w) (fs ++ [x]) ds.
Proof.
  intros H. rewrite (insert_compareDirectories x w fs ds H).
  destruct H as (_ & Hf & Hd & Hs).
  destruct (isDirItem x) eqn:Hx.
  - repeat split; auto.
    + eapply Permutation_Forall; [apply insertDirectory_perm|]. auto.
    + now apply insertDirectory_sorted.
  - repeat split; auto. apply Forall_app. split; auto.
Qed.

Lemma twoLayers_insert (x : fileItem) (w : list fileItem) :
  twoLayers w -> twoLayers (insertPivot compareDirectories x w).
Proof.
  intros (fs & ds & H). pose proof (twoLayered_insert x w fs ds H) as H'.
  destruct (isDirItem x); eexists; eexists; exact H'.
Qed.

Lemma twoLayers_single (a : fileItem) : twoLayers [a].
Proof.
  destruct (isDirItem a) eqn:Ha.
  - exists [], [a]. repeat split; auto. repeat constructor.
  - exists [a], []. repeat split; auto. constructor.
Qed.

Lemma sort_compareDirectories_insertAll (l : list fileItem) :
  sort compareDirectories l = insertAll compareDirectories l.
Proof.
  apply (sort_insertAll compareDirectories twoLayers).
  - apply twoLayers_single.
  - apply twoLayers_insert.
  - intros acc prev x (fs & ds & H) Hx.
    rewrite (insert_compareDirectories x _ fs ds H).
    rewrite before_compareDirectories in Hx.
    destruct H as (E & Hf & Hd & Hs).
    destruct ds as [|d ds' _] using rev_ind.
    + rewrite app_nil_r in E. rewrite E.
      destruct (isDirItem x); simpl; now rewrite ?app_nil_r.
    + rewrite app_assoc in E. apply app_inj_tail in E. destruct E as [-> ->].
      pose proof Hd as Hd'. apply Forall_app in Hd'. destruct Hd' as [_ Hp].
      inversion Hp as [|? ? Hprev _]; subst. rewrite Hprev in Hx. simpl in Hx.
      destruct (isDirItem x); [|discriminate]. simpl in Hx.
      rewrite insertDirectory_last.
      * now rewrite <- !app_assoc.
      * apply Nat.ltb_ge in Hx.
        eapply Forall_impl; [|apply (sorted_snoc_bound _ _ Hs)].
        simpl. intros; lia.
  - intros acc prev x (fs & ds & H) Hx.
    rewrite (insert_compareDirectories x _ fs ds H).
    rewrite before_compareDirectories in Hx.
    apply andb_prop in Hx. destruct Hx as [Hprev Hx].
    destruct H as (E & Hf & Hd & Hs).
    destruct fs as [|f fs'].
    + simpl in E. subst ds. simpl.
      destruct (isDirItem x); [|reflexivity].
      simpl in Hx. now rewrite Hx.
    + simpl in E. injection E as -> _. inversion Hf; congruence.
Qed.

Lemma insertAll_compareDirectories : forall l w fs ds,
    twoLayered w fs ds ->
    BinaryInsertionSort compareDirectories w l
    = (fs ++ filter (fun f => negb (isDirItem f)) l)
      ++ fold_left (fun sorted x => insertDirectory x sorted)
                   (filter isDirItem l) ds.
Proof.
  induction l as [|x l IH]; intros w fs ds H; simpl.
  - destruct H as (-> & _). now rewrite app_nil_r.
  - pose proof (twoLayered_insert x w fs ds H) as H'.
    destruct (isDirItem x); simpl.
    + now rewrite (IH _ _ _ H').
    + rewrite (IH _ _ _ H'). now rewrite <- !app_assoc.
Qed.

Lemma sort_compareDirectories_eq (l : list fileItem) :
  sort compareDirectories l
  = filter (fun f => negb (isDirItem f)) l ++ orderDirectories (filter isDirItem l).
Proof.
  rewrite sort_compareDirectories_insertAll. unfold insertAll.
  rewrite (insertAll_compareDirectories l [] [] []); [reflexivity|].
  repeat split; auto. constructor.
Qed.

(** *** Both upload sorts together *)

Lemma filter_all {A : Type} (p : A -> bool) (l : list A) :
  Forall (fun x => p x = true) l -> filter p l = l.
Proof.
  induction 1 as [|x l Hx _ IH]; simpl; [reflexivity|]. now rewrite Hx, IH.
Qed.

Lemma filter_none {A : Type} (p : A -> bool) (l : list A) :
  Forall (fun x => p x = false) l -> filter p l = [].
Proof.
  induction 1 as [|x l Hx _ IH]; simpl; [reflexivity|]. now rewrite Hx.
Qed.

Lemma Forall_filter_true {A : Type} (p : A -> bool) (l : list A) :
  Forall (fun x => p x = true) (filter p l).
Proof. apply Forall_forall. intros x Hx. now apply filter_In in Hx. Qed.

Lemma filter_partition_perm {A : Type} (p : A -> bool) (l : list A) :
  Permutation l (filter p l ++ filter (fun x => negb (p x)) l).
Proof.
  induction l as [|x l IH]; simpl; [reflexivity|].
  destruct (p x); simpl.
  - now constructor.
  - now apply Permutation_cons_app.
Qed.

Lemma sortFilesToUpload_eq (l : list fileItem) :
  sortFilesToUpload isBinaryFileSync l
  = (rev (filter isBinaryItem l) ++ filter isTextItem l)
    ++ orderDirectories (filter isDirItem l).
Proof.
  unfold sortFilesToUpload.
  rewrite sort_compareUpload_eq, sort_compareDirectories_eq.
  rewrite !filter_app.
  assert (Hb : Forall (fun f => isDirItem f = false) (rev (filter isBinaryItem l))).
  { apply Forall_rev. eapply Forall_impl; [|apply Forall_filter_true].
    apply binary_not_dir. }
  assert (Ht : Forall (fun f => isDirItem f = false) (filter isTextItem l)).
  { eapply Forall_impl; [|apply Forall_filter_true]. apply text_not_dir. }
  rewrite (filter_none isDirItem _ Hb), (filter_none isDirItem _ Ht).
  rewrite (filter_all isDirItem (filter isDirItem l)) by apply Forall_filter_true.
  rewrite (filter_all (fun f => negb (isDirItem f)) (rev (filter isBinaryItem l))).
  2:{ eapply Forall_impl; [|exact Hb]. simpl. intros f ->. reflexivity. }
  rewrite (filter_all (fun f => negb (isDirItem f)) (filter isTextItem l)).
  2:{ eapply Forall_impl; [|exact Ht]. simpl. intros f ->. reflexivity. }
  rewrite (filter_none (fun f => negb (isDirItem f)) (filter isDirItem l)).
  2:{ eapply Forall_impl; [|apply Forall_filter_true]. simpl. intros f ->.
      reflexivity. }
  simpl. now rewrite app_nil_r, <- app_assoc.
Qed.

Lemma uploadOrder_eq (l : list fileItem) :
  uploadOrder (sortFilesToUpload isBinaryFileSync l)
  = rev (orderDirectories (filter isDirItem l))
    ++ rev (filter isTextItem l) ++ filter isBinaryItem l.
Proof.
  rewrite uploadOrder_rev, sortFilesToUpload_eq.
  now rewrite !rev_app_distr, rev_involutive.
Qed.

Lemma orderDirectories_from : forall ds sorted,
    StronglySorted longerFirst sorted ->
    let result := fold_left (fun s x => insertDirectory x s) ds sorted in
    StronglySorted longerFirst result /\ Permutation (ds ++ sorted) result.
Proof.
  induction ds as [|d ds IH]; intros sorted Hs; simpl.
  - split; [exact Hs | reflexivity].
  - destruct (IH (insertDirectory d sorted) (insertDirectory_sorted d sorted Hs))
      as [H1 H2].
    split; [exact H1|].
    rewrite <- H2. rewrite <- (insertDirectory_perm d sorted).
    apply Permutation_middle.
Qed.

Lemma StronglySorted_rev {A : Type} (R : A -> A -> Prop) (l : list A) :
  StronglySorted R l -> StronglySorted (fun a b => R b a) (rev l).
Proof.
  induction 1 as [|a l Hs IH Ha]; simpl; [constructor|].
  clear Hs. apply Forall_rev in Ha. revert IH Ha.
  generalize (rev l) as m. induction m as [|b m IHm]; intros Hs Ha; simpl.
  - repeat constructor.
  - apply StronglySorted_inv in Hs. destruct Hs as [Hs Hb].
    inversion Ha; subst. constructor; [auto|].
    apply Forall_app. split; auto.
Qed.

Lemma uploadOrder_perm (l : list fileItem) :
  Permutation l (uploadOrder (sortFilesToUpload isBinaryFileSync l)).
Proof.
  rewrite uploadOrder_eq.
  destruct (orderDirectories_from (filter isDirItem l) [] (SSorted_nil _))
    as [_ Hp].
  rewrite app_nil_r in Hp. fold (orderDirectories (filter isDirItem l)) in Hp.
  rewrite <- Permutation_rev, <- Hp, <- Permutation_rev.
  rewrite (filter_partition_perm isDirItem l) at 1.
  apply Permutation_app_head.
  rewrite (filter_partition_perm isTextItem
             (filter (fun x => negb (isDirItem x)) l)).
  assert (E : forall p q : fileItem -> bool,
             (forall x, p x = q x) -> filter p l = filter q l)
    by (intros; now apply filter_ext).
  assert (F : forall (p q : fileItem -> bool) (m : list fileItem),
             filter p (filter q m) = filter (fun x => q x && p x) m).
  { intros p q m. induction m as [|x m IHm]; simpl; [reflexivity|].
    destruct (q x); simpl; [destruct (p x)|]; now rewrite IHm. }
  rewrite !F.
  rewrite (E (fun x => negb (isDirItem x) && isTextItem x) isTextItem).
  2:{ intros x.
      destruct (class_cases x)
        as [(-> & _ & ->)|[(-> & _ & -> & _)|(-> & _ & -> & _)]]; reflexivity. }
  rewrite (E (fun x => negb (isDirItem x) && negb (isTextItem x)) isBinaryItem).
  2:{ intros x.
      destruct (class_cases x)
        as [(-> & -> & ->)|[(-> & -> & -> & _)|(-> & -> & -> & _)]];
        reflexivity. }
  reflexivity.
Qed.

End Upload.
End SchedulerFacts.

(* ================================================================== *)
(** ** Membership in the two detected sets *)
(* ================================================================== *)

Module DiffFacts.
Import Diff.

Lemma existsb_through {A B : Type} (key : A -> B) (test : B -> bool) :
  forall l1 l2 : list A,
    map key l1 = map key l2 ->
    existsb (fun x => test (key x)) l1 = existsb (fun x => test (key x)) l2.
Proof.
  assert (M : forall l, existsb (fun x => test (key x)) l = existsb test (map key l)).
  { induction l as [|x l IH]; simpl; [reflexivity|]. now rewrite IH. }
  intros l1 l2 E. now rewrite !M, E.
Qed.

Lemma md5_eqb_eq (a b : option string) : md5_eqb a b = true <-> a = b.
Proof.
  destruct a as [x|], b as [y|]; simpl; split; try congruence; intros H.
  - apply String.eqb_eq in H. now subst.
  - injection H as ->. apply String.eqb_refl.
Qed.

Lemma fileFounded_true (localFiles : list entry) (remoteFile : entry) :
  fileFounded localFiles remoteFile = true <->
  exists localFile, In localFile localFiles /\ path localFile = path remoteFile.
Proof.
  unfold fileFounded. rewrite existsb_exists.
  split; intros (l & Hl & H); exists l; split; auto; now apply String.eqb_eq.
Qed.

Lemma fileShouldBeUploaded_true (remoteFiles : list entry) (localFile : entry) :
  fileShouldBeUploaded remoteFiles localFile = true <->
  forall remoteFile, In remoteFile remoteFiles ->
                     path remoteFile = path localFile ->
                     md5 remoteFile <> md5 localFile.
Proof.
  unfold fileShouldBeUploaded. rewrite negb_true_iff.
  rewrite <- not_true_iff_false, existsb_exists. split.
  - intros H r Hr Hp Hm. apply H. exists r. split; [exact Hr|].
    apply andb_true_intro. split.
    + apply String.eqb_eq. now symmetry.
    + apply md5_eqb_eq. now symmetry.
  - intros H (r & Hr & Hc). apply andb_prop in Hc. destruct Hc as [Hp Hm].
    apply String.eqb_eq in Hp. apply md5_eqb_eq in Hm.
    apply (H r Hr); now symmetry.
Qed.

Lemma In_detectFilesToUpload (protocol : string) (remoteFiles : list entry)
      (p : string) (k : kind) : forall localFiles,
    In (Item p k) (detectFilesToUpload protocol remoteFiles localFiles) <->
    exists localFile,
      In localFile localFiles /\ path localFile = p /\ type localFile = k /\
      fileShouldBeUploaded remoteFiles localFile = true /\
      skipsDirectories protocol && isDirectory k = false.
Proof.
  induction localFiles as [|l rest IH]; simpl.
  - split; [tauto | intros (x & [] & _)].
  - destruct (fileShouldBeUploaded remoteFiles l) eqn:Hup;
      [destruct (skipsDirectories protocol && isDirectory (type l)) eqn:Hsk|];
      simpl; rewrite ?IH; split.
    + intros (x & Hx & H). exists x. tauto.
    + intros (x & [<-|Hx] & Hp & Hk & Hu & Hs).
      * subst k. congruence.
      * exists x. tauto.
    + intros [E|(x & Hx & H)].
      * injection E as <- <-. exists l. tauto.
      * exists x. tauto.
    + intros (x & [<-|Hx] & Hp & Hk & Hu & Hs).
      * left. now subst.
      * right. exists x. tauto.
    + intros (x & Hx & H). exists x. tauto.
    + intros (x & [<-|Hx] & Hp & Hk & Hu & Hs).
      * congruence.
      * exists x. tauto.
Qed.

Lemma In_detectFilesToRemove (protocol : string) (localFiles : list entry)
      (p : string) (k : kind) : forall remoteFiles,
    In (Item p k) (detectFilesToRemove protocol localFiles remoteFiles) <->
    exists remoteFile,
      In remoteFile remoteFiles /\ path remoteFile = p /\ type remoteFile = k /\
      fileFounded localFiles remoteFile = false /\
      skipsDirectories protocol && isDirectory k = false.
Proof.
  induction remoteFiles as [|r rest IH]; simpl.
  - split; [tauto | intros (x & [] & _)].
  - destruct (fileFounded localFiles r) eqn:Hf;
      [|destruct (skipsDirectories protocol && isDirectory (type r)) eqn:Hsk];
      simpl; rewrite ?IH; split.
    + intros (x & Hx & H). exists x. tauto.
    + intros (x & [<-|Hx] & Hp & Hk & Hu & Hs).
      * congruence.
      * exists x. tauto.
    + intros (x & Hx & H). exists x. tauto.
    + intros (x & [<-|Hx] & Hp & Hk & Hu & Hs).
      * subst k. congruence.
      * exists x. tauto.
    + intros [E|(x & Hx & H)].
      * injection E as <- <-. exists r. tauto.
      * exists x. tauto.
    + intros (x & [<-|Hx] & Hp & Hk & Hu & Hs).
      * left. now subst.
      * right. exists x. tauto.
Qed.

(** With no directory tracked, both sets hold files only. *)
Lemma detectFilesToUpload_files (protocol : string) (remoteFiles : list entry) :
  skipsDirectories protocol = true ->
  forall localFiles,
    countFiles (detectFilesToUpload protocol remoteFiles localFiles)
    = length (detectFilesToUpload protocol remoteFiles localFiles).
Proof.
  intros Hs. unfold countFiles. induction localFiles as [|l rest IH]; simpl.
  - reflexivity.
  - destruct (fileShouldBeUploaded remoteFiles l); [|exact IH].
    rewrite Hs. destruct (type l) eqn:Hk; simpl; [|exact IH].
    now rewrite IH.
Qed.

Lemma detectFilesToRemove_files (protocol : string) (localFiles : list entry) :
  skipsDirectories protocol = true ->
  forall remoteFiles,
    countFiles (detectFilesToRemove protocol localFiles remoteFiles)
    = length (detectFilesToRemove protocol localFiles remoteFiles).
Proof.
  intros Hs. unfold countFiles. induction remoteFiles as [|r rest IH]; simpl.
  - reflexivity.
  - destruct (fileFounded localFiles r); [exact IH|].
    rewrite Hs. destruct (type r) eqn:Hk; simpl; [|exact IH].
    now rewrite IH.
Qed.

(** The kinds and digests of the local entries do not reach the removal
    set; the kinds of the remote entries do not reach the upload set. *)
Lemma detectFilesToRemove_paths (protocol : string) (localA localB : list entry) :
  map path localA = map path localB ->
  forall remoteFiles,
    detectFilesToRemove protocol localA remoteFiles
    = detectFilesToRemove protocol localB remoteFiles.
Proof.
  intros E remoteFiles.
  assert (F : forall r, fileFounded localA r = fileFounded localB r).
  { intros r. unfold fileFounded.
    exact (existsb_through path (fun p => String.eqb p (path r)) _ _ E). }
  induction remoteFiles as [|r rest IH]; simpl; [reflexivity|].
  now rewrite F, IH.
Qed.

Lemma detectFilesToUpload_paths_md5 (protocol : string)
      (remoteA remoteB : list entry) :
  map (fun r => (path r, md5 r)) remoteA = map (fun r => (path r, md5 r)) remoteB ->
  forall localFiles,
    detectFilesToUpload protocol remoteA localFiles
    = detectFilesToUpload protocol remoteB localFiles.
Proof.
  intros E localFiles.
  assert (F : forall l, fileShouldBeUploaded remoteA l = fileShouldBeUploaded remoteB l).
  { intros l. unfold fileShouldBeUploaded. f_equal.
    exact (existsb_through
             (fun r => (path r, md5 r))
             (fun pm => String.eqb (path l) (fst pm) && md5_eqb (md5 l) (snd pm))
             _ _ E). }
  induction localFiles as [|l rest IH]; simpl; [reflexivity|].
  now rewrite F, IH.
Qed.

End DiffFacts.

(* ================================================================== *)
(** ** What the walk of the input directory lists *)
(* ================================================================== *)

Module InventoryFacts.
Import Inventory InventorySpec.

Lemma readEntry_dir (relativeDir file : string) (children : list node) :
  forall filelist,
    readEntry relativeDir (DirNode file children) filelist
    = if String.eqb file ".git" then filelist
      else forEachEntry (enter relativeDir file) children
                        (filelist ++ [(joinListed relativeDir file, isDir)]).
Proof.
  intros filelist. simpl. destruct (String.eqb file ".git"); [reflexivity|].
  generalize (filelist ++ [(joinListed relativeDir file, isDir)]).
  induction children as [|c cs IH]; intros l; simpl; [reflexivity|].
  apply IH.
Qed.

(** The walk only appends to the list it is given. *)
Lemma forEachEntry_appends (files : list node) :
  Forall (fun n => forall rel fl, readEntry rel n fl = fl ++ readEntry rel n []) files ->
  forall rel fl, forEachEntry rel files fl = fl ++ forEachEntry rel files [].
Proof.
  induction 1 as [|n files Hn _ IH]; intros rel fl; simpl.
  - now rewrite app_nil_r.
  - rewrite IH, (IH rel (readEntry rel n [])), (Hn rel fl).
    now rewrite app_assoc.
Qed.

Lemma readEntry_appends (n : node) :
  forall rel fl, readEntry rel n fl = fl ++ readEntry rel n [].
Proof.
  induction n as [name content|name children IH] using node_induction;
    intros rel fl.
  - simpl. destruct (String.eqb name ".git"); [now rewrite app_nil_r|].
    destruct (notHidden name || String.eqb name ".htaccess"
              || String.eqb name "_redirects"); [reflexivity|].
    now rewrite app_nil_r.
  - rewrite !readEntry_dir. destruct (String.eqb name ".git").
    + now rewrite app_nil_r.
    + rewrite (forEachEntry_appends children IH).
      rewrite (forEachEntry_appends children IH _ ([] ++ _)).
      now rewrite <- app_assoc.
Qed.

Lemma forEachEntry_In (rel : string) (n : node) (x : string * stat) :
  forall files fl,
    In n files -> In x (readEntry rel n []) -> In x (forEachEntry rel files fl).
Proof.
  assert (A : forall files fl, forEachEntry rel files fl = fl ++ forEachEntry rel files []).
  { intros files fl. apply forEachEntry_appends.
    apply Forall_forall. intros m _. apply readEntry_appends. }
  induction files as [|m files IH]; intros fl Hn Hx; [contradiction|].
  simpl. destruct Hn as [->|Hn].
  - rewrite A, readEntry_appends. apply in_or_app. left. apply in_or_app. now right.
  - now apply IH.
Qed.

Lemma inside_listed (rel : string) (files : list node) (ancestors : list string)
      (name listed content : string) :
  inside rel files ancestors name listed content ->
  ~ In ".git" ancestors ->
  String.eqb name ".git" = false ->
  notHidden name || String.eqb name ".htaccess" || String.eqb name "_redirects"
  = true ->
  forall fl, In (listed, isRegular content) (forEachEntry rel files fl).
Proof.
  intros H Hgit Hname Hvis.
  induction H as [rel files name content Hin
                 |rel files dir children ancestors name listed content Hin _ IH];
    intros fl.
  - apply (forEachEntry_In rel (FileNode name content)); [exact Hin|].
    simpl. rewrite Hname, Hvis. simpl. auto.
  - apply (forEachEntry_In rel (DirNode dir children)); [exact Hin|].
    rewrite readEntry_dir.
    destruct (String.eqb dir ".git") eqn:Hd.
    + apply String.eqb_eq in Hd. subst dir. exfalso. apply Hgit. now left.
    + apply IH; auto. intros Hc. apply Hgit. now right.
Qed.

Lemma inside_slash (rel : string) (files : list node) (ancestors : list string)
      (name listed content : string) :
  inside rel files ancestors name listed content ->
  startsWithSlash rel \/ (rel = EmptyString /\ ancestors <> []) ->
  startsWithSlash listed.
Proof.
  induction 1 as [rel files name content Hin
                 |rel files dir children ancestors name listed content Hin _ IH];
    intros [[r ->]|[-> Hne]].
  - eexists. reflexivity.
  - congruence.
  - apply IH. left. eexists. reflexivity.
  - apply IH. left. eexists. reflexivity.
Qed.

Section Builder.
Variable md5 : string -> string.
Variable isBinaryFile : string -> bool.

Lemma buildFileList_regular (protocol : string) (listed content : string) :
  startsWithSlash listed ->
  forall tempFileList fileList,
    In (listed, isRegular content) tempFileList ->
    buildFileList md5 isBinaryFile protocol tempFileList = Some fileList ->
    In (Entry listed File (Some (fileMD5 md5 isBinaryFile content))) fileList.
Proof.
  intros [rest ->].
  induction tempFileList as [|[p st] tl IH]; intros fileList Hin Hb;
    [contradiction|].
  simpl in Hb. destruct Hin as [E|Hin].
  - injection E as -> ->. simpl in Hb.
    destruct (buildFileList md5 isBinaryFile protocol tl); [|discriminate].
    simpl in Hb. injection Hb as <-. now left.
  - assert (Hpush : forall e l0,
               option_map (cons e) (buildFileList md5 isBinaryFile protocol tl)
               = Some l0 ->
               In (Entry (String "/" rest) File
                         (Some (fileMD5 md5 isBinaryFile content))) l0).
    { intros e l0 H0.
      destruct (buildFileList md5 isBinaryFile protocol tl) as [l1|];
        [|discriminate].
      injection H0 as <-. right. now apply IH. }
    destruct (String.eqb p ".git"); [now apply IH|].
    destruct (String.eqb p ".htaccess" || String.eqb p "_redirects").
    + destruct (notExcluded protocol); [|now apply IH].
      destruct st; [discriminate | now apply (Hpush _ _ Hb)].
    + destruct st.
      * destruct (listsDirectories protocol);
          [now apply (Hpush _ _ Hb) | now apply IH].
      * now apply (Hpush _ _ Hb).
Qed.

(** With an excluded transport no file entry bears a special root name. *)
Lemma buildFileList_excluded (protocol : string) :
  notExcluded protocol = false ->
  forall tempFileList fileList e,
    buildFileList md5 isBinaryFile protocol tempFileList = Some fileList ->
    In e fileList -> type e = File ->
    path e <> ".htaccess" /\ path e <> "_redirects".
Proof.
  intros Hex.
  induction tempFileList as [|[p st] tl IH]; intros fileList e Hb Hin Hk.
  - injection Hb as <-. contradiction.
  - simpl in Hb. rewrite Hex in Hb.
    assert (Hpush : forall x l0,
               option_map (cons x) (buildFileList md5 isBinaryFile protocol tl)
               = Some l0 ->
               In e l0 -> e = x \/
               (path e <> ".htaccess" /\ path e <> "_redirects")).
    { intros x l0 H0 He.
      destruct (buildFileList md5 isBinaryFile protocol tl) as [l1|];
        [|discriminate].
      injection H0 as <-. destruct He as [<-|He]; [now left|].
      right. now apply (IH l1). }
    destruct (String.eqb p ".git"); [now apply (IH fileList)|].
    destruct (String.eqb p ".htaccess" || String.eqb p "_redirects") eqn:Hsp;
      [now apply (IH fileList)|].
    apply orb_false_elim in Hsp. destruct Hsp as [H1 H2].
    apply String.eqb_neq in H1, H2.
    destruct st.
    + destruct (listsDirectories protocol); [|now apply (IH fileList)].
      destruct (Hpush _ _ Hb Hin) as [->|H]; [discriminate | exact H].
    + destruct (Hpush _ _ Hb Hin) as [->|H]; [now split | exact H].
Qed.

(** A directory entry is only built for a transport that lists them. *)
Lemma buildFileList_directories (protocol : string) :
  forall tempFileList fileList e,
    buildFileList md5 isBinaryFile protocol tempFileList = Some fileList ->
    In e fileList -> type e = Directory ->
    Diff.skipsDirectories protocol = false.
Proof.
  assert (Hl : listsDirectories protocol = negb (Diff.skipsDirectories protocol)).
  { unfold listsDirectories, Diff.skipsDirectories.
    now destruct (String.eqb protocol "google-cloud"),
      (String.eqb protocol "gitlab-pages"). }
  induction tempFileList as [|[p st] tl IH]; intros fileList e Hb Hin Hk.
  - injection Hb as <-. contradiction.
  - simpl in Hb.
    assert (Hpush : forall x l0,
               option_map (cons x) (buildFileList md5 isBinaryFile protocol tl)
               = Some l0 ->
               In e l0 -> e = x \/ Diff.skipsDirectories protocol = false).
    { intros x l0 H0 He.
      destruct (buildFileList md5 isBinaryFile protocol tl) as [l1|];
        [|discriminate].
      injection H0 as <-. destruct He as [<-|He]; [now left|].
      right. now apply (IH l1 e). }
    destruct (String.eqb p ".git"); [now apply (IH fileList e)|].
    destruct (String.eqb p ".htaccess" || String.eqb p "_redirects").
    + destruct (notExcluded protocol); [|now apply (IH fileList e)].
      destruct st; [discriminate|].
      destruct (Hpush _ _ Hb Hin) as [->|H]; [discriminate | exact H].
    + destruct st.
      * destruct (listsDirectories protocol) eqn:Hd;
          [|now apply (IH fileList e)].
        symmetry in Hl. now apply negb_true_iff in Hl.
      * destruct (Hpush _ _ Hb Hin) as [->|H]; [discriminate | exact H].
Qed.

End Builder.
End InventoryFacts.

(* ================================================================== *)
(** ** Properties of the diff *)
(* ================================================================== *)

(** C1: Diff correctness.  On the local list [a.txt (h1), img/] and the
    remote list [a.txt (h0), old.txt (h2)], for a transport that tracks
    directories, the diff gives toRemove = [old.txt] and
    toUpload = [a.txt, img/].  In general, for inventories with unique
    remote paths, an item is in the upload set exactly when it comes from a
    local entry that has no remote entry at its path or whose remote entry
    has another fingerprint; and a local directory whose path is that of a
    remote directory is not uploaded. *)
Theorem diff_correctness :
  (forall protocol,
      Diff.skipsDirectories protocol = false ->
      let localFiles := [Entry "a.txt" File (Some "h1"); Entry "img/" Directory None] in
      let remoteFiles := [Entry "a.txt" File (Some "h0");
                          Entry "old.txt" File (Some "h2")] in
      Diff.filesToRemove (Diff.compare protocol localFiles remoteFiles)
      = [Item "old.txt" File] /\
      Diff.filesToUpload (Diff.compare protocol localFiles remoteFiles)
      = [Item "a.txt" File; Item "img/" Directory]) /\
  (forall protocol localFiles remoteFiles,
      Diff.skipsDirectories protocol = false ->
      NoDup (map path remoteFiles) ->
      forall p k,
        In (Item p k) (Diff.filesToUpload (Diff.compare protocol localFiles remoteFiles))
        <->
        exists localFile,
          In localFile localFiles /\ path localFile = p /\ type localFile = k /\
          ((forall remoteFile, In remoteFile remoteFiles -> path remoteFile <> p) \/
           (exists remoteFile, In remoteFile remoteFiles /\ path remoteFile = p /\
                               md5 remoteFile <> md5 localFile))) /\
  (forall protocol localFiles remoteFiles remoteDirectory,
      Forall directoryFree localFiles ->
      In remoteDirectory remoteFiles ->
      type remoteDirectory = Directory ->
      md5 remoteDirectory = None ->
      ~ In (Item (path remoteDirectory) Directory)
           (Diff.filesToUpload (Diff.compare protocol localFiles remoteFiles))).
Proof.
  split; [|split].
  - intros protocol Hs. simpl. unfold Diff.fileFounded, Diff.fileShouldBeUploaded.
    simpl. rewrite Hs. simpl. auto.
  - intros protocol localFiles remoteFiles Hs Hnd p k. simpl.
    rewrite DiffFacts.In_detectFilesToUpload. rewrite Hs. simpl.
    split.
    + intros (l & Hl & Hp & Hk & Hu & _). exists l. repeat split; auto.
      rewrite DiffFacts.fileShouldBeUploaded_true in Hu.
      destruct (in_dec string_dec p (map path remoteFiles)) as [Hin|Hout].
      * right. apply in_map_iff in Hin. destruct Hin as (r & Hr & Hin).
        exists r. repeat split; auto. apply Hu; auto. congruence.
      * left. intros r Hr Hrp. apply Hout. apply in_map_iff. eauto.
    + intros (l & Hl & Hp & Hk & Hcase). exists l. repeat split; auto.
      apply DiffFacts.fileShouldBeUploaded_true. intros r Hr Hrp.
      destruct Hcase as [Hnone|(r' & Hr' & Hp' & Hm')].
      * exfalso. apply (Hnone r Hr). congruence.
      * assert (r = r'); [|now subst].
        clear - Hnd Hr Hr' Hrp Hp' Hp.
        assert (Hpp : path r = path r') by congruence. clear - Hnd Hr Hr' Hpp.
        induction remoteFiles as [|x rest IH]; [contradiction|].
        simpl in Hnd. inversion Hnd as [|? ? Hx Hrest]; subst.
        destruct Hr as [->|Hr], Hr' as [->|Hr']; auto.
        -- exfalso. apply Hx. rewrite Hpp. now apply in_map.
        -- exfalso. apply Hx. rewrite <- Hpp. now apply in_map.
  - intros protocol localFiles remoteFiles d Hwf Hd Hk Hm Hin. simpl in Hin.
    apply DiffFacts.In_detectFilesToUpload in Hin.
    destruct Hin as (l & Hl & Hp & Hkl & Hu & _).
    rewrite DiffFacts.fileShouldBeUploaded_true in Hu.
    apply (Hu d Hd); [congruence|].
    rewrite Forall_forall in Hwf. rewrite (Hwf l Hl Hkl). exact Hm.
Qed.

Lemma diff_correctness_witness :
  Diff.filesToUpload
    (Diff.compare "ftp"
       [Entry "a.txt" File (Some "h1"); Entry "img/" Directory None]
       [Entry "a.txt" File (Some "h0"); Entry "old.txt" File (Some "h2")])
  = [Item "a.txt" File; Item "img/" Directory] /\
  (In (Item "a.txt" File)
      (Diff.filesToUpload
         (Diff.compare "ftp" [Entry "a.txt" File (Some "h1")]
                       [Entry "a.txt" File (Some "h0")]))
   <-> exists localFile,
      In localFile [Entry "a.txt" File (Some "h1")] /\
      path localFile = "a.txt" /\ type localFile = File /\
      ((forall remoteFile, In remoteFile [Entry "a.txt" File (Some "h0")] ->
                           path remoteFile <> "a.txt") \/
       (exists remoteFile, In remoteFile [Entry "a.txt" File (Some "h0")] /\
                           path remoteFile = "a.txt" /\
                           md5 remoteFile <> md5 localFile))) /\
  ~ In (Item "img" Directory)
       (Diff.filesToUpload
          (Diff.compare "ftp" [Entry "img" Directory None]
                        [Entry "img" Directory None])).
Proof.
  destruct diff_correctness as (H1 & H2 & H3).
  split; [|split].
  - apply (H1 "ftp"). reflexivity.
  - apply (H2 "ftp" [Entry "a.txt" File (Some "h1")] [Entry "a.txt" File (Some "h0")]).
    + reflexivity.
    + simpl. constructor; [simpl; tauto | constructor].
  - apply (H3 "ftp" [Entry "img" Directory None] [Entry "img" Directory None]
              (Entry "img" Directory None)).
    + repeat constructor.
    + simpl. auto.
    + reflexivity.
    + reflexivity.
Defined.

(** C7: Operation count.  For the transports without directories (s3,
    which counts files only, and google-cloud and gitlab-pages, whose sets
    never hold a directory) the counter is the number of File entries of
    the removal set plus the number of File entries of the upload set plus
    one; for every other transport it is the number of all entries of both
    sets plus one. *)
Theorem operation_count (protocol : string) (localFiles remoteFiles : list entry) :
  let r := Diff.compare protocol localFiles remoteFiles in
  Diff.operations r =
  if OperationSpec.withoutDirectories protocol
  then OperationSpec.fileEntries (Diff.filesToRemove r)
       + OperationSpec.fileEntries (Diff.filesToUpload r) + 1
  else length (Diff.filesToRemove r) + length (Diff.filesToUpload r) + 1.
Proof.
  assert (C : forall items, Diff.countFiles items = OperationSpec.fileEntries items).
  { unfold Diff.countFiles. induction items as [|[p [|]] rest IH]; simpl;
      [reflexivity | now rewrite IH | exact IH]. }
  simpl. unfold Diff.operationsCounter, OperationSpec.withoutDirectories. simpl.
  destruct (String.eqb protocol "s3"); simpl; [now rewrite !C|].
  rewrite orb_false_r.
  destruct (String.eqb protocol "google-cloud" || String.eqb protocol "gitlab-pages")
    eqn:Hs; [|reflexivity].
  rewrite <- !C.
  now rewrite (DiffFacts.detectFilesToRemove_files protocol localFiles Hs),
    (DiffFacts.detectFilesToUpload_files protocol remoteFiles Hs).
Qed.

(** C9: Kinds are never compared.  A remote entry whose path is the path of
    a local entry gives no removal, whatever the kinds; a local file at the
    path of a remote directory is uploaded, and so is a local directory at
    the path of a remote file when the transport tracks directories; the
    removal set depends on the local entries through their paths only and
    the upload set on the remote entries through their paths and digests
    only; and a local inventory holds a directory only for a transport that
    tracks directories. *)
Theorem kinds_not_compared :
  (forall protocol localFiles remoteFiles localFile remoteFile k,
      In localFile localFiles -> In remoteFile remoteFiles ->
      path localFile = path remoteFile ->
      ~ In (Item (path remoteFile) k)
           (Diff.filesToRemove (Diff.compare protocol localFiles remoteFiles))) /\
  (forall protocol localFiles remoteFiles localFile,
      In localFile localFiles ->
      (type localFile = Directory -> Diff.skipsDirectories protocol = false) ->
      (forall remoteFile, In remoteFile remoteFiles ->
                          path remoteFile = path localFile ->
                          type remoteFile <> type localFile) ->
      Forall directoryFree localFiles -> Forall directoryFree remoteFiles ->
      (forall e, In e (localFiles ++ remoteFiles) -> type e = File -> md5 e <> None) ->
      In (Item (path localFile) (type localFile))
         (Diff.filesToUpload (Diff.compare protocol localFiles remoteFiles))) /\
  (forall protocol localA localB remoteFiles,
      map path localA = map path localB ->
      Diff.filesToRemove (Diff.compare protocol localA remoteFiles)
      = Diff.filesToRemove (Diff.compare protocol localB remoteFiles)) /\
  (forall protocol localFiles remoteA remoteB,
      map path remoteA = map path remoteB ->
      map md5 remoteA = map md5 remoteB ->
      Diff.filesToUpload (Diff.compare protocol localFiles remoteA)
      = Diff.filesToUpload (Diff.compare protocol localFiles remoteB)) /\
  (forall md5 isBinaryFile protocol root fileList localFile,
      Inventory.prepareLocalFilesList md5 isBinaryFile protocol root
      = Some fileList ->
      In localFile fileList -> type localFile = Directory ->
      Diff.skipsDirectories protocol = false).
Proof.
  split; [|split; [|split; [|split]]].
  - intros protocol localFiles remoteFiles l r k Hl Hr Hp Hin. simpl in Hin.
    apply DiffFacts.In_detectFilesToRemove in Hin.
    destruct Hin as (r' & Hr' & Hp' & _ & Hf & _).
    apply not_true_iff_false in Hf. apply Hf.
    apply DiffFacts.fileFounded_true. exists l. split; [exact Hl|congruence].
  - intros protocol localFiles remoteFiles l Hl Hcap Hkind Hwl Hwr Hfile. simpl.
    apply DiffFacts.In_detectFilesToUpload. exists l. repeat split; auto.
    + apply DiffFacts.fileShouldBeUploaded_true. intros r Hr Hp Hm.
      rewrite Forall_forall in Hwl, Hwr.
      pose proof (Hkind r Hr Hp) as Hne.
      destruct (type l) eqn:Kl, (type r) eqn:Kr; try congruence.
      * apply (Hfile l); [apply in_or_app; auto | exact Kl|].
        rewrite <- Hm. now apply Hwr.
      * apply (Hfile r); [apply in_or_app; auto | exact Kr|].
        rewrite Hm. now apply Hwl.
    + destruct (type l); simpl.
      * apply andb_false_r.
      * rewrite Hcap; reflexivity.
  - intros. simpl. now apply DiffFacts.detectFilesToRemove_paths.
  - intros protocol localFiles remoteA remoteB Hp Hm. simpl.
    apply DiffFacts.detectFilesToUpload_paths_md5.
    revert remoteB Hp Hm. induction remoteA as [|a ra IH]; intros [|b rb] Hp Hm;
      simpl in *; try discriminate; [reflexivity|].
    injection Hp as Hp1 Hp2. injection Hm as Hm1 Hm2.
    rewrite Hp1, Hm1. f_equal. now apply IH.
  - intros md5 isBinaryFile protocol root fileList l Hb Hl Hk.
    exact (InventoryFacts.buildFileList_directories md5 isBinaryFile protocol
             _ _ l Hb Hl Hk).
Qed.

(* ================================================================== *)
(** ** Properties of the scheduled order *)
(* ================================================================== *)

(** C2: Upload execution order.  The items popped from the sorted upload
    stack are first the directories, by non-decreasing path length, then the
    files that are not binary, then the binary files; for the set
    [root/, root/sub/, root/sub/a.bin (binary), root/b.txt] the order is
    root/, root/sub/, root/b.txt, root/sub/a.bin. *)
Theorem upload_execution_order :
  (forall (isBinaryFileSync : string -> bool) (filesToUpload : list fileItem),
      exists directories texts binaries,
        Scheduler.uploadOrder
          (Scheduler.sortFilesToUpload isBinaryFileSync filesToUpload)
        = directories ++ texts ++ binaries /\
        Permutation filesToUpload (directories ++ texts ++ binaries) /\
        Forall (fun f => itemType f = Directory) directories /\
        Forall (fun f => itemType f = File /\
                         isBinaryFileSync (itemPath f) = false) texts /\
        Forall (fun f => itemType f = File /\
                         isBinaryFileSync (itemPath f) = true) binaries /\
        StronglySorted
          (fun a b => String.length (itemPath a) <= String.length (itemPath b))
          directories) /\
  (forall isBinaryFileSync : string -> bool,
      isBinaryFileSync "root/sub/a.bin" = true ->
      isBinaryFileSync "root/b.txt" = false ->
      Scheduler.uploadOrder
        (Scheduler.sortFilesToUpload isBinaryFileSync
           [Item "root/" Directory; Item "root/sub/" Directory;
            Item "root/sub/a.bin" File; Item "root/b.txt" File])
      = [Item "root/" Directory; Item "root/sub/" Directory;
         Item "root/b.txt" File; Item "root/sub/a.bin" File]).
Proof.
  split.
  - intros isBin l.
    exists (rev (SchedulerSpec.orderDirectories
                   (filter SchedulerSpec.isDirItem l))),
      (rev (filter (SchedulerSpec.isTextItem isBin) l)),
      (filter (SchedulerSpec.isBinaryItem isBin) l).
    rewrite <- SchedulerFacts.uploadOrder_eq.
    split; [reflexivity|]. split; [apply SchedulerFacts.uploadOrder_perm|].
    destruct (SchedulerFacts.orderDirectories_from
                (filter SchedulerSpec.isDirItem l) []
                (SSorted_nil _)) as [Hs Hp].
    rewrite app_nil_r in Hp.
    repeat split.
    + apply Forall_rev. eapply Permutation_Forall; [exact Hp|].
      eapply Forall_impl; [|apply SchedulerFacts.Forall_filter_true].
      unfold SchedulerSpec.isDirItem. intros f. now destruct (itemType f).
    + apply Forall_rev.
      eapply Forall_impl; [|apply SchedulerFacts.Forall_filter_true].
      unfold SchedulerSpec.isTextItem, SchedulerSpec.isFileItem.
      intros f Hf. apply andb_prop in Hf. destruct Hf as [Hk Hb].
      apply negb_true_iff in Hb. split; [now destruct (itemType f) | exact Hb].
    + eapply Forall_impl; [|apply SchedulerFacts.Forall_filter_true].
      unfold SchedulerSpec.isBinaryItem, SchedulerSpec.isFileItem.
      intros f Hf. apply andb_prop in Hf. destruct Hf as [Hk Hb].
      split; [now destruct (itemType f) | exact Hb].
    + apply (SchedulerFacts.StronglySorted_rev SchedulerSpec.longerFirst).
      exact Hs.
  - intros isBin Hbin Htxt.
    rewrite SchedulerFacts.uploadOrder_eq.
    unfold SchedulerSpec.isTextItem, SchedulerSpec.isBinaryItem.
    simpl. rewrite Hbin, Htxt. reflexivity.
Qed.

Lemma upload_execution_order_witness :
  Scheduler.uploadOrder
    (Scheduler.sortFilesToUpload (String.eqb "root/sub/a.bin")
       [Item "root/" Directory; Item "root/sub/" Directory;
        Item "root/sub/a.bin" File; Item "root/b.txt" File])
  = [Item "root/" Directory; Item "root/sub/" Directory;
     Item "root/b.txt" File; Item "root/sub/a.bin" File].
Proof.
  apply (proj2 upload_execution_order (String.eqb "root/sub/a.bin"));
    reflexivity.
Defined.

(** Against C6 as first stated: two files are removed in the reverse of
    their discovery order. *)
Lemma removal_order_counterexample :
  ~ SchedulerSpec.removalFollowsDiscovery [Item "a.txt" File; Item "b.txt" File].
Proof. unfold SchedulerSpec.removalFollowsDiscovery. vm_compute. discriminate. Qed.

(** C6: Removal execution order.  The items popped from the sorted removal
    stack are first all files, in the reverse of their discovery order, then
    all directories, in their discovery order. *)
Theorem removal_execution_order (filesToRemove : list fileItem) :
  Scheduler.removalOrder (Scheduler.sortFilesToRemove filesToRemove)
  = rev (filter (fun f => isFile (itemType f)) filesToRemove)
    ++ filter (fun f => isDirectory (itemType f)) filesToRemove.
Proof.
  rewrite SchedulerFacts.removalOrder_rev, SchedulerFacts.sortFilesToRemove_eq.
  now rewrite rev_app_distr, rev_involutive.
Qed.

Lemma kinds_not_compared_witness :
  ~ In (Item "docs" Directory)
       (Diff.filesToRemove
          (Diff.compare "ftp" [Entry "docs" File (Some "h1")]
                        [Entry "docs" Directory None])) /\
  In (Item "docs" File)
     (Diff.filesToUpload
        (Diff.compare "ftp" [Entry "docs" File (Some "h1")]
                      [Entry "docs" Directory None])) /\
  In (Item "docs" Directory)
     (Diff.filesToUpload
        (Diff.compare "ftp" [Entry "docs" Directory None]
                      [Entry "docs" File (Some "h1")])) /\
  Diff.filesToRemove
    (Diff.compare "ftp" [Entry "docs" File (Some "h1")]
                  [Entry "docs" Directory None; Entry "old" File (Some "h2")])
  = Diff.filesToRemove
      (Diff.compare "ftp" [Entry "docs" Directory None]
                    [Entry "docs" Directory None; Entry "old" File (Some "h2")]) /\
  Diff.filesToUpload
    (Diff.compare "ftp" [Entry "docs" File (Some "h1")]
                  [Entry "docs" File (Some "h0")])
  = Diff.filesToUpload
      (Diff.compare "ftp" [Entry "docs" File (Some "h1")]
                    [Entry "docs" Directory (Some "h0")]).
Proof.
  destruct kinds_not_compared as (H1 & H2 & H3 & H4 & _).
  assert (Hfile : forall a b e,
             In e ([a] ++ [b]) -> (a = Entry "docs" File (Some "h1") \/
                                   a = Entry "docs" Directory None) ->
             (b = Entry "docs" File (Some "h1") \/
              b = Entry "docs" Directory None) ->
             type e = File -> md5 e <> None).
  { intros a b e [<-|[<-|[]]] [->| ->] [->| ->]; simpl; congruence. }
  split; [|split; [|split; [|split]]].
  - apply (H1 "ftp" _ _ (Entry "docs" File (Some "h1")) (Entry "docs" Directory None));
      simpl; auto.
  - apply (H2 "ftp" [Entry "docs" File (Some "h1")] [Entry "docs" Directory None]
              (Entry "docs" File (Some "h1"))).
    + simpl; auto.
    + simpl; discriminate.
    + intros r [<-|[]] _. simpl. discriminate.
    + repeat constructor. unfold directoryFree. simpl. discriminate.
    + repeat constructor.
    + intros e He. apply (Hfile _ _ e He); auto.
  - apply (H2 "ftp" [Entry "docs" Directory None] [Entry "docs" File (Some "h1")]
              (Entry "docs" Directory None)).
    + simpl; auto.
    + reflexivity.
    + intros r [<-|[]] _. simpl. discriminate.
    + repeat constructor.
    + repeat constructor. unfold directoryFree. simpl. discriminate.
    + intros e He. apply (Hfile _ _ e He); auto.
  - apply H3. reflexivity.
  - apply H4; reflexivity.
Defined.

(* ================================================================== *)
(** ** Properties of the inventory *)
(* ================================================================== *)

(** Against C10 as first stated: a [_redirects] inside a [.git] directory
    is not listed. *)
Lemma nested_special_files_counterexample :
  ~ InventorySpec.nestedSpecialFilesListed
      (fun bytes => bytes) (fun _ => false) "ftp"
      [Inventory.DirNode "site"
         [Inventory.DirNode ".git" [Inventory.FileNode "_redirects" "/ /x"]]].
Proof.
  intros H.
  destruct (H ["site"; ".git"] "_redirects" "/site/.git/_redirects" "/ /x")
    as (fileList & Hb & Hin).
  - eapply InventorySpec.inside_below; [left; reflexivity|].
    eapply InventorySpec.inside_below; [left; reflexivity|].
    apply (InventorySpec.inside_here "/site/.git" _ "_redirects" "/ /x").
    left; reflexivity.
  - discriminate.
  - right; reflexivity.
  - vm_compute in Hb. injection Hb as <-.
    simpl in Hin. destruct Hin as [E|[]]. discriminate.
Qed.

(** C10: Special names below the root.  A [.htaccess] or [_redirects]
    inside a directory of the input tree, with no [.git] directory on the
    way, is in every inventory that is built, for every transport, as a
    File entry with its file fingerprint, which is the digest of its content
    when the file is not binary; at the root, the transports of the
    exclusion list have no File entry of these names, the others have it
    with the digest of its content. *)
Theorem special_names_below_root
        (md5 : string -> string) (isBinaryFile : string -> bool)
        (protocol : string) (root : list Inventory.node)
        (fileList : list entry) :
  Inventory.prepareLocalFilesList md5 isBinaryFile protocol root = Some fileList ->
  (forall ancestors name listed content,
      InventorySpec.inside EmptyString root ancestors name listed content ->
      ancestors <> [] -> ~ In ".git" ancestors ->
      InventorySpec.isSpecialName name ->
      In (Entry listed File (Some (Inventory.fileMD5 md5 isBinaryFile content)))
         fileList /\
      (isBinaryFile content = false ->
       In (Entry listed File (Some (md5 content))) fileList)) /\
  (Inventory.notExcluded protocol = false ->
   forall e, In e fileList -> type e = File ->
             path e <> ".htaccess" /\ path e <> "_redirects") /\
  (Inventory.notExcluded protocol = true ->
   forall name content,
     In (Inventory.FileNode name content) root ->
     InventorySpec.isSpecialName name ->
     In (Entry name File (Some (md5 content))) fileList).
Proof.
  intros Hb. split; [|split].
  - intros ancestors name listed content Hin Hne Hgit Hsp.
    assert (Hl : In (listed, Inventory.isRegular content)
                    (Inventory.readDirRecursiveSync root)).
    { apply (InventoryFacts.inside_listed _ _ _ _ _ _ Hin Hgit).
      - destruct Hsp as [-> | ->]; reflexivity.
      - destruct Hsp as [-> | ->]; reflexivity. }
    assert (Hs : InventorySpec.startsWithSlash listed).
    { apply (InventoryFacts.inside_slash _ _ _ _ _ _ Hin). right. auto. }
    pose proof (InventoryFacts.buildFileList_regular md5 isBinaryFile protocol
                  listed content Hs _ _ Hl Hb) as He.
    split; [exact He|].
    intros Hnb. unfold Inventory.fileMD5 in He. now rewrite Hnb in He.
  - intros Hex e He Hk.
    now apply (InventoryFacts.buildFileList_excluded md5 isBinaryFile protocol
                 Hex _ _ e Hb).
  - intros Hnx name content Hin Hsp.
    assert (Hl : In (name, Inventory.isRegular content)
                    (Inventory.readDirRecursiveSync root)).
    { apply (InventoryFacts.inside_listed EmptyString root [] name name content).
      - exact (InventorySpec.inside_here EmptyString root name content Hin).
      - simpl; tauto.
      - destruct Hsp as [-> | ->]; reflexivity.
      - destruct Hsp as [-> | ->]; reflexivity. }
    unfold Inventory.prepareLocalFilesList in Hb.
    revert fileList Hb Hl.
    generalize (Inventory.readDirRecursiveSync root) as tl.
    induction tl as [|[p st] tl IH]; intros fileList Hb Hl; [contradiction|].
    simpl in Hb. rewrite Hnx in Hb.
    assert (Hpush : forall x l0,
               option_map (cons x)
                          (Inventory.buildFileList md5 isBinaryFile protocol tl)
               = Some l0 ->
               In (name, Inventory.isRegular content) tl ->
               In (Entry name File (Some (md5 content))) l0).
    { intros x l0 H0 Ht.
      destruct (Inventory.buildFileList md5 isBinaryFile protocol tl) as [l1|];
        [|discriminate].
      injection H0 as <-. right. now apply IH. }
    destruct Hl as [E|Hl].
    + injection E as -> ->.
      assert (Hg : String.eqb name ".git" = false)
        by (destruct Hsp as [-> | ->]; reflexivity).
      assert (Hs : String.eqb name ".htaccess" || String.eqb name "_redirects"
                   = true)
        by (destruct Hsp as [-> | ->]; reflexivity).
      rewrite Hg, Hs in Hb.
      destruct (Inventory.buildFileList md5 isBinaryFile protocol tl);
        [|discriminate].
      injection Hb as <-. now left.
    + destruct (String.eqb p ".git"); [now apply IH|].
      destruct (String.eqb p ".htaccess" || String.eqb p "_redirects").
      * destruct st; [discriminate | now apply (Hpush _ _ Hb)].
      * destruct st.
        -- destruct (Inventory.listsDirectories protocol);
             [now apply (Hpush _ _ Hb) | now apply IH].
        -- now apply (Hpush _ _ Hb).
Qed.

Lemma special_names_below_root_witness :
  let root :=
    [Inventory.FileNode ".htaccess" "deny";
     Inventory.DirNode "blog" [Inventory.FileNode "_redirects" "/a /b"]] in
  In (Entry "/blog/_redirects" File (Some "/a /b"))
     [Entry "blog" Directory None; Entry "/blog/_redirects" File (Some "/a /b")].
Proof.
  intros root.
  assert (Hb : Inventory.prepareLocalFilesList
                 (fun bytes => bytes) (fun _ => false) "s3" root
               = Some [Entry "blog" Directory None;
                       Entry "/blog/_redirects" File (Some "/a /b")])
    by reflexivity.
  destruct (special_names_below_root _ _ _ _ _ Hb) as (H1 & _ & _).
  apply (H1 ["blog"] "_redirects" "/blog/_redirects" "/a /b").
  - eapply InventorySpec.inside_below; [right; left; reflexivity|].
    apply (InventorySpec.inside_here "/blog" _ "_redirects" "/a /b").
    left; reflexivity.
  - discriminate.
  - simpl. intros [H|[]]. discriminate.
  - right; reflexivity.
  - reflexivity.
Defined.

(* ================================================================== *)
(** ** Properties of the snapshot resolution and of a session *)
(* ================================================================== *)

Module SnapshotFacts.
Import Snapshot.

Lemma detectFilesToRemove_same (protocol : string) (localFiles : list entry) :
  forall remoteFiles,
    incl remoteFiles localFiles ->
    Diff.detectFilesToRemove protocol localFiles remoteFiles = [].
Proof.
  induction remoteFiles as [|r rest IH]; intros Hi; simpl; [reflexivity|].
  assert (Hf : Diff.fileFounded localFiles r = true).
  { apply DiffFacts.fileFounded_true. exists r. split; [|reflexivity].
    apply Hi. now left. }
  rewrite Hf. apply IH. intros x Hx. apply Hi. now right.
Qed.

Lemma detectFilesToUpload_same (protocol : string) (remoteFiles : list entry) :
  forall localFiles,
    incl localFiles remoteFiles ->
    Diff.detectFilesToUpload protocol remoteFiles localFiles = [].
Proof.
  induction localFiles as [|l rest IH]; intros Hi; simpl; [reflexivity|].
  assert (Hf : Diff.fileShouldBeUploaded remoteFiles l = false).
  { apply not_true_iff_false. intros H.
    rewrite DiffFacts.fileShouldBeUploaded_true in H.
    apply (H l); auto. apply Hi. now left. }
  rewrite Hf. apply IH. intros x Hx. apply Hi. now right.
Qed.

Lemma nonempty_text {A : Type} (text : string) (a b : A) :
  text <> EmptyString ->
  match text with EmptyString => a | String _ _ => b end = b.
Proof. destruct text; [congruence | reflexivity]. Qed.

Section Resolver.
Variable md5 : string -> string.
Variable JSON_parse : string -> option json.
Variable protocol : string.

Local Abbreviation resolve := (Snapshot.resolve md5 JSON_parse).
Local Abbreviation compareFilesList := (Snapshot.compareFilesList JSON_parse protocol).
Local Abbreviation checkLocalListWithRemoteList :=
  (Snapshot.checkLocalListWithRemoteList md5 JSON_parse protocol).



(** A descriptor whose token is the cached one is trusted by comparison of
    the two tokens. *)
Lemma resolve_same_revision (fileContent revision : string) (s : store)
      (cached remoteList : string) :
  revision <> EmptyString ->
  JSON_parse fileContent = Some (JObject (str revision)) ->
  sync_revision_json s = Some cached ->
  JSON_parse cached = Some (JObject (str revision)) ->
  files_remote_json s = Some remoteList ->
  resolve fileContent s = Some (true, s, byRevision).
Proof.
  intros Hne Hf Hs Hc Hr. unfold Snapshot.resolve.
  rewrite Hf, Hs, Hc, Hr. simpl.
  assert (E : String.eqb revision EmptyString = false) by now apply String.eqb_neq.
  rewrite E. simpl. now rewrite String.eqb_refl.
Qed.

Lemma compareFilesList_same (fileList : list entry) (text : string)
      (cached : option string) :
  text <> EmptyString ->
  JSON_parse text = Some (JArray fileList) ->
  compareFilesList true (Store (Some text) (Some text) cached)
  = Some (Diff.compare protocol fileList fileList).
Proof.
  intros Hne Hp. unfold Snapshot.compareFilesList. simpl.
  destruct text as [|c text']; [congruence|].
  rewrite Hp. simpl. now destruct (String.eqb protocol "gitlab-pages").
Qed.

End Resolver.
End SnapshotFacts.

(** C4: Revision trust round-trip.  After [replaceSyncInfoFiles] has
    stored the descriptor of revision R1, a fetched manifest that parses to
    [{revision: R1}] is resolved, in the next session, to the verdict [true]
    by comparing the two tokens: no checksum of the cached remote list is
    involved, and [compareFilesList(true)] is the first call. *)
Theorem revision_trust_round_trip
        (md5 : string -> string) (JSON_parse : string -> option Snapshot.json)
        (protocol : string) (R1 fileContent : string)
        (s finalized : Snapshot.store) (nextLocalList : string) :
  R1 <> EmptyString ->
  JSON_parse (Snapshot.descriptor R1)
  = Some (Snapshot.JObject (Snapshot.str R1)) ->
  JSON_parse fileContent = Some (Snapshot.JObject (Snapshot.str R1)) ->
  Snapshot.replaceSyncInfoFiles R1 s = Some finalized ->
  let next := Snapshot.Store (Some nextLocalList)
                             (Snapshot.files_remote_json finalized)
                             (Snapshot.sync_revision_json finalized) in
  Snapshot.resolve md5 JSON_parse fileContent next
  = Some (true, next, Snapshot.byRevision) /\
  hd false (Snapshot.invoked
              (Snapshot.checkLocalListWithRemoteList md5 JSON_parse protocol
                                                     fileContent next)) = true.
Proof.
  intros Hne Hd Hf Hfin next.
  unfold Snapshot.replaceSyncInfoFiles in Hfin.
  destruct (Snapshot.files_publii_json s) as [saved|] eqn:Hs; [|discriminate].
  injection Hfin as <-.
  assert (E : Snapshot.resolve md5 JSON_parse fileContent next
              = Some (true, next, Snapshot.byRevision)).
  { apply (SnapshotFacts.resolve_same_revision md5 JSON_parse fileContent R1 next
             (Snapshot.descriptor R1) saved); auto. }
  split; [exact E|].
  unfold Snapshot.checkLocalListWithRemoteList. rewrite E.
  now destruct (Snapshot.compareFilesList JSON_parse protocol true next).
Qed.

Lemma revision_trust_round_trip_witness :
  let JSON_parse := fun text : string =>
    if String.eqb text (Snapshot.descriptor "R1")
    then Some (Snapshot.JObject (Snapshot.str "R1"))
    else None in
  let next := Snapshot.Store (Some "[new]") (Some "[old]")
                             (Some (Snapshot.descriptor "R1")) in
  Snapshot.resolve (fun b => b) JSON_parse (Snapshot.descriptor "R1") next
  = Some (true, next, Snapshot.byRevision) /\
  hd false (Snapshot.invoked
              (Snapshot.checkLocalListWithRemoteList
                 (fun b => b) JSON_parse "ftp" (Snapshot.descriptor "R1") next))
  = true.
Proof.
  intros JSON_parse next.
  apply (revision_trust_round_trip
           (fun b => b) JSON_parse "ftp" "R1" (Snapshot.descriptor "R1")
           (Snapshot.Store (Some "[old]") None None)
           (Snapshot.Store (Some (Snapshot.descriptor "R1")) (Some "[old]")
                           (Some (Snapshot.descriptor "R1")))
           "[new]").
  - discriminate.
  - reflexivity.
  - reflexivity.
  - reflexivity.
Defined.

(* ================================================================== *)
(** ** Further properties: the sort and the pump *)
(* ================================================================== *)

Module SortFacts.
Import ArraySort.

(** Whatever the comparator answers, an insertion only adds the pivot. *)
Lemma insertPivot_perm {A : Type} (comparefn : A -> A -> Z) (pivot : A)
      (sorted : list A) :
  Permutation (pivot :: sorted) (insertPivot comparefn pivot sorted).
Proof.
  unfold insertPivot.
  set (left := binarySearch comparefn (length sorted) pivot sorted 0 (length sorted)).
  rewrite <- (firstn_skipn left sorted) at 1.
  apply Permutation_middle.
Qed.

Lemma BinaryInsertionSort_perm {A : Type} (comparefn : A -> A -> Z) :
  forall rest run : list A,
    Permutation (run ++ rest) (BinaryInsertionSort comparefn run rest).
Proof.
  induction rest as [|x rest IH]; intros run; simpl.
  - now rewrite app_nil_r.
  - rewrite <- IH. rewrite <- (insertPivot_perm comparefn x run).
    symmetry. apply Permutation_middle.
Qed.

Lemma sort_perm {A : Type} (comparefn : A -> A -> Z) (array : list A) :
  Permutation array (sort comparefn array).
Proof.
  unfold sort. destruct (length array <? 2); [reflexivity|].
  destruct array as [|a0 [|a1 rest]]; simpl; try reflexivity.
  set (n := runTail comparefn (before comparefn a1 a0) a1 rest).
  rewrite <- BinaryInsertionSort_perm.
  rewrite <- (firstn_skipn n rest) at 1.
  change (a0 :: a1 :: firstn n rest ++ skipn n rest)
    with ((a0 :: a1 :: firstn n rest) ++ skipn n rest).
  apply Permutation_app_tail.
  destruct (before comparefn a1 a0); [apply Permutation_rev | reflexivity].
Qed.

Lemma sortFiles_perm (isBinaryFileSync : string -> bool)
      (filesToRemove filesToUpload : list fileItem) :
  Permutation filesToRemove (Scheduler.sortFilesToRemove filesToRemove) /\
  Permutation filesToUpload
              (Scheduler.sortFilesToUpload isBinaryFileSync filesToUpload).
Proof.
  split.
  - apply sort_perm.
  - unfold Scheduler.sortFilesToUpload.
    rewrite <- sort_perm. apply sort_perm.
Qed.

End SortFacts.

(** X1: [sortFiles] only reorders.  Whatever [isBinaryFileSync] answers,
    the sorted removal stack and the sorted upload stack hold exactly the
    items of the two sets, each as many times as before. *)
Theorem sortFiles_keeps_items
        (isBinaryFileSync : string -> bool)
        (filesToRemove filesToUpload : list fileItem) :
  Permutation filesToRemove (Scheduler.sortFilesToRemove filesToRemove) /\
  Permutation filesToUpload
              (Scheduler.sortFilesToUpload isBinaryFileSync filesToUpload).
Proof.
  split.
  - apply SortFacts.sort_perm.
  - unfold Scheduler.sortFilesToUpload.
    transitivity (ArraySort.sort (Scheduler.compareUpload isBinaryFileSync)
                                 filesToUpload);
      apply SortFacts.sort_perm.
Qed.

Module TransferFacts.
Import Scheduler Transfer TransferSpec.

Lemma completed_upload (protocol : string) (f : fileItem) (st : stacks) :
  completed protocol (uploadCall f) st = Some (uploadFileStep st).
Proof. unfold uploadCall. now destruct (itemType f). Qed.

Lemma completed_removal (protocol : string) (f : fileItem) (st : stacks) :
  completed protocol (removeCall f) st = Some (removeFileStep protocol st).
Proof. unfold removeCall. now destruct (itemType f). Qed.

Lemma run_uploads (protocol : string) (rm : list fileItem) :
  forall up fuel,
    length up <= fuel ->
    (let (c, st') := uploadFileStep (Stacks rm up) in run protocol fuel c st')
    = map uploadCall (rev up) ++ [uploadNewFileList].
Proof.
  induction up as [|x up IH] using rev_ind; intros fuel Hf.
  - unfold uploadFileStep. simpl. now destruct fuel.
  - unfold uploadFileStep. simpl toUpload. rewrite SchedulerFacts.pop_snoc.
    rewrite length_app in Hf. simpl in Hf.
    destruct fuel as [|fuel]; [lia|].
    simpl run. rewrite completed_upload, rev_unit. simpl. f_equal.
    apply IH. lia.
Qed.

Lemma run_removals (protocol : string) (up : list fileItem) :
  perItem protocol ->
  forall rm fuel,
    length rm + length up <= fuel ->
    transfer protocol fuel (Stacks rm up)
    = map removeCall (rev rm) ++ map uploadCall (rev up) ++ [uploadNewFileList].
Proof.
  intros [H1 H2].
  apply String.eqb_neq in H1. apply String.eqb_neq in H2.
  assert (Hstep : forall st,
             removeFileStep protocol st
             = match pop (toRemove st) with
               | Some (f, rest) => (removeCall f, Stacks rest (toUpload st))
               | None => uploadFileStep st
               end).
  { intros st. unfold removeFileStep. now rewrite H1, H2. }
  unfold transfer.
  induction rm as [|x rm IH] using rev_ind; intros fuel Hf.
  - rewrite Hstep. simpl. apply run_uploads. simpl in Hf. lia.
  - rewrite Hstep. simpl toRemove. rewrite SchedulerFacts.pop_snoc.
    rewrite length_app in Hf. simpl in Hf.
    destruct fuel as [|fuel]; [lia|].
    simpl run. rewrite completed_removal, rev_unit. simpl. f_equal.
    apply IH. lia.
Qed.

Lemma transfer_pump (protocol : string) (rm up : list fileItem) (fuel : nat) :
  length rm + length up <= fuel ->
  transfer protocol fuel (Stacks rm up) = pump protocol rm up.
Proof.
  intros Hf. unfold pump.
  destruct (String.eqb protocol "s3") eqn:H1.
  - unfold transfer, removeFileStep. rewrite H1. now destruct fuel.
  - destruct (String.eqb protocol "gitlab-pages") eqn:H2.
    + unfold transfer, removeFileStep. rewrite H1, H2. now destruct fuel.
    + rewrite SchedulerFacts.removalOrder_rev, SchedulerFacts.uploadOrder_rev.
      apply run_removals; [|exact Hf].
      split; now apply String.eqb_neq.
Qed.

Lemma transfer_s3 (fuel : nat) (st : stacks) :
  transfer "s3" fuel st = [removeFileDelegated].
Proof. unfold transfer, removeFileStep. simpl. now destruct fuel. Qed.

Lemma transfer_gitlab (fuel : nat) (st : stacks) :
  transfer "gitlab-pages" fuel st = [startSync].
Proof. unfold transfer, removeFileStep. simpl. now destruct fuel. Qed.

Lemma Forall_map_removeCall (l : list fileItem) :
  Forall isRemoval (map removeCall l).
Proof.
  apply Forall_forall. intros c Hc. apply in_map_iff in Hc.
  destruct Hc as (f & <- & _). unfold removeCall. now destruct (itemType f).
Qed.

Lemma Forall_map_uploadCall (l : list fileItem) :
  Forall isUpload (map uploadCall l).
Proof.
  apply Forall_forall. intros c Hc. apply in_map_iff in Hc.
  destruct Hc as (f & <- & _). unfold uploadCall. now destruct (itemType f).
Qed.

End TransferFacts.

(** X2: the pump.  For a transport that is driven item by item, the calls
    that follow [compareFilesList] are: one removal per item of the removal
    stack, from its top, each by [removeFile] or [removeDirectory] after the
    kind of the item; then one upload per item of the upload stack, from its
    top; then [uploadNewFileList], once, and nothing after it. *)
Theorem pump_drains_both_stacks
        (protocol : string) (filesToRemove filesToUpload : list fileItem)
        (fuel : nat) :
  TransferSpec.perItem protocol ->
  length filesToRemove + length filesToUpload <= fuel ->
  exists removals uploads,
    Transfer.transfer protocol fuel (Transfer.Stacks filesToRemove filesToUpload)
    = removals ++ uploads ++ [Scheduler.uploadNewFileList] /\
    removals = map Scheduler.removeCall (rev filesToRemove) /\
    uploads = map Scheduler.uploadCall (rev filesToUpload) /\
    Forall TransferSpec.isRemoval removals /\
    Forall TransferSpec.isUpload uploads.
Proof.
  intros Hp Hf.
  exists (map Scheduler.removeCall (rev filesToRemove)),
    (map Scheduler.uploadCall (rev filesToUpload)).
  split; [now apply TransferFacts.run_removals|].
  split; [reflexivity|]. split; [reflexivity|].
  split.
  - apply TransferFacts.Forall_map_removeCall.
  - apply TransferFacts.Forall_map_uploadCall.
Qed.

Lemma pump_drains_both_stacks_witness :
  Transfer.transfer "ftp" 3
    (Transfer.Stacks [Item "old" Directory; Item "old/a.txt" File]
                     [Item "b.txt" File])
  = [Scheduler.removeFile "old/a.txt"; Scheduler.removeDirectory "old";
     Scheduler.uploadFile "b.txt"; Scheduler.uploadNewFileList].
Proof.
  destruct (pump_drains_both_stacks
              "ftp" [Item "old" Directory; Item "old/a.txt" File]
              [Item "b.txt" File] 3) as (removals & uploads & E & -> & -> & _).
  - split; discriminate.
  - simpl. lia.
  - exact E.
Defined.

(** X3: the counter and the calls.  For a transport that is driven item by
    item, a session makes exactly [operationsCounter] transport calls, the
    last of which is [uploadNewFileList]; for s3 and gitlab-pages it makes a
    single call, which hands the session to the client. *)
Theorem calls_match_operations_counter
        (isBinaryFileSync : string -> bool) (protocol : string)
        (localFiles remoteFiles : list entry) :
  let calls := Transfer.deploy isBinaryFileSync protocol localFiles remoteFiles in
  (TransferSpec.perItem protocol ->
   length calls = Diff.operations (Diff.compare protocol localFiles remoteFiles) /\
   last calls Scheduler.startSync = Scheduler.uploadNewFileList) /\
  (protocol = "s3" -> calls = [Scheduler.removeFileDelegated]) /\
  (protocol = "gitlab-pages" -> calls = [Scheduler.startSync]).
Proof.
  intros calls. subst calls. unfold Transfer.deploy.
  set (d := Diff.compare protocol localFiles remoteFiles).
  split; [|split].
  - intros Hp.
    pose proof (SortFacts.sortFiles_perm isBinaryFileSync (Diff.filesToRemove d)
                  (Diff.filesToUpload d)) as [Pr Pu].
    apply Permutation_length in Pr, Pu.
    assert (Ho : Diff.operations d
                 = length (Diff.filesToRemove d) + length (Diff.filesToUpload d) + 1).
    { subst d. simpl. unfold Diff.operationsCounter.
      destruct Hp as [H1 _]. apply String.eqb_neq in H1. now rewrite H1. }
    rewrite TransferFacts.run_removals; [|exact Hp|rewrite <- Pr, <- Pu, Ho; lia].
    split.
    + rewrite !length_app, !length_map, !length_rev, <- Pr, <- Pu, Ho.
      simpl. lia.
    + now rewrite !app_assoc, last_last.
  - intros ->. apply TransferFacts.transfer_s3.
  - intros ->. apply TransferFacts.transfer_gitlab.
Qed.

Lemma calls_match_operations_counter_witness :
  let calls := Transfer.deploy (fun _ => false) "sftp"
                 [Entry "a.txt" File (Some "h1"); Entry "img" Directory None]
                 [Entry "a.txt" File (Some "h0"); Entry "old.txt" File (Some "h2")] in
  length calls = 4 /\ last calls Scheduler.startSync = Scheduler.uploadNewFileList.
Proof.
  intros calls.
  destruct (calls_match_operations_counter (fun _ => false) "sftp"
              [Entry "a.txt" File (Some "h1"); Entry "img" Directory None]
              [Entry "a.txt" File (Some "h0"); Entry "old.txt" File (Some "h2")])
    as (H & _).
  apply H. split; discriminate.
Defined.

(* ================================================================== *)
(** ** Further properties: the diff *)
(* ================================================================== *)

Module DiffMore.
Import Diff.

Lemma detectFilesToRemove_kinds (protocol : string) (localFiles remoteFiles : list entry) :
  skipsDirectories protocol = true ->
  Forall (fun f => itemType f = File)
         (detectFilesToRemove protocol localFiles remoteFiles).
Proof.
  intros Hs. apply Forall_forall. intros [p k] Hin.
  apply DiffFacts.In_detectFilesToRemove in Hin.
  destruct Hin as (_ & _ & _ & _ & _ & H). rewrite Hs in H.
  simpl in *. now destruct k.
Qed.

Lemma detectFilesToUpload_kinds (protocol : string) (localFiles remoteFiles : list entry) :
  skipsDirectories protocol = true ->
  Forall (fun f => itemType f = File)
         (detectFilesToUpload protocol remoteFiles localFiles).
Proof.
  intros Hs. apply Forall_forall. intros [p k] Hin.
  apply DiffFacts.In_detectFilesToUpload in Hin.
  destruct Hin as (_ & _ & _ & _ & _ & H). rewrite Hs in H.
  simpl in *. now destruct k.
Qed.

(** With no remote list every local entry is uploaded, directories
    excepted for the transports that skip them. *)
Lemma detectFilesToUpload_nil (protocol : string) (localFiles : list entry) :
  detectFilesToUpload protocol [] localFiles
  = map (fun e => Item (path e) (type e))
        (filter (fun e => negb (skipsDirectories protocol && isDirectory (type e)))
                localFiles).
Proof.
  induction localFiles as [|l rest IH]; simpl; [reflexivity|].
  destruct (skipsDirectories protocol && isDirectory (type l)); simpl;
    now rewrite IH.
Qed.

End DiffMore.

(** X4: no path is both removed and uploaded.  Every item of the removal
    set is the path and kind of a remote entry whose path no local entry
    has; every item of the upload set is the path and kind of a local
    entry; so the two sets share no path. *)
Theorem removal_and_upload_disjoint
        (protocol : string) (localFiles remoteFiles : list entry) :
  let d := Diff.compare protocol localFiles remoteFiles in
  (forall f, In f (Diff.filesToRemove d) ->
             (exists remoteFile, In remoteFile remoteFiles /\
                                 path remoteFile = itemPath f /\
                                 type remoteFile = itemType f) /\
             ~ In (itemPath f) (map path localFiles)) /\
  (forall f, In f (Diff.filesToUpload d) ->
             exists localFile, In localFile localFiles /\
                               path localFile = itemPath f /\
                               type localFile = itemType f) /\
  (forall f g, In f (Diff.filesToRemove d) -> In g (Diff.filesToUpload d) ->
               itemPath f <> itemPath g).
Proof.
  simpl.
  assert (R : forall f,
             In f (Diff.detectFilesToRemove protocol localFiles remoteFiles) ->
             (exists remoteFile, In remoteFile remoteFiles /\
                                 path remoteFile = itemPath f /\
                                 type remoteFile = itemType f) /\
             ~ In (itemPath f) (map path localFiles)).
  { intros [p k] Hin. apply DiffFacts.In_detectFilesToRemove in Hin.
    destruct Hin as (r & Hr & Hp & Hk & Hf & _). simpl. split.
    - exists r. auto.
    - intros Hl. apply in_map_iff in Hl. destruct Hl as (l & Hlp & Hl).
      apply not_true_iff_false in Hf. apply Hf.
      apply DiffFacts.fileFounded_true. exists l. split; congruence. }
  assert (U : forall f,
             In f (Diff.detectFilesToUpload protocol remoteFiles localFiles) ->
             exists localFile, In localFile localFiles /\
                               path localFile = itemPath f /\
                               type localFile = itemType f).
  { intros [p k] Hin. apply DiffFacts.In_detectFilesToUpload in Hin.
    destruct Hin as (l & Hl & Hp & Hk & _). exists l. simpl. auto. }
  split; [exact R|]. split; [exact U|].
  intros f g Hf Hg E.
  destruct (R f Hf) as [_ Hn]. destruct (U g Hg) as (l & Hl & Hp & _).
  apply Hn. rewrite E, <- Hp. now apply in_map.
Qed.

(** X5: no directory call for a transport without directories.  For
    google-cloud and gitlab-pages neither set holds a directory, whatever
    the two lists contain, and no [removeDirectory] or [uploadDirectory] is
    ever issued. *)
Theorem no_directory_for_flat_transports
        (isBinaryFileSync : string -> bool) (protocol : string)
        (localFiles remoteFiles : list entry) :
  Diff.skipsDirectories protocol = true ->
  let d := Diff.compare protocol localFiles remoteFiles in
  Forall (fun f => itemType f = File) (Diff.filesToRemove d) /\
  Forall (fun f => itemType f = File) (Diff.filesToUpload d) /\
  Forall (fun c => ~ TransferSpec.isDirectoryCall c)
         (Transfer.deploy isBinaryFileSync protocol localFiles remoteFiles).
Proof.
  intros Hs d.
  assert (Kr := DiffMore.detectFilesToRemove_kinds protocol localFiles remoteFiles Hs).
  assert (Ku := DiffMore.detectFilesToUpload_kinds protocol localFiles remoteFiles Hs).
  split; [exact Kr|]. split; [exact Ku|].
  unfold Transfer.deploy. fold d.
  destruct (SortFacts.sortFiles_perm isBinaryFileSync (Diff.filesToRemove d)
              (Diff.filesToUpload d)) as [Pr Pu].
  rewrite TransferFacts.transfer_pump.
  2:{ apply Permutation_length in Pr, Pu. rewrite <- Pr, <- Pu.
      subst d. simpl. unfold Diff.operationsCounter.
      destruct (String.eqb protocol "s3").
      - rewrite DiffFacts.detectFilesToRemove_files,
          DiffFacts.detectFilesToUpload_files by exact Hs. lia.
      - lia. }
  unfold Scheduler.pump.
  destruct (String.eqb protocol "s3"); [repeat constructor; auto|].
  destruct (String.eqb protocol "gitlab-pages"); [repeat constructor; auto|].
  rewrite SchedulerFacts.removalOrder_rev, SchedulerFacts.uploadOrder_rev.
  apply Forall_app. split; [|apply Forall_app; split].
  - apply Forall_forall. intros c Hc. apply in_map_iff in Hc.
    destruct Hc as (f & <- & Hf). apply in_rev in Hf.
    assert (Hk : itemType f = File).
    { rewrite Forall_forall in Kr. apply Kr.
      eapply Permutation_in; [symmetry; exact Pr | exact Hf]. }
    unfold Scheduler.removeCall. rewrite Hk. simpl. auto.
  - apply Forall_forall. intros c Hc. apply in_map_iff in Hc.
    destruct Hc as (f & <- & Hf). apply in_rev in Hf.
    assert (Hk : itemType f = File).
    { rewrite Forall_forall in Ku. apply Ku.
      eapply Permutation_in; [symmetry; exact Pu | exact Hf]. }
    unfold Scheduler.uploadCall. rewrite Hk. simpl. auto.
  - repeat constructor. simpl. auto.
Qed.

Lemma no_directory_for_flat_transports_witness :
  Forall (fun c => ~ TransferSpec.isDirectoryCall c)
         (Transfer.deploy (fun _ => false) "google-cloud"
            [Entry "img" Directory None; Entry "/img/a.png" File (Some "h1")]
            [Entry "old" Directory None; Entry "/old/b.png" File (Some "h2")]).
Proof.
  apply (no_directory_for_flat_transports (fun _ => false) "google-cloud"
           [Entry "img" Directory None; Entry "/img/a.png" File (Some "h1")]
           [Entry "old" Directory None; Entry "/old/b.png" File (Some "h2")]).
  reflexivity.
Defined.

(* ================================================================== *)
(** ** Further properties: the choice of the client *)
(* ================================================================== *)

(** X6: [testConnection] and [initSession] choose the same client for every
    protocol but 'manual', which [initSession] gives to the manual
    deployment and [testConnection], having no such case, to FTP; both fall
    back to FTP for a protocol they do not know. *)
Theorem same_client_unless_manual (protocol : string) :
  (protocol <> "manual" ->
   Connection.testConnection protocol = Connection.initSession protocol) /\
  Connection.testConnection "manual" = Connection.FTP /\
  Connection.initSession "manual" = Connection.ManualDeployment /\
  (~ In protocol ["sftp"; "sftp+key"; "s3"; "git"; "github-pages";
                  "gitlab-pages"; "netlify"; "google-cloud"; "manual"] ->
   Connection.testConnection protocol = Connection.FTP /\
   Connection.initSession protocol = Connection.FTP).
Proof.
  assert (T : forall q, String.eqb protocol q = true -> protocol = q)
    by (intros q; apply String.eqb_eq).
  split; [|split; [reflexivity|split; [reflexivity|]]].
  - intros Hm. unfold Connection.testConnection, Connection.initSession.
    destruct (String.eqb protocol "sftp") eqn:E1; [reflexivity|].
    destruct (String.eqb protocol "sftp+key") eqn:E2; [reflexivity|].
    destruct (String.eqb protocol "s3") eqn:E3; [reflexivity|].
    destruct (String.eqb protocol "netlify") eqn:E4;
      [apply T in E4; subst; reflexivity|].
    destruct (String.eqb protocol "google-cloud") eqn:E5;
      [apply T in E5; subst; reflexivity|].
    destruct (String.eqb protocol "git") eqn:E6; [reflexivity|].
    destruct (String.eqb protocol "github-pages") eqn:E7; [reflexivity|].
    destruct (String.eqb protocol "gitlab-pages") eqn:E8; [reflexivity|].
    destruct (String.eqb protocol "manual") eqn:E9; [|reflexivity].
    apply T in E9. contradiction.
  - intros Hn. simpl in Hn.
    unfold Connection.testConnection, Connection.initSession.
    assert (F : forall q, protocol <> q -> String.eqb protocol q = false)
      by (intros q; apply String.eqb_neq).
    rewrite !F by (intros E; apply Hn; rewrite E; tauto).
    split; reflexivity.
Qed.

Lemma same_client_unless_manual_witness :
  Connection.testConnection "netlify" = Connection.initSession "netlify" /\
  Connection.testConnection "ftps" = Connection.FTP.
Proof.
  split.
  - apply (proj1 (same_client_unless_manual "netlify")). discriminate.
  - apply (proj2 (proj2 (proj2 (same_client_unless_manual "ftps")))).
    simpl. intros H. repeat (destruct H as [H|H]; [discriminate|]). exact H.
Defined.

(* ================================================================== *)
(** ** Further properties: the walk and the inventory *)
(* ================================================================== *)

Module TreeFacts.
Import Inventory InventorySpec InventoryFacts TreeSpec.

Lemma inside_incl (rel : string) (files files' : list node)
      (ancestors : list string) (name listed content : string) :
  incl files files' ->
  inside rel files ancestors name listed content ->
  inside rel files' ancestors name listed content.
Proof.
  intros Hi H. destruct H.
  - apply inside_here. now apply Hi.
  - eapply inside_below; [apply Hi; eassumption | assumption].
Qed.

Lemma dirInside_incl (rel : string) (files files' : list node)
      (ancestors : list string) (name listed : string) :
  incl files files' ->
  dirInside rel files ancestors name listed ->
  dirInside rel files' ancestors name listed.
Proof.
  intros Hi H. destruct H.
  - eapply dir_here. apply Hi. eassumption.
  - eapply dir_below; [apply Hi; eassumption | assumption].
Qed.

Lemma sound_incl (rel : string) (files files' : list node) (x : string * stat) :
  incl files files' -> sound rel files x -> sound rel files' x.
Proof.
  intros Hi. destruct x as [p [|c]]; simpl.
  - intros (a & n & H & G). exists a, n. split; [|exact G].
    now apply (dirInside_incl rel files).
  - intros (a & n & H & G). exists a, n. split; [|exact G].
    now apply (inside_incl rel files).
Qed.

Lemma sound_below (rel dir : string) (children : list node) (x : string * stat) :
  String.eqb dir ".git" = false ->
  sound (enter rel dir) children x ->
  sound rel [DirNode dir children] x.
Proof.
  intros Hd. apply String.eqb_neq in Hd. destruct x as [p [|c]]; simpl.
  - intros (a & n & H & G). exists (dir :: a), n. split.
    + eapply dir_below; [left; reflexivity | exact H].
    + simpl. intros [E|E]; [congruence | contradiction].
  - intros (a & n & H & G & L). exists (dir :: a), n. split; [|split].
    + eapply inside_below; [left; reflexivity | exact H].
    + simpl. intros [E|E]; [congruence | contradiction].
    + exact L.
Qed.

Lemma forEachEntry_cons (rel : string) (f : node) (files : list node) :
  forEachEntry rel (f :: files) []
  = readEntry rel f [] ++ forEachEntry rel files [].
Proof.
  simpl. apply forEachEntry_appends.
  apply Forall_forall. intros m _. apply readEntry_appends.
Qed.

Lemma forEachEntry_sound (files : list node) :
  Forall (fun n => forall rel x, In x (readEntry rel n []) -> sound rel [n] x)
         files ->
  forall rel x, In x (forEachEntry rel files []) -> sound rel files x.
Proof.
  induction 1 as [|n files Hn _ IH]; intros rel x Hx; [contradiction|].
  rewrite forEachEntry_cons in Hx. apply in_app_or in Hx.
  destruct Hx as [Hx|Hx].
  - apply (sound_incl rel [n]); [|now apply Hn].
    intros y [<-|[]]. now left.
  - apply (sound_incl rel files); [|now apply IH].
    intros y Hy. now right.
Qed.

Lemma readEntry_sound (n : node) :
  forall rel x, In x (readEntry rel n []) -> sound rel [n] x.
Proof.
  induction n as [name content|name children IH] using node_induction;
    intros rel x Hx.
  - simpl in Hx. destruct (String.eqb name ".git") eqn:Hg; [contradiction|].
    destruct (notHidden name || String.eqb name ".htaccess"
              || String.eqb name "_redirects") eqn:Hv; [|contradiction].
    destruct Hx as [<-|[]]. simpl. exists [], name. split; [|split].
    + apply inside_here. now left.
    + tauto.
    + split; [now apply String.eqb_neq|].
      apply orb_prop in Hv. destruct Hv as [Hv|Hv].
      * apply orb_prop in Hv. destruct Hv as [Hv|Hv]; [now left|].
        right. now apply String.eqb_eq.
      * apply String.eqb_eq in Hv. subst. now left.
  - rewrite readEntry_dir in Hx.
    destruct (String.eqb name ".git") eqn:Hg; [contradiction|].
    rewrite (forEachEntry_appends children) in Hx
      by (apply Forall_forall; intros m _; apply readEntry_appends).
    simpl in Hx. destruct Hx as [<-|Hx].
    + simpl. exists [], name. split.
      * eapply dir_here. left. reflexivity.
      * simpl. apply String.eqb_neq in Hg. intros [E|[]]. congruence.
    + apply sound_below; [exact Hg|].
      now apply forEachEntry_sound.
Qed.

Lemma readDirRecursiveSync_sound (root : list node) (x : string * stat) :
  In x (readDirRecursiveSync root) -> sound EmptyString root x.
Proof.
  apply forEachEntry_sound. apply Forall_forall. intros n _.
  apply readEntry_sound.
Qed.

Lemma dirInside_listed (rel : string) (files : list node)
      (ancestors : list string) (name listed : string) :
  dirInside rel files ancestors name listed ->
  ~ In ".git" (ancestors ++ [name]) ->
  forall fl, In (listed, isDir) (forEachEntry rel files fl).
Proof.
  intros H Hgit.
  induction H as [rel files name children Hin
                 |rel files dir children ancestors name listed Hin _ IH];
    intros fl.
  - apply (forEachEntry_In rel (DirNode name children)); [exact Hin|].
    rewrite readEntry_dir.
    destruct (String.eqb name ".git") eqn:Hd.
    + apply String.eqb_eq in Hd. subst. exfalso. apply Hgit. simpl. auto.
    + rewrite (forEachEntry_appends children)
        by (apply Forall_forall; intros m _; apply readEntry_appends).
      simpl. now left.
  - apply (forEachEntry_In rel (DirNode dir children)); [exact Hin|].
    rewrite readEntry_dir.
    destruct (String.eqb dir ".git") eqn:Hd.
    + apply String.eqb_eq in Hd. subst. exfalso. apply Hgit. simpl. auto.
    + apply IH. intros Hc. apply Hgit. simpl. now right.
Qed.

Lemma dirInside_slash (rel : string) (files : list node)
      (ancestors : list string) (name listed : string) :
  dirInside rel files ancestors name listed ->
  startsWithSlash rel \/ (rel = EmptyString /\ ancestors <> []) ->
  startsWithSlash listed.
Proof.
  induction 1 as [rel files name children Hin
                 |rel files dir children ancestors name listed Hin _ IH];
    intros [[r ->]|[-> Hne]].
  - eexists. reflexivity.
  - congruence.
  - apply IH. left. eexists. reflexivity.
  - apply IH. left. eexists. reflexivity.
Qed.

Lemma listing_exact (root : list node) :
  (forall listed content,
      In (listed, isRegular content) (readDirRecursiveSync root)
      <->
      exists ancestors name,
        inside EmptyString root ancestors name listed content /\
        ~ In ".git" ancestors /\ listedName name) /\
  (forall listed,
      In (listed, isDir) (readDirRecursiveSync root)
      <->
      exists ancestors name,
        dirInside EmptyString root ancestors name listed /\
        ~ In ".git" (ancestors ++ [name])).
Proof.
  split.
  - intros listed content. split.
    + apply (readDirRecursiveSync_sound root (listed, isRegular content)).
    + intros (a & n & H & G & Hn & Hv).
      apply (inside_listed _ _ _ _ _ _ H G).
      * now apply String.eqb_neq.
      * destruct Hv as [Hv| ->]; [now rewrite Hv | reflexivity].
  - intros listed. split.
    + apply (readDirRecursiveSync_sound root (listed, isDir)).
    + intros (a & n & H & G). now apply (dirInside_listed _ _ _ _ _ H G).
Qed.

End TreeFacts.

(** X7: what the walk lists.  A file is in the list of
    [readDirRecursiveSync] exactly when it is a file of the tree that is not
    named [.git], has no [.git] directory above it and whose name does not
    start with a dot, [.htaccess] excepted; a directory is in the list
    exactly when neither it nor a directory above it is named [.git] - so
    hidden directories are walked and listed while hidden files are not. *)
Theorem walk_lists_exactly (root : list Inventory.node) :
  (forall listed content,
      In (listed, Inventory.isRegular content) (Inventory.readDirRecursiveSync root)
      <->
      exists ancestors name,
        InventorySpec.inside EmptyString root ancestors name listed content /\
        ~ In ".git" ancestors /\ TreeSpec.listedName name) /\
  (forall listed,
      In (listed, Inventory.isDir) (Inventory.readDirRecursiveSync root)
      <->
      exists ancestors name,
        TreeSpec.dirInside EmptyString root ancestors name listed /\
        ~ In ".git" (ancestors ++ [name])).
Proof.
  split.
  - intros listed content. split.
    + apply (TreeFacts.readDirRecursiveSync_sound root
               (listed, Inventory.isRegular content)).
    + intros (a & n & H & G & Hn & Hv).
      apply (InventoryFacts.inside_listed _ _ _ _ _ _ H G).
      * now apply String.eqb_neq.
      * destruct Hv as [Hv| ->]; [now rewrite Hv | reflexivity].
  - intros listed. split.
    + apply (TreeFacts.readDirRecursiveSync_sound root (listed, Inventory.isDir)).
    + intros (a & n & H & G). now apply (TreeFacts.dirInside_listed _ _ _ _ _ H G).
Qed.

Module BuilderFacts.
Import Inventory InventorySpec InventoryFacts TreeSpec TreeFacts.

Section Builder.
Variable md5 : string -> string.
Variable isBinaryFile : string -> bool.
Variable protocol : string.

Local Abbreviation build := (buildFileList md5 isBinaryFile protocol).
Local Abbreviation pushedBy := (pushed md5 isBinaryFile protocol).

Lemma buildFileList_flat : forall tempFileList fileList,
    build tempFileList = Some fileList ->
    fileList = flat_map pushedBy tempFileList.
Proof.
  induction tempFileList as [|[p st] tl IH]; intros fileList Hb; simpl in Hb.
  - now injection Hb as <-.
  - assert (Hpush : forall e l0,
               option_map (cons e) (build tl) = Some l0 ->
               l0 = e :: flat_map pushedBy tl).
    { intros e l0 H0. destruct (build tl) as [l1|]; [|discriminate].
      injection H0 as <-. f_equal. now apply IH. }
    simpl. destruct (String.eqb p ".git"); [now apply IH|].
    destruct (String.eqb p ".htaccess" || String.eqb p "_redirects").
    + destruct (notExcluded protocol).
      * destruct st; [discriminate | now apply Hpush].
      * destruct st; now apply IH.
    + destruct st.
      * destruct (listsDirectories protocol); [now apply Hpush | now apply IH].
      * now apply Hpush.
Qed.

Lemma buildFileList_None : forall tempFileList,
    build tempFileList = None <->
    notExcluded protocol = true /\
    exists p, isSpecialName p /\ In (p, isDir) tempFileList.
Proof.
  assert (Sp : forall p, String.eqb p ".htaccess" || String.eqb p "_redirects"
                         = true <-> isSpecialName p).
  { intros p. unfold isSpecialName. rewrite orb_true_iff, !String.eqb_eq. tauto. }
  induction tempFileList as [|[p st] tl IH]; simpl.
  - split; [discriminate | intros (_ & q & _ & [])].
  - assert (Hpush : forall e, option_map (cons e) (build tl) = None
                              <-> build tl = None).
    { intros e. destruct (build tl); simpl; split; congruence. }
    assert (Hother : (notExcluded protocol = true /\
                      exists q, isSpecialName q /\ In (q, isDir) tl) ->
                     notExcluded protocol = true /\
                     exists q, isSpecialName q /\ ((p, st) = (q, isDir) \/ In (q, isDir) tl)).
    { intros (H1 & q & H2 & H3). split; [exact H1|]. exists q. auto. }
    destruct (String.eqb p ".git") eqn:Hg.
    + rewrite IH. split; [exact Hother|].
      intros (H1 & q & H2 & [E|H3]).
      * injection E as -> _. apply String.eqb_eq in Hg. subst.
        destruct H2; discriminate.
      * split; [exact H1|]. exists q. auto.
    + destruct (String.eqb p ".htaccess" || String.eqb p "_redirects") eqn:Hs.
      * apply Sp in Hs. destruct (notExcluded protocol) eqn:Hx.
        -- destruct st.
           ++ split; [|reflexivity]. intros _. split; [reflexivity|].
              exists p. auto.
           ++ rewrite Hpush, IH. split; [exact Hother|].
              intros (H1 & q & H2 & [E|H3]); [discriminate|].
              split; [exact H1|]. exists q. auto.
        -- rewrite IH. split; [intros (H1 & _); discriminate|].
           intros (H1 & _); discriminate.
      * assert (Hn : ~ isSpecialName p)
          by (intros H; apply Sp in H; congruence).
        assert (Hback : (notExcluded protocol = true /\
                         exists q, isSpecialName q /\
                                   ((p, st) = (q, isDir) \/ In (q, isDir) tl)) ->
                        notExcluded protocol = true /\
                        exists q, isSpecialName q /\ In (q, isDir) tl).
        { intros (H1 & q & H2 & [E|H3]).
          - injection E as -> _. contradiction.
          - split; [exact H1|]. exists q. auto. }
        destruct st.
        -- destruct (listsDirectories protocol); rewrite ?Hpush, IH;
             split; auto.
        -- rewrite Hpush, IH. split; auto.
Qed.

End Builder.

Lemma special_not_slash (p : string) :
  isSpecialName p -> ~ startsWithSlash p.
Proof. intros [-> | ->] [r E]; discriminate. Qed.

Lemma git_not_slash : ~ startsWithSlash ".git".
Proof. intros [r E]. discriminate. Qed.

(** A listed path that does not start with a slash is a name of the root. *)
Lemma inside_root (root : list node) (ancestors : list string)
      (name listed content : string) :
  inside EmptyString root ancestors name listed content ->
  (ancestors = [] /\ listed = name) \/ (ancestors <> [] /\ startsWithSlash listed).
Proof.
  intros H. destruct ancestors as [|a anc].
  - left. split; [reflexivity|]. now inversion H.
  - right. split; [discriminate|].
    apply (inside_slash _ _ _ _ _ _ H). right. split; [reflexivity|discriminate].
Qed.

Lemma dirInside_root (root : list node) (ancestors : list string)
      (name listed : string) :
  dirInside EmptyString root ancestors name listed ->
  (ancestors = [] /\ listed = name /\ exists children, In (DirNode name children) root)
  \/ (ancestors <> [] /\ startsWithSlash listed).
Proof.
  intros H. destruct ancestors as [|a anc].
  - left. inversion H; subst. split; [reflexivity|]. split; [reflexivity|]. eauto.
  - right. split; [discriminate|].
    apply (dirInside_slash _ _ _ _ _ H). right. split; [reflexivity|discriminate].
Qed.

End BuilderFacts.

(** X8: two ways the inventory step raises.  [prepareLocalFilesList]
    raises, and writes no list, when a directory at the root of the input
    directory is named [.htaccess] or [_redirects] and the transport is not
    one of the four that skip these names (the directory is read as a
    file), and, for every transport, when a directory at the root is named
    [files.publii.json] (the list cannot be written). *)
Theorem inventory_step_raises
        (md5 : string -> string) (isBinaryFile : string -> bool)
        (protocol : string) (JSON_stringify : list entry -> string)
        (place : nat) (d : Workspace.disk) :
  (Inventory.notExcluded protocol = true /\
   exists name children,
     InventorySpec.isSpecialName name /\
     In (Inventory.DirNode name children) (Workspace.inputDir d)) \/
  (exists children,
      In (Inventory.DirNode "files.publii.json" children) (Workspace.inputDir d)) ->
  Workspace.prepareLocalFilesList md5 protocol JSON_stringify isBinaryFile place d
  = None.
Proof.
  unfold Workspace.prepareLocalFilesList.
  intros [(Hx & name & children & Hs & Hin)|(children & Hin)].
  - assert (E : Inventory.prepareLocalFilesList md5 isBinaryFile protocol
                  (Workspace.inputDir d) = None).
    { unfold Inventory.prepareLocalFilesList.
      apply BuilderFacts.buildFileList_None. split; [exact Hx|].
      exists name. split; [exact Hs|].
      apply (TreeFacts.dirInside_listed EmptyString _ [] name name).
      - exact (TreeSpec.dir_here EmptyString _ name children Hin).
      - simpl. intros [E|[]]. destruct Hs as [-> | ->]; discriminate. }
    now rewrite E.
  - destruct (Inventory.prepareLocalFilesList md5 isBinaryFile protocol
                (Workspace.inputDir d)) as [fileList|]; [|reflexivity].
    unfold Workspace.writeFile.
    assert (E : existsb (Workspace.isDirectoryNamed Workspace.manifest)
                        (Workspace.inputDir d) = true).
    { apply existsb_exists. eexists. split; [exact Hin|]. reflexivity. }
    now rewrite E.
Qed.

Lemma inventory_step_raises_witness :
  Workspace.prepareLocalFilesList
    (fun b => b) "ftp" (fun _ => "[files]") (fun _ => false) 0
    (Workspace.Disk [Inventory.FileNode "index.html" "<p>";
                     Inventory.DirNode ".htaccess" []] None None) = None /\
  Workspace.prepareLocalFilesList
    (fun b => b) "s3" (fun _ => "[files]") (fun _ => false) 0
    (Workspace.Disk [Inventory.FileNode "index.html" "<p>";
                     Inventory.DirNode "files.publii.json" []] None None) = None.
Proof.
  split; apply inventory_step_raises.
  - left. split; [reflexivity|]. exists ".htaccess", [].
    split; [left; reflexivity | right; left; reflexivity].
  - right. exists []. right; left; reflexivity.
Defined.

(** X9: the entries of an inventory are well formed.  Every File entry of a
    built inventory carries a digest and every Directory entry carries none:
    the invariant the diff relies on when it compares digests only. *)
Theorem inventory_entries_well_formed
        (md5 : string -> string) (isBinaryFile : string -> bool)
        (protocol : string) (root : list Inventory.node) (fileList : list entry) :
  Inventory.prepareLocalFilesList md5 isBinaryFile protocol root = Some fileList ->
  Forall TreeSpec.wellFormed fileList /\ Forall directoryFree fileList.
Proof.
  intros Hb. apply BuilderFacts.buildFileList_flat in Hb. subst fileList.
  assert (W : Forall TreeSpec.wellFormed
                     (flat_map (TreeSpec.pushed md5 isBinaryFile protocol)
                               (Inventory.readDirRecursiveSync root))).
  { apply Forall_forall. intros e He. apply in_flat_map in He.
    destruct He as ([p st] & _ & He). unfold TreeSpec.pushed in He.
    destruct (String.eqb p ".git"); [contradiction|].
    destruct (String.eqb p ".htaccess" || String.eqb p "_redirects").
    - destruct st; [contradiction|].
      destruct (Inventory.notExcluded protocol); [|contradiction].
      destruct He as [<-|[]]. unfold TreeSpec.wellFormed. simpl. discriminate.
    - destruct st.
      + destruct (Inventory.listsDirectories protocol); [|contradiction].
        destruct He as [<-|[]]. reflexivity.
      + destruct He as [<-|[]]. unfold TreeSpec.wellFormed. simpl. discriminate. }
  split; [exact W|].
  eapply Forall_impl; [|exact W].
  intros e. unfold TreeSpec.wellFormed, directoryFree.
  destruct (type e); [discriminate | auto].
Qed.

Lemma inventory_entries_well_formed_witness :
  Forall directoryFree
         [Entry "img" Directory None; Entry "/img/a.png" File (Some "PNG")].
Proof.
  apply (inventory_entries_well_formed
           (fun b => b) (fun _ => false) "ftp"
           [Inventory.DirNode "img" [Inventory.FileNode "a.png" "PNG"]]).
  reflexivity.
Defined.

Module ExactFacts.
Import Inventory InventorySpec InventoryFacts TreeSpec TreeFacts BuilderFacts.

Lemma special_iff (p : string) :
  String.eqb p ".htaccess" || String.eqb p "_redirects" = true <-> isSpecialName p.
Proof. unfold isSpecialName. rewrite orb_true_iff, !String.eqb_eq. tauto. Qed.

Lemma special_false (p : string) :
  String.eqb p ".htaccess" || String.eqb p "_redirects" = false <-> ~ isSpecialName p.
Proof. rewrite <- special_iff. symmetry. apply not_true_iff_false. Qed.

(** The listed path of a file says whether it is a special name at the
    root, and is never [.git]. *)
Lemma listed_file_path (root : list node) (ancestors : list string)
      (name listed content : string) :
  inside EmptyString root ancestors name listed content ->
  listedName name ->
  String.eqb listed ".git" = false /\
  (isSpecialName listed <-> specialAtRoot ancestors name).
Proof.
  intros H [Hn _]. unfold specialAtRoot.
  destruct (inside_root _ _ _ _ _ H) as [(-> & ->)|(Hne & Hsl)].
  - split; [now apply String.eqb_neq | tauto].
  - split.
    + apply String.eqb_neq. intros ->. exact (git_not_slash Hsl).
    + split; [intros Hs; destruct (special_not_slash _ Hs Hsl) | tauto].
Qed.

Lemma listed_dir_path (root : list node) (ancestors : list string)
      (name listed : string) :
  dirInside EmptyString root ancestors name listed ->
  ~ In ".git" (ancestors ++ [name]) ->
  String.eqb listed ".git" = false /\
  (isSpecialName listed <-> specialAtRoot ancestors name).
Proof.
  intros H Hg. unfold specialAtRoot.
  destruct (dirInside_root _ _ _ _ H) as [(-> & -> & _)|(Hne & Hsl)].
  - split; [|tauto]. apply String.eqb_neq. intros ->. apply Hg. simpl. auto.
  - split.
    + apply String.eqb_neq. intros ->. exact (git_not_slash Hsl).
    + split; [intros Hs; destruct (special_not_slash _ Hs Hsl) | tauto].
Qed.

(** The buffer that is hashed for a binary file holds the digits of the
    size as byte values. *)
Lemma Buffer_from_digits (d : Decimal.uint) :
  Buffer_from (list_ascii_of_string (NilEmpty.string_of_uint d))
  = FingerprintSpec.bytesOfUint d.
Proof.
  unfold Buffer_from.
  induction d; simpl; try reflexivity; now rewrite <- IHd.
Qed.

Lemma fileMD5_hashed (md5 : string -> string) (isBinaryFile : string -> bool)
      (content : string) :
  fileMD5 md5 isBinaryFile content
  = md5 (FingerprintSpec.hashed isBinaryFile content).
Proof.
  unfold fileMD5, FingerprintSpec.hashed, fileSizePrepared, sizeDigits,
    FingerprintSpec.digitBytes.
  destruct (isBinaryFile content); [|reflexivity].
  now rewrite Buffer_from_digits.
Qed.

Lemma stripLeadingSlash_without (listed p : string) :
  p = stripLeadingSlash listed <-> withoutLeadingSlash listed p.
Proof.
  unfold withoutLeadingSlash, startsWithSlash. split.
  - intros ->. destruct listed as [|c rest]; simpl.
    + right. split; [reflexivity|]. intros [r E]. discriminate.
    + destruct (Ascii.ascii_dec c "/"%char) as [->|Hc].
      * left. reflexivity.
      * right. assert (E : stripLeadingSlash (String c rest) = String c rest).
        { simpl. destruct c as [[] [] [] [] [] [] [] []]; try reflexivity.
          now destruct Hc. }
        simpl in E. rewrite E. split; [reflexivity|].
        intros [r Er]. injection Er as ->. now destruct Hc.
  - intros [-> |[-> Hn]]; [reflexivity|].
    destruct p as [|c rest]; [reflexivity|].
    destruct (Ascii.ascii_dec c "/"%char) as [->|Hc].
    + destruct Hn. now exists rest.
    + simpl. destruct c as [[] [] [] [] [] [] [] []]; try reflexivity.
      now destruct Hc.
Qed.

Section Entries.
Variable md5 : string -> string.
Variable isBinaryFile : string -> bool.
Variable protocol : string.
Variable root : list node.
Variable fileList : list entry.
Hypothesis built :
  Inventory.prepareLocalFilesList md5 isBinaryFile protocol root = Some fileList.

(** The entries of a built inventory, in the terms of the loop. *)
Lemma entries_of_the_loop :
  (forall p h,
      In (Entry p File h) fileList <->
      exists ancestors name content,
        InventorySpec.inside EmptyString root ancestors name p content /\
        ~ In ".git" ancestors /\ TreeSpec.listedName name /\
        ((TreeSpec.specialAtRoot ancestors name /\
          Inventory.notExcluded protocol = true /\ h = Some (md5 content)) \/
         (~ TreeSpec.specialAtRoot ancestors name /\
          h = Some (Inventory.fileMD5 md5 isBinaryFile content)))) /\
  (forall p h,
      In (Entry p Directory h) fileList <->
      h = None /\ Inventory.listsDirectories protocol = true /\
      exists ancestors name listed,
        TreeSpec.dirInside EmptyString root ancestors name listed /\
        ~ In ".git" (ancestors ++ [name]) /\
        ~ TreeSpec.specialAtRoot ancestors name /\
        p = Inventory.stripLeadingSlash listed).
Proof.
  pose proof built as Hb. apply BuilderFacts.buildFileList_flat in Hb. subst fileList.
  destruct (TreeFacts.listing_exact root) as [WF WD].
  split.
  - intros p h. rewrite in_flat_map. split.
    + intros ([q st] & Hq & He). unfold TreeSpec.pushed in He.
      destruct (String.eqb q ".git"); [contradiction|].
      destruct (String.eqb q ".htaccess" || String.eqb q "_redirects") eqn:Hs.
      * destruct st as [|c]; [contradiction|].
        destruct (Inventory.notExcluded protocol) eqn:Hx; [|contradiction].
        destruct He as [E|[]]. injection E as -> <-.
        apply WF in Hq. destruct Hq as (anc & name & Hi & Hg & Hn).
        exists anc, name, c.
        split; [exact Hi|]. split; [exact Hg|]. split; [exact Hn|].
        left. split; [|auto].
        apply (ExactFacts.listed_file_path _ _ _ _ _ Hi Hn).
        now apply ExactFacts.special_iff.
      * destruct st as [|c].
        -- destruct (Inventory.listsDirectories protocol); [|contradiction].
           destruct He as [E|[]]. discriminate.
        -- destruct He as [E|[]]. injection E as -> <-.
           apply WF in Hq. destruct Hq as (anc & name & Hi & Hg & Hn).
           exists anc, name, c.
        split; [exact Hi|]. split; [exact Hg|]. split; [exact Hn|].
           right. split; [|reflexivity].
           intros Hsp. apply ExactFacts.special_false in Hs. apply Hs.
           now apply (ExactFacts.listed_file_path _ _ _ _ _ Hi Hn).
    + intros (anc & name & c & Hi & Hg & Hn & Hcase).
      exists (p, Inventory.isRegular c). split.
      * apply WF. exists anc, name. auto.
      * destruct (ExactFacts.listed_file_path _ _ _ _ _ Hi Hn) as [Hgit Hsp].
        unfold TreeSpec.pushed. rewrite Hgit.
        destruct Hcase as [(Hs & Hx & ->)|(Hs & ->)].
        -- apply Hsp in Hs. apply ExactFacts.special_iff in Hs.
           rewrite Hs, Hx. now left.
        -- assert (Hs' : ~ InventorySpec.isSpecialName p) by tauto.
           apply ExactFacts.special_false in Hs'. rewrite Hs'. now left.
  - intros p h. rewrite in_flat_map. split.
    + intros ([q st] & Hq & He). unfold TreeSpec.pushed in He.
      destruct (String.eqb q ".git"); [contradiction|].
      destruct (String.eqb q ".htaccess" || String.eqb q "_redirects") eqn:Hs.
      * destruct st as [|c]; [contradiction|].
        destruct (Inventory.notExcluded protocol); [|contradiction].
        destruct He as [E|[]]. discriminate.
      * destruct st as [|c].
        -- destruct (Inventory.listsDirectories protocol) eqn:Hl; [|contradiction].
           destruct He as [E|[]]. injection E as <- <-.
           apply WD in Hq. destruct Hq as (anc & name & Hd & Hg).
           split; [reflexivity|]. split; [reflexivity|].
           exists anc, name, q.
           split; [exact Hd|]. split; [exact Hg|]. split; [|reflexivity].
           intros Hsp. apply ExactFacts.special_false in Hs. apply Hs.
           now apply (ExactFacts.listed_dir_path _ _ _ _ Hd Hg).
        -- destruct He as [E|[]]. discriminate.
    + intros (-> & Hl & anc & name & listed & Hd & Hg & Hs & ->).
      exists (listed, Inventory.isDir). split.
      * apply WD. exists anc, name. auto.
      * destruct (ExactFacts.listed_dir_path _ _ _ _ Hd Hg) as [Hgit Hsp].
        unfold TreeSpec.pushed. rewrite Hgit.
        assert (Hs' : ~ InventorySpec.isSpecialName listed) by tauto.
        apply ExactFacts.special_false in Hs'. rewrite Hs', Hl. now left.
Qed.

End Entries.

End ExactFacts.

(** X10: what the inventory holds.  When the inventory is built, its File
    entries are exactly the files the walk lists, under their listed path:
    a special name at the root with the digest of its content, and only for
    a transport that does not skip these names; every other file with the
    digest of its bytes, or of the digits of its size when it is binary.
    Its Directory entries are exactly the listed directories other than a
    special name at the root, and only for a transport that lists
    directories: a directory of the root under its name, a directory below
    the root under its listed path without the leading slash. *)
Theorem inventory_holds_exactly
        (md5 : string -> string) (isBinaryFile : string -> bool)
        (protocol : string) (root : list Inventory.node) (fileList : list entry) :
  Inventory.prepareLocalFilesList md5 isBinaryFile protocol root = Some fileList ->
  (forall p h,
      In (Entry p File h) fileList <->
      exists ancestors name content,
        InventorySpec.inside EmptyString root ancestors name p content /\
        ~ In ".git" ancestors /\ TreeSpec.listedName name /\
        ((TreeSpec.specialAtRoot ancestors name /\
          Inventory.notExcluded protocol = true /\ h = Some (md5 content)) \/
         (~ TreeSpec.specialAtRoot ancestors name /\
          h = Some (md5 (FingerprintSpec.hashed isBinaryFile content))))) /\
  (forall p h,
      In (Entry p Directory h) fileList <->
      h = None /\ Inventory.listsDirectories protocol = true /\
      exists ancestors name listed,
        TreeSpec.dirInside EmptyString root ancestors name listed /\
        ~ In ".git" (ancestors ++ [name]) /\
        ~ TreeSpec.specialAtRoot ancestors name /\
        ((ancestors = [] /\ listed = name /\
          TreeSpec.withoutLeadingSlash name p) \/
         (ancestors <> [] /\ listed = String "/"%char p))).
Proof.
  intros Hb.
  destruct (ExactFacts.entries_of_the_loop md5 isBinaryFile protocol root
              fileList Hb) as [HF HD].
  split.
  - intros p h. rewrite HF. split.
    + intros (anc & name & c & Hi & Hg & Hn & Hcase).
      exists anc, name, c. repeat (split; [assumption|]).
      destruct Hcase as [Hs|[Hs ->]]; [now left | right].
      split; [exact Hs|]. now rewrite ExactFacts.fileMD5_hashed.
    + intros (anc & name & c & Hi & Hg & Hn & Hcase).
      exists anc, name, c. repeat (split; [assumption|]).
      destruct Hcase as [Hs|[Hs ->]]; [now left | right].
      split; [exact Hs|]. now rewrite ExactFacts.fileMD5_hashed.
  - intros p h. rewrite HD. split.
    + intros (-> & Hl & anc & name & listed & Hd & Hg & Hs & Hp).
      split; [reflexivity|]. split; [exact Hl|].
      exists anc, name, listed. repeat (split; [assumption|]).
      apply ExactFacts.stripLeadingSlash_without in Hp.
      destruct (BuilderFacts.dirInside_root _ _ _ _ Hd)
        as [(-> & -> & _)|(Hne & [rest ->])].
      * left. auto.
      * right. split; [exact Hne|].
        destruct Hp as [E|[E Hn]].
        -- now injection E as <-.
        -- subst p. destruct Hn. now exists rest.
    + intros (-> & Hl & anc & name & listed & Hd & Hg & Hs & Hp).
      split; [reflexivity|]. split; [exact Hl|].
      exists anc, name, listed. repeat (split; [assumption|]).
      apply ExactFacts.stripLeadingSlash_without.
      destruct Hp as [(_ & -> & Hw)|(_ & ->)]; [exact Hw | now left].
Qed.

Lemma inventory_holds_exactly_witness :
  let root := [Inventory.FileNode ".DS_Store" "junk";
               Inventory.DirNode ".well-known"
                 [Inventory.DirNode "acme"
                    [Inventory.FileNode "token.gif" "GIF89a-token"]]] in
  let fileList := [Entry ".well-known" Directory None;
                   Entry ".well-known/acme" Directory None;
                   Entry "/.well-known/acme/token.gif" File
                         (Some (String (ascii_of_nat 1)
                                   (String (ascii_of_nat 2) EmptyString)))] in
  In (Entry ".well-known/acme" Directory None) fileList /\
  In (Entry "/.well-known/acme/token.gif" File
            (Some (String (ascii_of_nat 1) (String (ascii_of_nat 2) EmptyString))))
     fileList.
Proof.
  intros root fileList.
  destruct (inventory_holds_exactly
              (fun b => b) (String.prefix "GIF") "ftp" root fileList eq_refl)
    as [HF HD].
  split.
  - apply HD. split; [reflexivity|]. split; [reflexivity|].
    exists [".well-known"], "acme", "/.well-known/acme".
    split; [|split; [|split]].
    + eapply TreeSpec.dir_below; [right; left; reflexivity|].
      apply (TreeSpec.dir_here "/.well-known" _ "acme"
               [Inventory.FileNode "token.gif" "GIF89a-token"]).
      left; reflexivity.
    + simpl. intros [E|[E|[]]]; discriminate.
    + intros [E _]. discriminate.
    + right. split; [discriminate | reflexivity].
  - apply HF. exists [".well-known"; "acme"], "token.gif", "GIF89a-token".
    split; [|split; [|split]].
    + eapply InventorySpec.inside_below; [right; left; reflexivity|].
      eapply InventorySpec.inside_below; [left; reflexivity|].
      apply (InventorySpec.inside_here "/.well-known/acme" _ "token.gif"
               "GIF89a-token").
      left; reflexivity.
    + simpl. intros [E|[E|[]]]; discriminate.
    + split; [discriminate | left; reflexivity].
    + right. split; [|reflexivity]. intros [E _]. discriminate.
Defined.

(** Against C5 as first stated.  The buffer hashed for a binary file holds
    the digits of the size as byte values, not the decimal string: a binary
    file of 6 bytes is hashed through the single byte 6, not through the
    character "6".  And a [.htaccess] or [_redirects] at the root is hashed
    by content even when it is binary: two such files of the same size have
    different fingerprints. *)
Lemma fingerprint_counterexample :
  ~ FingerprintSpec.asStated
      (fun bytes => bytes) (String.prefix "GIF") "ftp"
      [Inventory.FileNode "logo.gif" "GIF89a"] /\
  ~ FingerprintSpec.equalSizesEqualFingerprints
      (fun bytes => bytes) (String.prefix "GIF") "ftp"
      [Inventory.FileNode ".htaccess" "GIF-a";
       Inventory.FileNode "_redirects" "GIF-b"].
Proof.
  split.
  - intros H.
    specialize (H [Entry "logo.gif" File
                         (Some (String (ascii_of_nat 6) EmptyString))]
                  [] "logo.gif" "logo.gif" "GIF89a"
                  (String (ascii_of_nat 6) EmptyString) eq_refl).
    assert (E : String (ascii_of_nat 6) EmptyString = "6").
    { apply H.
      - apply (InventorySpec.inside_here EmptyString _ "logo.gif" "GIF89a").
        left; reflexivity.
      - left; reflexivity. }
    discriminate E.
  - intros H.
    specialize (H [Entry ".htaccess" File (Some "GIF-a");
                   Entry "_redirects" File (Some "GIF-b")]
                  [] ".htaccess" ".htaccess" "GIF-a" "GIF-a"
                  [] "_redirects" "_redirects" "GIF-b" "GIF-b" eq_refl).
    assert (E : "GIF-a" = "GIF-b").
    { apply H; try reflexivity.
      - apply (InventorySpec.inside_here EmptyString _ ".htaccess" "GIF-a").
        left; reflexivity.
      - apply (InventorySpec.inside_here EmptyString _ "_redirects" "GIF-b").
        right; left; reflexivity.
      - left; reflexivity.
      - right; left; reflexivity. }
    discriminate E.
Qed.

(** C5: Fingerprint function, as amended.  In every inventory that is
    built, a listed file other than a [.htaccess] or [_redirects] at the
    root has the digest of its bytes when it is not binary, and when it is
    binary the digest of the bytes whose values are the decimal digits of
    its size; so two such binary files of the same size have the same
    fingerprint whatever their content.  A [.htaccess] or [_redirects] at
    the root, for a transport that keeps it, has the digest of its bytes,
    binary or not.  No File entry has another fingerprint. *)
Theorem fingerprint_function
        (md5 : string -> string) (isBinaryFile : string -> bool)
        (protocol : string) (root : list Inventory.node) (fileList : list entry) :
  Inventory.prepareLocalFilesList md5 isBinaryFile protocol root = Some fileList ->
  (forall ancestors name listed content,
      InventorySpec.inside EmptyString root ancestors name listed content ->
      ~ In ".git" ancestors -> TreeSpec.listedName name ->
      ~ TreeSpec.specialAtRoot ancestors name ->
      (isBinaryFile content = false ->
       In (Entry listed File (Some (md5 content))) fileList) /\
      (isBinaryFile content = true ->
       In (Entry listed File
                 (Some (md5 (FingerprintSpec.digitBytes (String.length content)))))
          fileList)) /\
  (forall ancestorsA nameA listedA contentA ancestorsB nameB listedB contentB,
      InventorySpec.inside EmptyString root ancestorsA nameA listedA contentA ->
      InventorySpec.inside EmptyString root ancestorsB nameB listedB contentB ->
      ~ In ".git" ancestorsA -> ~ In ".git" ancestorsB ->
      TreeSpec.listedName nameA -> TreeSpec.listedName nameB ->
      ~ TreeSpec.specialAtRoot ancestorsA nameA ->
      ~ TreeSpec.specialAtRoot ancestorsB nameB ->
      isBinaryFile contentA = true -> isBinaryFile contentB = true ->
      String.length contentA = String.length contentB ->
      exists h, In (Entry listedA File (Some h)) fileList /\
                In (Entry listedB File (Some h)) fileList) /\
  (forall name content,
      In (Inventory.FileNode name content) root ->
      InventorySpec.isSpecialName name ->
      Inventory.notExcluded protocol = true ->
      In (Entry name File (Some (md5 content))) fileList) /\
  (forall p h,
      In (Entry p File h) fileList ->
      exists ancestors name content,
        InventorySpec.inside EmptyString root ancestors name p content /\
        (h = Some (md5 content) \/
         (~ TreeSpec.specialAtRoot ancestors name /\
          isBinaryFile content = true /\
          h = Some (md5 (FingerprintSpec.digitBytes (String.length content)))))).
Proof.
  intros Hb.
  destruct (ExactFacts.entries_of_the_loop md5 isBinaryFile protocol root
              fileList Hb) as [HF _].
  assert (Hput : forall ancestors name listed content,
             InventorySpec.inside EmptyString root ancestors name listed content ->
             ~ In ".git" ancestors -> TreeSpec.listedName name ->
             ~ TreeSpec.specialAtRoot ancestors name ->
             In (Entry listed File
                       (Some (md5 (FingerprintSpec.hashed isBinaryFile content))))
                fileList).
  { intros anc name listed c Hi Hg Hn Hs. apply HF.
    exists anc, name, c. repeat (split; [assumption|]).
    right. split; [exact Hs|]. now rewrite ExactFacts.fileMD5_hashed. }
  split; [|split; [|split]].
  - intros anc name listed c Hi Hg Hn Hs.
    pose proof (Hput _ _ _ _ Hi Hg Hn Hs) as He.
    unfold FingerprintSpec.hashed in He.
    split; intros Hbin; now rewrite Hbin in He.
  - intros aA nA lA cA aB nB lB cB HiA HiB HgA HgB HnA HnB HsA HsB HbA HbB Hlen.
    exists (md5 (FingerprintSpec.digitBytes (String.length cA))). split.
    + pose proof (Hput _ _ _ _ HiA HgA HnA HsA) as He.
      unfold FingerprintSpec.hashed in He. now rewrite HbA in He.
    + pose proof (Hput _ _ _ _ HiB HgB HnB HsB) as He.
      unfold FingerprintSpec.hashed in He. rewrite HbB in He. now rewrite Hlen.
  - intros name c Hin Hsp Hx. apply HF. exists [], name, c.
    split; [exact (InventorySpec.inside_here EmptyString root name c Hin)|].
    split; [simpl; tauto|].
    split.
    + destruct Hsp as [-> | ->]; split;
        try discriminate; [right; reflexivity | left; reflexivity].
    + left. split; [|auto]. split; [reflexivity | exact Hsp].
  - intros p h He. apply HF in He.
    destruct He as (anc & name & c & Hi & _ & _ & Hcase).
    exists anc, name, c. split; [exact Hi|].
    destruct Hcase as [(_ & _ & ->)|(Hs & ->)]; [now left|].
    rewrite ExactFacts.fileMD5_hashed. unfold FingerprintSpec.hashed.
    destruct (isBinaryFile c) eqn:Hbin; [right; auto | now left].
Qed.

Lemma fingerprint_function_witness :
  let root := [Inventory.FileNode "index.html" "<p>hello</p>";
               Inventory.FileNode "logo.gif" "GIF89a-one";
               Inventory.DirNode "media"
                 [Inventory.FileNode "icon.gif" "GIF89a-two"]] in
  let ten := String (ascii_of_nat 1) (String (ascii_of_nat 0) EmptyString) in
  let fileList := [Entry "index.html" File (Some "<p>hello</p>");
                   Entry "logo.gif" File (Some ten);
                   Entry "media" Directory None;
                   Entry "/media/icon.gif" File (Some ten)] in
  In (Entry "index.html" File (Some "<p>hello</p>")) fileList /\
  exists h, In (Entry "logo.gif" File (Some h)) fileList /\
            In (Entry "/media/icon.gif" File (Some h)) fileList.
Proof.
  intros root ten fileList.
  destruct (fingerprint_function
              (fun bytes => bytes) (String.prefix "GIF") "ftp" root fileList
              eq_refl) as (H1 & H2 & _).
  assert (Hlogo : InventorySpec.inside EmptyString root [] "logo.gif" "logo.gif"
                                       "GIF89a-one").
  { apply (InventorySpec.inside_here EmptyString root "logo.gif" "GIF89a-one").
    right; left; reflexivity. }
  assert (Hicon : InventorySpec.inside EmptyString root ["media"] "icon.gif"
                                       "/media/icon.gif" "GIF89a-two").
  { eapply InventorySpec.inside_below; [right; right; left; reflexivity|].
    apply (InventorySpec.inside_here "/media" _ "icon.gif" "GIF89a-two").
    left; reflexivity. }
  split.
  - apply (H1 [] "index.html" "index.html" "<p>hello</p>").
    + apply (InventorySpec.inside_here EmptyString root "index.html" "<p>hello</p>").
      left; reflexivity.
    + simpl; tauto.
    + split; [discriminate | left; reflexivity].
    + intros [_ [E|E]]; discriminate.
    + reflexivity.
  - apply (H2 _ _ _ _ _ _ _ _ Hlogo Hicon); try reflexivity.
    + simpl; tauto.
    + simpl. intros [E|[]]. discriminate.
    + split; [discriminate | left; reflexivity].
    + split; [discriminate | left; reflexivity].
    + intros [_ [E|E]]; discriminate.
    + intros [E _]. discriminate.
Defined.

Module FingerprintFacts.
Import Inventory FingerprintSpec.

Lemma uintOfBuffer_digits (d : Decimal.uint) :
  uintOfBuffer (Buffer_from (list_ascii_of_string (NilEmpty.string_of_uint d))) = d.
Proof.
  unfold Buffer_from.
  induction d; simpl; try reflexivity; unfold digitOfByte; simpl;
    now rewrite IHd.
Qed.

Lemma sizeOfBuffer_prepared (content : string) :
  sizeOfBuffer (fileSizePrepared content) = String.length content.
Proof.
  unfold sizeOfBuffer, fileSizePrepared, sizeDigits.
  rewrite uintOfBuffer_digits. apply DecimalNat.Unsigned.of_to.
Qed.

End FingerprintFacts.

(** X11: the digest input of a binary file is its size and nothing else.
    The buffer that is hashed for a binary file reads back, digit by digit,
    as the size of the file; so two binary files are given the same digest
    input exactly when they have the same size. *)
Theorem binary_digest_input_is_the_size :
  (forall content,
      FingerprintSpec.sizeOfBuffer (Inventory.fileSizePrepared content)
      = String.length content) /\
  (forall contentA contentB,
      Inventory.fileSizePrepared contentA = Inventory.fileSizePrepared contentB
      <-> String.length contentA = String.length contentB).
Proof.
  split; [exact FingerprintFacts.sizeOfBuffer_prepared|].
  intros a b. split.
  - intros E. rewrite <- (FingerprintFacts.sizeOfBuffer_prepared a),
      <- (FingerprintFacts.sizeOfBuffer_prepared b). now rewrite E.
  - intros E. unfold Inventory.fileSizePrepared. now rewrite E.
Qed.

(* ================================================================== *)
(** ** Further properties: resolution, diff on files, session *)
(* ================================================================== *)

Module SnapshotMore.
Import Snapshot SnapshotSpec.

Section Resolver.
Variable md5 : string -> string.
Variable JSON_parse : string -> option json.
Variable protocol : string.

Local Abbreviation compareFilesList := (Snapshot.compareFilesList JSON_parse protocol).

Lemma compareFilesList_false (s : store) (localFiles : list entry) :
  localListIs JSON_parse s localFiles ->
  compareFilesList false s = Some (Diff.compare protocol localFiles []).
Proof.
  intros (text & Hs & Hne & Hp). unfold Snapshot.compareFilesList.
  rewrite Hs. destruct text as [|c t]; [congruence|]. now rewrite Hp.
Qed.

Lemma compare_nil (localFiles : list entry) :
  Diff.filesToRemove (Diff.compare protocol localFiles []) = [] /\
  Diff.filesToUpload (Diff.compare protocol localFiles [])
  = everyLocalEntry protocol localFiles.
Proof. split; [reflexivity|]. apply DiffMore.detectFilesToUpload_nil. Qed.

End Resolver.
End SnapshotMore.

(** X12: what the resolution writes.  [checkLocalListWithRemoteList] never
    changes [files.publii.json] or [sync-revision.json]; it leaves
    [files-remote.json] alone too, unless the fetched manifest parses and
    has no (truthy) revision, in which case the fetched bytes replace it
    and the verdict is [true]. *)
Theorem resolution_writes_only_legacy_list
        (md5 : string -> string) (JSON_parse : string -> option Snapshot.json)
        (protocol : string) (fileContent : string) (s : Snapshot.store) :
  let r := Snapshot.checkLocalListWithRemoteList md5 JSON_parse protocol
                                                 fileContent s in
  Snapshot.files_publii_json (Snapshot.after r) = Snapshot.files_publii_json s /\
  Snapshot.sync_revision_json (Snapshot.after r) = Snapshot.sync_revision_json s /\
  (Snapshot.files_remote_json (Snapshot.after r) = Snapshot.files_remote_json s \/
   (Snapshot.files_remote_json (Snapshot.after r) = Some fileContent /\
    hd false (Snapshot.invoked r) = true /\
    exists doc revision,
      JSON_parse fileContent = Some doc /\
      Snapshot.get_revision doc = Some revision /\
      Snapshot.truthy revision = false)).
Proof.
  intros r. subst r. unfold Snapshot.checkLocalListWithRemoteList.
  destruct (Snapshot.resolve md5 JSON_parse fileContent s) as [[[v s'] rt]|] eqn:E.
  2:{ simpl. auto. }
  assert (H : Snapshot.files_publii_json s' = Snapshot.files_publii_json s /\
              Snapshot.sync_revision_json s' = Snapshot.sync_revision_json s /\
              (Snapshot.files_remote_json s' = Snapshot.files_remote_json s \/
               (Snapshot.files_remote_json s' = Some fileContent /\ v = true /\
                exists doc revision,
                  JSON_parse fileContent = Some doc /\
                  Snapshot.get_revision doc = Some revision /\
                  Snapshot.truthy revision = false))).
  { unfold Snapshot.resolve in E.
    destruct (JSON_parse fileContent) as [content|]; [|discriminate].
    destruct (match Snapshot.sync_revision_json s with
              | Some t => _ | None => _ end) as [revisionID|]; [|discriminate].
    destruct (Snapshot.get_revision content) as [revision|] eqn:Hr; [|discriminate].
    destruct (Snapshot.truthy revision) eqn:Ht.
    - destruct (Snapshot.files_remote_json s) eqn:Hrem; [|discriminate].
      destruct (Snapshot.truthy revisionID); injection E as _ <- _;
        (split; [reflexivity|]; split; [reflexivity|]; left; exact Hrem).
    - injection E as <- <- _. simpl. split; [reflexivity|]. split; [reflexivity|].
      right. split; [reflexivity|]. split; [reflexivity|].
      exists content, revision. auto. }
  destruct H as (H1 & H2 & H3).
  destruct (Snapshot.compareFilesList JSON_parse protocol v s'); simpl;
    (split; [exact H1|]; split; [exact H2|]);
    (destruct H3 as [H3|(H3 & -> & H4)]; [left; exact H3 | right; auto]).
Qed.

(** X13: an untrusted snapshot forces a full upload.  When the revision of
    the fetched manifest is not the cached one, the diff is made with
    [compareFilesList(false)]: whatever [files-remote.json] holds, nothing
    is removed and every local entry is uploaded (directories excepted for a
    transport that skips them). *)
Theorem revision_mismatch_uploads_everything
        (md5 : string -> string) (JSON_parse : string -> option Snapshot.json)
        (protocol : string) (fileContent cached remoteList : string)
        (R0 R1 : string) (s : Snapshot.store) (localFiles : list entry) :
  JSON_parse fileContent = Some (Snapshot.JObject (Snapshot.str R1)) ->
  Snapshot.sync_revision_json s = Some cached ->
  JSON_parse cached = Some (Snapshot.JObject (Snapshot.str R0)) ->
  Snapshot.files_remote_json s = Some remoteList ->
  R0 <> EmptyString -> R1 <> EmptyString -> R0 <> R1 ->
  SnapshotSpec.localListIs JSON_parse s localFiles ->
  let r := Snapshot.checkLocalListWithRemoteList md5 JSON_parse protocol
                                                 fileContent s in
  Snapshot.invoked r = [false] /\
  exists d, Snapshot.outcome r = Some d /\
            Diff.filesToRemove d = [] /\
            Diff.filesToUpload d = SnapshotSpec.everyLocalEntry protocol localFiles.
Proof.
  intros Hf Hs Hc Hr H0 H1 Hne Hl r. subst r.
  unfold Snapshot.checkLocalListWithRemoteList.
  assert (E : Snapshot.resolve md5 JSON_parse fileContent s
              = Some (false, s, Snapshot.byRevision)).
  { unfold Snapshot.resolve. rewrite Hf, Hs, Hc, Hr. simpl.
    apply String.eqb_neq in H0, H1, Hne. now rewrite H0, H1, Hne. }
  rewrite E.
  rewrite (SnapshotMore.compareFilesList_false JSON_parse protocol s localFiles Hl).
  simpl. split; [reflexivity|]. eexists. split; [reflexivity|].
  split; [reflexivity|]. apply DiffMore.detectFilesToUpload_nil.
Qed.

Lemma revision_mismatch_uploads_everything_witness :
  let JSON_parse := fun text : string =>
    if String.eqb text "new" then Some (Snapshot.JObject (Snapshot.str "R1"))
    else if String.eqb text "old" then Some (Snapshot.JObject (Snapshot.str "R0"))
    else if String.eqb text "[local]"
         then Some (Snapshot.JArray [Entry "a.txt" File (Some "h1")])
         else None in
  let s := Snapshot.Store (Some "[local]") (Some "[remote]") (Some "old") in
  Snapshot.invoked
    (Snapshot.checkLocalListWithRemoteList (fun b => b) JSON_parse "ftp" "new" s)
  = [false] /\
  exists d,
    Snapshot.outcome
      (Snapshot.checkLocalListWithRemoteList (fun b => b) JSON_parse "ftp" "new" s)
    = Some d /\
    Diff.filesToRemove d = [] /\
    Diff.filesToUpload d
    = SnapshotSpec.everyLocalEntry "ftp" [Entry "a.txt" File (Some "h1")].
Proof.
  intros JSON_parse s.
  apply (revision_mismatch_uploads_everything
           (fun b => b) JSON_parse "ftp" "new" "old" "[remote]" "R0" "R1" s
           [Entry "a.txt" File (Some "h1")]); try reflexivity; try discriminate.
  exists "[local]". split; [reflexivity|]. split; [discriminate | reflexivity].
Defined.

(** X14: an unreadable cache is an empty remote list.  When
    [compareFilesList(true)] finds [files-remote.json] empty, or not
    parsable, or parsed to a falsy value ([null], [false], [0]), it goes on
    with an empty remote list: it gives what [compareFilesList(false)]
    gives, nothing to remove and every local entry to upload. *)
Theorem unreadable_cache_is_empty_remote
        (JSON_parse : string -> option Snapshot.json) (protocol : string)
        (s : Snapshot.store) (remoteText : string) (localFiles : list entry) :
  SnapshotSpec.localListIs JSON_parse s localFiles ->
  Snapshot.files_remote_json s = Some remoteText ->
  remoteText = EmptyString \/ JSON_parse remoteText = None \/
  (exists doc, JSON_parse remoteText = Some doc /\
               Snapshot.truthy_doc doc = false) ->
  Snapshot.compareFilesList JSON_parse protocol true s
  = Snapshot.compareFilesList JSON_parse protocol false s /\
  exists d, Snapshot.compareFilesList JSON_parse protocol true s = Some d /\
            Diff.filesToRemove d = [] /\
            Diff.filesToUpload d = SnapshotSpec.everyLocalEntry protocol localFiles.
Proof.
  intros Hl Hr Hbad.
  pose proof (SnapshotMore.compareFilesList_false JSON_parse protocol s localFiles Hl)
    as Hfalse.
  assert (E : Snapshot.compareFilesList JSON_parse protocol true s
              = Some (Diff.compare protocol localFiles [])).
  { destruct Hl as (text & Hs & Hne & Hp). unfold Snapshot.compareFilesList.
    rewrite Hs, Hr. destruct text as [|c t]; [congruence|]. rewrite Hp. simpl.
    destruct Hbad as [-> | [Hn | (doc & Hd & Ht)]].
    - reflexivity.
    - destruct remoteText; [reflexivity|]. now rewrite Hn.
    - destruct remoteText; [reflexivity|]. rewrite Hd.
      destruct (String.eqb protocol "gitlab-pages").
      + destruct doc; try reflexivity. discriminate.
      + now rewrite Ht. }
  split; [now rewrite E, Hfalse|].
  eexists. split; [exact E|].
  split; [reflexivity|]. apply DiffMore.detectFilesToUpload_nil.
Qed.

Lemma unreadable_cache_is_empty_remote_witness :
  let JSON_parse := fun text : string =>
    if String.eqb text "[local]"
    then Some (Snapshot.JArray [Entry "a.txt" File (Some "h1")])
    else None in
  let s := Snapshot.Store (Some "[local]") (Some "{broken") None in
  Snapshot.compareFilesList JSON_parse "ftp" true s
  = Snapshot.compareFilesList JSON_parse "ftp" false s /\
  exists d, Snapshot.compareFilesList JSON_parse "ftp" true s = Some d /\
            Diff.filesToRemove d = [] /\
            Diff.filesToUpload d
            = SnapshotSpec.everyLocalEntry "ftp" [Entry "a.txt" File (Some "h1")].
Proof.
  intros JSON_parse s.
  apply (unreadable_cache_is_empty_remote JSON_parse "ftp" s "{broken"
           [Entry "a.txt" File (Some "h1")]).
  - exists "[local]". split; [reflexivity|]. split; [discriminate | reflexivity].
  - reflexivity.
  - right. left. reflexivity.
Defined.

(** X16: a manifest in the old format is the remote list.  When the
    fetched manifest parses to an array (no revision) and the cached
    revision, if any, can be read, the fetched bytes replace
    [files-remote.json] and the local list is compared with the fetched
    list itself, with the verdict [true]. *)
Theorem old_format_manifest_is_remote_list
        (md5 : string -> string) (JSON_parse : string -> option Snapshot.json)
        (protocol : string) (fileContent : string) (s : Snapshot.store)
        (localFiles remoteFiles : list entry) :
  JSON_parse fileContent = Some (Snapshot.JArray remoteFiles) ->
  fileContent <> EmptyString ->
  (Snapshot.sync_revision_json s = None \/
   exists cached doc revisionID,
     Snapshot.sync_revision_json s = Some cached /\
     JSON_parse cached = Some doc /\
     Snapshot.get_revision doc = Some revisionID) ->
  SnapshotSpec.localListIs JSON_parse s localFiles ->
  let r := Snapshot.checkLocalListWithRemoteList md5 JSON_parse protocol
                                                 fileContent s in
  Snapshot.invoked r = [true] /\
  Snapshot.outcome r = Some (Diff.compare protocol localFiles remoteFiles) /\
  Snapshot.files_remote_json (Snapshot.after r) = Some fileContent.
Proof.
  intros Hf Hne Hsync (text & Hs & Htne & Hp) r. subst r.
  unfold Snapshot.checkLocalListWithRemoteList.
  assert (E : Snapshot.resolve md5 JSON_parse fileContent s
              = Some (true,
                      Snapshot.Store (Snapshot.files_publii_json s)
                                     (Some fileContent)
                                     (Snapshot.sync_revision_json s),
                      Snapshot.legacyList)).
  { unfold Snapshot.resolve. rewrite Hf.
    destruct Hsync as [-> |(cached & doc & v & -> & Hc & Hv)].
    - reflexivity.
    - now rewrite Hc, Hv. }
  rewrite E.
  assert (C : Snapshot.compareFilesList JSON_parse protocol true
                (Snapshot.Store (Snapshot.files_publii_json s) (Some fileContent)
                                (Snapshot.sync_revision_json s))
              = Some (Diff.compare protocol localFiles remoteFiles)).
  { unfold Snapshot.compareFilesList. simpl. rewrite Hs.
    destruct text as [|c t]; [congruence|]. rewrite Hp. simpl.
    destruct fileContent as [|c' t']; [congruence|]. rewrite Hf.
    now destruct (String.eqb protocol "gitlab-pages"). }
  rewrite C. simpl. auto.
Qed.

Lemma old_format_manifest_is_remote_list_witness :
  let JSON_parse := fun text : string =>
    if String.eqb text "[local]"
    then Some (Snapshot.JArray [Entry "a.txt" File (Some "h1")])
    else if String.eqb text "[fetched]"
         then Some (Snapshot.JArray [Entry "a.txt" File (Some "h1");
                                     Entry "b.txt" File (Some "h2")])
         else None in
  let r := Snapshot.checkLocalListWithRemoteList
             (fun b => b) JSON_parse "ftp" "[fetched]"
             (Snapshot.Store (Some "[local]") None None) in
  Snapshot.invoked r = [true] /\
  Snapshot.outcome r
  = Some (Diff.compare "ftp" [Entry "a.txt" File (Some "h1")]
                       [Entry "a.txt" File (Some "h1");
                        Entry "b.txt" File (Some "h2")]) /\
  Snapshot.files_remote_json (Snapshot.after r) = Some "[fetched]".
Proof.
  intros JSON_parse.
  apply (old_format_manifest_is_remote_list
           (fun b => b) JSON_parse "ftp" "[fetched]"
           (Snapshot.Store (Some "[local]") None None)).
  - reflexivity.
  - discriminate.
  - left. reflexivity.
  - exists "[local]". split; [reflexivity|]. split; [discriminate | reflexivity].
Defined.

(** X17: the upgrade path.  With no [sync-revision.json], a manifest that
    bears a revision is trusted exactly when the revision is the md5 of the
    cached [files-remote.json]: if it is, the local list is compared with
    the cached list; if it is not, everything is uploaded and nothing is
    removed. *)
Theorem checksum_decides_without_cached_revision
        (md5 : string -> string) (JSON_parse : string -> option Snapshot.json)
        (protocol : string) (fileContent remoteText revision : string)
        (s : Snapshot.store) (localFiles : list entry) :
  JSON_parse fileContent = Some (Snapshot.JObject (Snapshot.str revision)) ->
  revision <> EmptyString ->
  Snapshot.sync_revision_json s = None ->
  Snapshot.files_remote_json s = Some remoteText ->
  SnapshotSpec.localListIs JSON_parse s localFiles ->
  let r := Snapshot.checkLocalListWithRemoteList md5 JSON_parse protocol
                                                 fileContent s in
  Snapshot.resolve md5 JSON_parse fileContent s
  = Some (String.eqb (md5 remoteText) revision, s, Snapshot.byChecksum) /\
  (md5 remoteText <> revision ->
   Snapshot.invoked r = [false] /\
   Snapshot.outcome r = Some (Diff.compare protocol localFiles [])) /\
  (forall remoteFiles,
      md5 remoteText = revision ->
      remoteText <> EmptyString ->
      JSON_parse remoteText = Some (Snapshot.JArray remoteFiles) ->
      Snapshot.invoked r = [true] /\
      Snapshot.outcome r = Some (Diff.compare protocol localFiles remoteFiles)).
Proof.
  intros Hf Hne Hsync Hrem Hl r. subst r.
  assert (E : Snapshot.resolve md5 JSON_parse fileContent s
              = Some (String.eqb (md5 remoteText) revision, s, Snapshot.byChecksum)).
  { unfold Snapshot.resolve. rewrite Hf, Hsync, Hrem. simpl.
    apply String.eqb_neq in Hne. now rewrite Hne. }
  split; [exact E|].
  unfold Snapshot.checkLocalListWithRemoteList. rewrite E.
  split.
  - intros Hd. apply String.eqb_neq in Hd. rewrite Hd.
    now rewrite (SnapshotMore.compareFilesList_false JSON_parse protocol s
                   localFiles Hl).
  - intros remoteFiles He Hrne Hp. apply String.eqb_eq in He. rewrite He.
    assert (C : Snapshot.compareFilesList JSON_parse protocol true s
                = Some (Diff.compare protocol localFiles remoteFiles)).
    { destruct Hl as (text & Hs & Htne & Hlp).
      unfold Snapshot.compareFilesList. rewrite Hs, Hrem.
      destruct text as [|c t]; [congruence|]. rewrite Hlp. simpl.
      destruct remoteText as [|c' t']; [congruence|]. rewrite Hp.
      now destruct (String.eqb protocol "gitlab-pages"). }
    now rewrite C.
Qed.

Lemma checksum_decides_without_cached_revision_witness :
  let JSON_parse := fun text : string =>
    if String.eqb text "[local]"
    then Some (Snapshot.JArray [Entry "a.txt" File (Some "h1")])
    else if String.eqb text "{rev}"
         then Some (Snapshot.JObject (Snapshot.str "[remote]"))
         else if String.eqb text "[remote]"
              then Some (Snapshot.JArray [Entry "old.txt" File (Some "h0")])
              else None in
  let s := Snapshot.Store (Some "[local]") (Some "[remote]") None in
  Snapshot.resolve (fun b => b) JSON_parse "{rev}" s
  = Some (true, s, Snapshot.byChecksum).
Proof.
  intros JSON_parse s.
  apply (checksum_decides_without_cached_revision
           (fun b => b) JSON_parse "ftp" "{rev}" "[remote]" "[remote]" s
           [Entry "a.txt" File (Some "h1")]); try reflexivity; try discriminate.
  exists "[local]". split; [reflexivity|]. split; [discriminate | reflexivity].
Defined.



(* ================================================================== *)
(** ** The resolution on arbitrary documents *)
(* ================================================================== *)

Module UntypedFacts.
Import Js Untyped UntypedSpec.

Lemma get_None (v : value) (key : string) : get v key = None <-> nullish v.
Proof.
  unfold nullish. destruct v; simpl; split; try discriminate; auto;
    intros [H|H]; discriminate.
Qed.

Lemma get_Some (v : value) (key : string) :
  ~ nullish v -> exists x, get v key = Some x.
Proof.
  intros H. destruct (get v key) as [x|] eqn:E; [now exists x|].
  apply get_None in E. contradiction.
Qed.

Lemma strict_eq_digest (a b : option string) :
  strict_eq (match a with Some d => str d | None => boolean false end)
            (match b with Some d => str d | None => boolean false end)
  = md5_eqb a b.
Proof. now destruct a, b. Qed.

Lemma strict_eq_directory (k : kind) :
  strict_eq (str (kindName k)) (str "directory") = isDirectory k.
Proof. now destruct k. Qed.

Lemma strict_eq_file (k : kind) :
  strict_eq (str (kindName k)) (str "file") = isFile k.
Proof. now destruct k. Qed.

Section Loops.
Variable protocol : string.

(** On lists of entries the loops on parsed values are the loops on
    entries. *)
Lemma fileFounded_encode (remoteFile : entry) : forall localFiles,
    fileFounded (map encode localFiles) (encode remoteFile)
    = Some (Diff.fileFounded localFiles remoteFile).
Proof.
  induction localFiles as [|l rest IH]; simpl; [reflexivity|].
  destruct (String.eqb (path l) (path remoteFile)); [reflexivity|].
  exact IH.
Qed.

Lemma detectFilesToRemove_encode (localFiles : list entry) : forall remoteFiles,
    detectFilesToRemove protocol (array (map encode localFiles))
                        (map encode remoteFiles)
    = Some (map item (Diff.detectFilesToRemove protocol localFiles remoteFiles)).
Proof.
  induction remoteFiles as [|r rest IH]; [reflexivity|].
  cbn [map detectFilesToRemove Diff.detectFilesToRemove iterate].
  rewrite fileFounded_encode.
  destruct (Diff.fileFounded localFiles r); [exact IH|].
  cbn [get encode property String.eqb Ascii.eqb Bool.eqb].
  rewrite strict_eq_directory.
  destruct (Diff.skipsDirectories protocol && isDirectory (type r));
    [exact IH|].
  now rewrite IH.
Qed.

Lemma fileShouldBeUploaded_encode (localFile : entry) : forall remoteFiles,
    fileShouldBeUploaded (map encode remoteFiles) (encode localFile)
    = Some (Diff.fileShouldBeUploaded remoteFiles localFile).
Proof.
  unfold Diff.fileShouldBeUploaded.
  induction remoteFiles as [|r rest IH]; simpl; [reflexivity|].
  destruct (String.eqb (path localFile) (path r)); simpl; [|exact IH].
  rewrite strict_eq_digest.
  destruct (md5_eqb (md5 localFile) (md5 r)); [reflexivity | exact IH].
Qed.

Lemma detectFilesToUpload_encode (remoteFiles : list entry) : forall localFiles,
    detectFilesToUpload protocol (map encode remoteFiles) (map encode localFiles)
    = Some (map item (Diff.detectFilesToUpload protocol remoteFiles localFiles)).
Proof.
  induction localFiles as [|l rest IH]; [reflexivity|].
  cbn [map detectFilesToUpload Diff.detectFilesToUpload].
  rewrite fileShouldBeUploaded_encode.
  destruct (Diff.fileShouldBeUploaded remoteFiles l); [|exact IH].
  cbn [get encode property String.eqb Ascii.eqb Bool.eqb].
  rewrite strict_eq_directory.
  destruct (Diff.skipsDirectories protocol && isDirectory (type l));
    [exact IH|].
  now rewrite IH.
Qed.

Lemma countFiles_item (files : list fileItem) :
  countFiles (map item files) = Diff.countFiles files.
Proof.
  unfold countFiles, Diff.countFiles.
  induction files as [|[p k] rest IH]; simpl; [reflexivity|].
  destruct k; simpl; now rewrite IH.
Qed.

(** The diff of two lists of entries, on their parsed values. *)
Lemma compare_encode (localFiles remoteFiles : list entry) :
  compare protocol (array (map encode localFiles))
          (array (map encode remoteFiles))
  = Some (let d := Diff.compare protocol localFiles remoteFiles in
          Result (map item (Diff.filesToRemove d))
                 (map item (Diff.filesToUpload d))
                 (Diff.operations d)).
Proof.
  unfold compare. cbn [truthy iterate].
  rewrite detectFilesToRemove_encode, detectFilesToUpload_encode. simpl.
  do 2 f_equal. unfold operationsCounter, Diff.operationsCounter.
  now rewrite !countFiles_item, !length_map.
Qed.

(** Items that are not [null] never make the loops raise. *)
Lemma fileFounded_good (remoteFile : value) : forall items,
    ~ nullish remoteFile -> Forall (fun x => ~ nullish x) items ->
    exists b, fileFounded items remoteFile = Some b.
Proof.
  intros items Hr. induction 1 as [|l rest Hl _ IH]; simpl; [now exists false|].
  destruct (get_Some l "path" Hl) as [a ->].
  destruct (get_Some remoteFile "path" Hr) as [b ->].
  destruct (strict_eq a b); [now exists true | exact IH].
Qed.

Lemma detectFilesToRemove_good (localFiles : value) (items : list value) :
  iterate localFiles = Some items ->
  Forall (fun x => ~ nullish x) items ->
  forall remoteItems,
    Forall (fun x => ~ nullish x) remoteItems ->
    exists l, detectFilesToRemove protocol localFiles remoteItems = Some l.
Proof.
  intros Hi Hg. induction 1 as [|r rest Hr _ [l IH]]; simpl; [now exists []|].
  rewrite Hi. destruct (fileFounded_good r items Hr Hg) as [[|] ->];
    [now exists l|].
  destruct (get_Some r "type" Hr) as [t ->].
  destruct (get_Some r "path" Hr) as [p ->].
  destruct (Diff.skipsDirectories protocol && strict_eq t (str "directory"));
    [now exists l|].
  rewrite IH. simpl. eauto.
Qed.

Lemma fileShouldBeUploaded_good (localFile : value) : forall items,
    ~ nullish localFile -> Forall (fun x => ~ nullish x) items ->
    exists b, fileShouldBeUploaded items localFile = Some b.
Proof.
  intros items Hl. induction 1 as [|r rest Hr _ IH]; simpl; [now exists true|].
  destruct (get_Some localFile "path" Hl) as [a ->].
  destruct (get_Some r "path" Hr) as [b ->].
  destruct (strict_eq a b); [|exact IH].
  destruct (get_Some localFile "md5" Hl) as [x ->].
  destruct (get_Some r "md5" Hr) as [y ->].
  destruct (strict_eq x y); [now exists false | exact IH].
Qed.

Lemma detectFilesToUpload_good (remoteItems : list value) :
  Forall (fun x => ~ nullish x) remoteItems ->
  forall items,
    Forall (fun x => ~ nullish x) items ->
    exists l, detectFilesToUpload protocol remoteItems items = Some l.
Proof.
  intros Hg. induction 1 as [|x rest Hx _ [l IH]]; simpl; [now exists []|].
  destruct (fileShouldBeUploaded_good x remoteItems Hx Hg) as [[|] ->];
    [|now exists l].
  destruct (get_Some x "type" Hx) as [t ->].
  destruct (get_Some x "path" Hx) as [p ->].
  destruct (Diff.skipsDirectories protocol && strict_eq t (str "directory"));
    [now exists l|].
  rewrite IH. simpl. eauto.
Qed.

(** A [null] item makes its loop raise, whatever the other list is. *)
Lemma fileFounded_null (remoteFile : value) (items : list value) :
  nullish remoteFile ->
  fileFounded items remoteFile = None \/
  (items = [] /\ fileFounded items remoteFile = Some false).
Proof.
  intros Hr. destruct items as [|l rest]; [now right|]. left. simpl.
  destruct (get l "path"); [|reflexivity].
  now rewrite (proj2 (get_None remoteFile "path") Hr).
Qed.

Lemma detectFilesToRemove_null (localFiles : value) (x : value) :
  nullish x ->
  forall remoteItems,
    In x remoteItems ->
    detectFilesToRemove protocol localFiles remoteItems = None.
Proof.
  intros Hx. induction remoteItems as [|r rest IH]; intros Hin; [contradiction|].
  simpl. destruct (iterate localFiles) as [items|]; [|reflexivity].
  destruct Hin as [->|Hin].
  - destruct (fileFounded_null x items Hx) as [->|[_ ->]]; [reflexivity|].
    now rewrite (proj2 (get_None x "type") Hx).
  - specialize (IH Hin).
    destruct (fileFounded items r) as [[|]|]; [exact IH| |reflexivity].
    destruct (get r "type"); [|reflexivity].
    destruct (get r "path"); [|reflexivity].
    destruct (Diff.skipsDirectories protocol && strict_eq v (str "directory"));
      [exact IH | now rewrite IH].
Qed.

Lemma fileShouldBeUploaded_null (localFile : value) (items : list value) :
  nullish localFile ->
  fileShouldBeUploaded items localFile = None \/
  (items = [] /\ fileShouldBeUploaded items localFile = Some true).
Proof.
  intros Hl. destruct items as [|r rest]; [now right|]. left. simpl.
  now rewrite (proj2 (get_None localFile "path") Hl).
Qed.

Lemma detectFilesToUpload_null (remoteItems : list value) (x : value) :
  nullish x ->
  forall items,
    In x items ->
    detectFilesToUpload protocol remoteItems items = None.
Proof.
  intros Hx. induction items as [|l rest IH]; intros Hin; [contradiction|].
  simpl. destruct Hin as [->|Hin].
  - destruct (fileShouldBeUploaded_null x remoteItems Hx) as [->|[_ ->]];
      [reflexivity|].
    now rewrite (proj2 (get_None x "type") Hx).
  - specialize (IH Hin).
    destruct (fileShouldBeUploaded remoteItems l) as [[|]|];
      [|exact IH|reflexivity].
    destruct (get l "type"); [|reflexivity].
    destruct (get l "path"); [|reflexivity].
    destruct (Diff.skipsDirectories protocol && strict_eq v (str "directory"));
      [exact IH | now rewrite IH].
Qed.

Lemma goesThrough (doc : value) :
  ~ stopsTheLoops doc ->
  exists items, iterate doc = Some items /\ Forall (fun x => ~ nullish x) items.
Proof.
  intros H. destruct (iterate doc) as [items|] eqn:E.
  - exists items. split; [reflexivity|]. apply Forall_forall.
    intros x Hx Hn. apply H. right. exists items, x. auto.
  - destruct H. now left.
Qed.

Lemma nullish_dec (v : value) : {nullish v} + {~ nullish v}.
Proof.
  unfold nullish.
  destruct v; try (right; intros [H|H]; discriminate); left; auto.
Qed.

Lemma stopsTheLoops_dec (doc : value) : stopsTheLoops doc \/ ~ stopsTheLoops doc.
Proof.
  unfold stopsTheLoops. destruct (iterate doc) as [items|]; [|left; now left].
  destruct (Exists_dec nullish items nullish_dec) as [He|Hn].
  - left. right. apply Exists_exists in He. destruct He as (x & Hx & Hn).
    exists items, x. auto.
  - right. intros [H|(items' & x & H & Hx & Hx')]; [discriminate|].
    injection H as <-. apply Hn, Exists_exists. eauto.
Qed.

(** When the two loops raise. *)
Lemma compare_None (localFiles remoteFiles : value) :
  compare protocol localFiles remoteFiles = None <->
  stopsTheLoops localFiles \/ (truthy remoteFiles = true /\ stopsTheLoops remoteFiles).
Proof.
  unfold compare.
  set (R := if truthy remoteFiles then remoteFiles else array []).
  assert (HR : stopsTheLoops R <-> truthy remoteFiles = true /\ stopsTheLoops remoteFiles).
  { subst R. destruct (truthy remoteFiles).
    - tauto.
    - split; [|intros [H _]; discriminate].
      intros [H|(items & x & H & Hx & _)]; [discriminate|].
      injection H as <-. contradiction. }
  rewrite <- HR. clearbody R. clear HR. split.
  - intros H.
    destruct (stopsTheLoops_dec localFiles) as [|HL]; [now left|].
    destruct (stopsTheLoops_dec R) as [|HR]; [now right|].
    exfalso.
    destruct (goesThrough _ HL) as (ls & EL & GL).
    destruct (goesThrough _ HR) as (rs & ER & GR).
    rewrite ER in H.
    destruct (detectFilesToRemove_good localFiles ls EL GL rs GR) as [rm Erm].
    rewrite Erm, EL in H.
    destruct (detectFilesToUpload_good rs GR ls GL) as [up Eup].
    rewrite Eup in H. discriminate.
  - intros [[HL|(ls & x & EL & Hx & Hn)]|[HR|(rs & x & ER & Hx & Hn)]].
    + destruct (iterate R) as [rs|]; [|reflexivity].
      destruct (detectFilesToRemove protocol localFiles rs); [|reflexivity].
      now rewrite HL.
    + destruct (iterate R) as [rs|]; [|reflexivity].
      destruct (detectFilesToRemove protocol localFiles rs); [|reflexivity].
      rewrite EL. now rewrite (detectFilesToUpload_null rs x Hn ls Hx).
    + now rewrite HR.
    + rewrite ER. now rewrite (detectFilesToRemove_null localFiles x Hn rs Hx).
Qed.

Variable JSON_parse : string -> option value.

Lemma readLocalFiles_None (s : Snapshot.store) :
  readLocalFiles JSON_parse s = None <->
  Snapshot.files_publii_json s = None \/
  exists text, Snapshot.files_publii_json s = Some text /\
               text <> EmptyString /\ JSON_parse text = None.
Proof.
  unfold readLocalFiles.
  destruct (Snapshot.files_publii_json s) as [[|c t]|]; split; auto.
  - discriminate.
  - intros [H|(text & H & Hne & _)]; [discriminate|].
    injection H as <-. congruence.
  - intros H. right. exists (String c t). split; [reflexivity|].
    split; [discriminate | exact H].
  - intros [H|(text & H & _ & Hp)]; [discriminate|]. now injection H as <-.
Qed.

Lemma readLocalFiles_Some (s : Snapshot.store) (localFiles : value) :
  readLocalFiles JSON_parse s = Some localFiles ->
  ~ stopsTheLoops localFiles \/
  exists text, Snapshot.files_publii_json s = Some text /\
               text <> EmptyString /\ JSON_parse text = Some localFiles.
Proof.
  unfold readLocalFiles.
  destruct (Snapshot.files_publii_json s) as [[|c t]|]; [| |discriminate].
  - intros H. injection H as <-. left.
    intros [H|(items & x & H & Hx & _)]; [discriminate|].
    injection H as <-. contradiction.
  - intros H. right. exists (String c t). split; [reflexivity|].
    split; [discriminate | exact H].
Qed.

Lemma readLocalFiles_parsed (s : Snapshot.store) (text : string) :
  Snapshot.files_publii_json s = Some text -> text <> EmptyString ->
  readLocalFiles JSON_parse s = JSON_parse text.
Proof.
  intros H Hne. unfold readLocalFiles. rewrite H.
  destruct text; [congruence | reflexivity].
Qed.

Lemma readRemoteFiles_None (flag : bool) (s : Snapshot.store) :
  readRemoteFiles protocol JSON_parse flag s = None <->
  flag = true /\ Snapshot.files_remote_json s = None.
Proof.
  unfold readRemoteFiles. destruct flag.
  - destruct (Snapshot.files_remote_json s) as [[|c t]|].
    + split; [discriminate | intros [_ H]; discriminate].
    + destruct (JSON_parse (String c t)) as [doc|].
      * destruct (String.eqb protocol "gitlab-pages"); [destruct doc|];
          (split; [discriminate | intros [_ H]; discriminate]).
      * split; [discriminate | intros [_ H]; discriminate].
    + tauto.
  - split; [discriminate | intros [H _]; discriminate].
Qed.

Lemma readRemoteFiles_truthy (flag : bool) (s : Snapshot.store) (doc : value) :
  readRemoteFiles protocol JSON_parse flag s = Some doc /\ truthy doc = true <->
  flag = true /\
  exists text, Snapshot.files_remote_json s = Some text /\
               text <> EmptyString /\ JSON_parse text = Some doc /\
               truthy doc = true /\
               (protocol = "gitlab-pages" -> exists items, doc = array items).
Proof.
  unfold readRemoteFiles. split.
  - intros [H Ht]. destruct flag; [|injection H as <-; discriminate].
    split; [reflexivity|].
    destruct (Snapshot.files_remote_json s) as [[|c t]|]; [| |discriminate].
    + injection H as <-. discriminate.
    + exists (String c t). split; [reflexivity|]. split; [discriminate|].
      destruct (JSON_parse (String c t)) as [d|];
        [|injection H as <-; discriminate].
      destruct (String.eqb protocol "gitlab-pages") eqn:Hg.
      * destruct d; injection H as <-; try discriminate.
        split; [reflexivity|]. split; [reflexivity|]. intros _. eauto.
      * injection H as <-. split; [reflexivity|]. split; [exact Ht|].
        intros E. apply String.eqb_neq in Hg. contradiction.
  - intros (-> & text & -> & Hne & Hp & Ht & Hg). split; [|exact Ht].
    destruct text as [|c t]; [congruence|]. rewrite Hp.
    destruct (String.eqb protocol "gitlab-pages") eqn:E; [|reflexivity].
    apply String.eqb_eq in E. destruct (Hg E) as [items ->]. reflexivity.
Qed.

(** With the list just written, [compareFilesList(false)] returns, and
    returns the full upload. *)
Lemma untrusted_is_full_upload (s : Snapshot.store) (localFiles : list entry) :
  localListIs JSON_parse s localFiles ->
  exists r, compareFilesList protocol JSON_parse false s = Some r /\
            fullUpload protocol localFiles r.
Proof.
  intros (text & Hs & Hne & Hp). unfold compareFilesList.
  rewrite (readLocalFiles_parsed s text Hs Hne), Hp.
  change (exists r,
             compare protocol (array (map encode localFiles))
                     (array (map encode [])) = Some r /\
             fullUpload protocol localFiles r).
  rewrite compare_encode. eexists. split; [reflexivity|].
  split; [reflexivity|]. simpl.
  now rewrite DiffMore.detectFilesToUpload_nil.
Qed.

(** The shapes that stop the loops. *)
Lemma unusable_stops (doc : value) : unusable doc <-> stopsTheLoops doc.
Proof.
  unfold stopsTheLoops.
  destruct doc; simpl; split; auto;
    try (intros [H|(items & x & H & _)]; discriminate).
  - intros [].
  - intros [H|(items & x & H & Hx & Hn)]; [discriminate|].
    injection H as <-. apply in_map_iff in Hx. destruct Hx as (c & <- & _).
    destruct Hn; discriminate.
  - intros (x & Hx & Hn). right. exists items, x. auto.
  - intros [H|(items' & x & H & Hx & Hn)]; [discriminate|].
    injection H as <-. eauto.
Qed.

Lemma unusableRemote_stops (doc : value) :
  unusableRemote doc <-> truthy doc = true /\ stopsTheLoops doc.
Proof.
  rewrite <- unusable_stops.
  destruct doc as [| |b|n|text|items|fields]; simpl.
  - split; [intros [] | intros [H _]; discriminate].
  - split; [intros [] | intros [H _]; discriminate].
  - tauto.
  - rewrite negb_true_iff, Z.eqb_neq. tauto.
  - tauto.
  - tauto.
  - tauto.
Qed.

Lemma localListBroken_stops (s : Snapshot.store) :
  localListBroken JSON_parse s <->
  Snapshot.files_publii_json s = None \/
  exists text, Snapshot.files_publii_json s = Some text /\
               text <> EmptyString /\
               (JSON_parse text = None \/
                exists doc, JSON_parse text = Some doc /\ stopsTheLoops doc).
Proof.
  unfold localListBroken. split.
  - intros [H|(text & H & Hne & [Hp|(doc & Hp & Hu)])]; [now left| |];
      right; exists text; split; auto; split; auto.
    right. exists doc. split; [exact Hp|]. now apply unusable_stops.
  - intros [H|(text & H & Hne & [Hp|(doc & Hp & Hu)])]; [now left| |];
      right; exists text; split; auto; split; auto.
    right. exists doc. split; [exact Hp|]. now apply unusable_stops.
Qed.

Lemma remoteListBroken_stops (s : Snapshot.store) :
  remoteListBroken JSON_parse protocol s <->
  Snapshot.files_remote_json s = None \/
  exists text doc, Snapshot.files_remote_json s = Some text /\
                   text <> EmptyString /\
                   JSON_parse text = Some doc /\
                   truthy doc = true /\ stopsTheLoops doc /\
                   (protocol = "gitlab-pages" -> exists items, doc = array items).
Proof.
  unfold remoteListBroken. split.
  - intros [H|(text & doc & H & Hne & Hp & Hu & Hg)]; [now left|].
    right. exists text, doc. apply unusableRemote_stops in Hu. tauto.
  - intros [H|(text & doc & H & Hne & Hp & Ht & Hu & Hg)]; [now left|].
    right. exists text, doc. rewrite unusableRemote_stops. tauto.
Qed.

Variable md5 : string -> string.

Lemma resolve_keeps_list_file (fileContent : string) (s s' : Snapshot.store) (v : bool) :
  resolve JSON_parse md5 fileContent s = Some (v, s') ->
  Snapshot.files_publii_json s' = Snapshot.files_publii_json s.
Proof.
  unfold resolve.
  destruct (JSON_parse fileContent) as [content|]; [|discriminate].
  destruct (match Snapshot.sync_revision_json s with
            | Some t => _ | None => _ end) as [revisionID|]; [|discriminate].
  destruct (get content "revision") as [revision|]; [|discriminate].
  destruct (truthy revision).
  - destruct (Snapshot.files_remote_json s); [|discriminate].
    destruct (truthy revisionID); intros E; now injection E as _ <-.
  - intros E. now injection E as _ <-.
Qed.

End Loops.
End UntypedFacts.

Module AgreementFacts.
Import Js Untyped UntypedSpec.

Lemma get_revision_embed (doc : Snapshot.json) :
  get (embed doc) "revision" = option_map embedRevision (Snapshot.get_revision doc).
Proof. now destruct doc. Qed.

Lemma truthy_embedRevision (v : Snapshot.jsval) :
  truthy (embedRevision v) = Snapshot.truthy v.
Proof. now destruct v. Qed.

Lemma strict_eq_embedRevision (a b : Snapshot.jsval) :
  strict_eq (embedRevision a) (embedRevision b) = Snapshot.strict_eq a b.
Proof. now destruct a, b. Qed.

Lemma truthy_embed (doc : Snapshot.json) :
  truthy (embed doc) = Snapshot.truthy_doc doc.
Proof. now destruct doc. Qed.

Lemma iterate_embed (doc : Snapshot.json) :
  iterate (embed doc) = option_map (map encode) (Snapshot.iterate doc).
Proof. now destruct doc. Qed.

Section Agreement.
Variable md5 : string -> string.
Variable JSON_parse : string -> option Snapshot.json.
Variable protocol : string.

Local Abbreviation parse := (fun text => option_map embed (JSON_parse text)).

Lemma detectFilesToRemove_iterate (localA localB : value) :
  iterate localA = iterate localB ->
  forall remoteItems,
    detectFilesToRemove protocol localA remoteItems
    = detectFilesToRemove protocol localB remoteItems.
Proof.
  intros E. induction remoteItems as [|r rest IH]; simpl; [reflexivity|].
  rewrite E, IH. reflexivity.
Qed.

(** The two loops on the values of two lists, of which the local one may
    be the empty text. *)
Lemma compare_lists (localFiles : value) (localList remoteList : list entry) :
  iterate localFiles = Some (map encode localList) ->
  compare protocol localFiles (array (map encode remoteList))
  = Some (embedResult (Diff.compare protocol localList remoteList)).
Proof.
  intros E.
  transitivity (compare protocol (array (map encode localList))
                        (array (map encode remoteList)));
    [|apply UntypedFacts.compare_encode].
  unfold compare. cbn [truthy iterate]. rewrite E.
  now rewrite (detectFilesToRemove_iterate localFiles
                 (array (map encode localList)) E).
Qed.

Lemma compare_falsy (localFiles remoteFiles : value) :
  truthy remoteFiles = false ->
  compare protocol localFiles remoteFiles
  = compare protocol localFiles (array (map encode [])).
Proof. intros H. unfold compare. now rewrite H. Qed.

Lemma compare_not_iterable (localFiles remoteFiles : value) :
  iterate localFiles = None ->
  compare protocol localFiles remoteFiles = None.
Proof. intros H. apply UntypedFacts.compare_None. left. now left. Qed.

(** On documents of the expected shapes, [compareFilesList] on parsed
    values is [compareFilesList] on entries. *)
Lemma compareFilesList_agrees (flag : bool) (s : Snapshot.store) :
  Untyped.compareFilesList protocol parse flag s
  = option_map embedResult (Snapshot.compareFilesList JSON_parse protocol flag s).
Proof.
  unfold Untyped.compareFilesList, Snapshot.compareFilesList,
    readLocalFiles, readRemoteFiles.
  destruct (Snapshot.files_publii_json s) as [localText|]; [|reflexivity].
  set (typedLocal := match localText with
                     | EmptyString => Some []
                     | String _ _ =>
                         match JSON_parse localText with
                         | Some doc => Snapshot.iterate doc
                         | None => None
                         end
                     end).
  set (rawLocal := match localText with
                   | EmptyString => Some (str EmptyString)
                   | String _ _ => option_map embed (JSON_parse localText)
                   end).
  assert (HL : match rawLocal with
               | None => typedLocal = None
               | Some L => iterate L = option_map (map encode) typedLocal
               end).
  { subst rawLocal typedLocal. destruct localText as [|c t]; [reflexivity|].
    destruct (JSON_parse (String c t)) as [doc|]; simpl; [|reflexivity].
    apply iterate_embed. }
  destruct rawLocal as [L|]; [|now rewrite HL].
  assert (Hcore : forall remoteList,
             compare protocol L (array (map encode remoteList))
             = option_map embedResult
                 match typedLocal with
                 | Some localFiles =>
                     Some (Diff.compare protocol localFiles remoteList)
                 | None => None
                 end).
  { intros remoteList. destruct typedLocal as [l|]; simpl in HL |- *.
    - now apply compare_lists.
    - now apply compare_not_iterable. }
  assert (Hempty : forall R,
             truthy R = false ->
             compare protocol L R
             = option_map embedResult
                 match typedLocal with
                 | Some localFiles => Some (Diff.compare protocol localFiles [])
                 | None => None
                 end).
  { intros R HR. rewrite (compare_falsy L R HR). apply Hcore. }
  destruct flag; [|now apply Hempty].
  destruct (Snapshot.files_remote_json s) as [[|c t]|].
  - now apply Hempty.
  - destruct (JSON_parse (String c t)) as [doc|]; simpl; [|now apply Hempty].
    destruct (String.eqb protocol "gitlab-pages").
    + destruct doc; simpl; try (now apply Hempty). apply Hcore.
    + destruct doc as [|b|n|files|revision]; simpl.
      * now apply Hempty.
      * destruct b; [|now apply Hempty].
        rewrite (proj2 (UntypedFacts.compare_None protocol L (boolean true)));
          [now destruct typedLocal|].
        right. split; [reflexivity | now left].
      * destruct (n =? 0)%Z eqn:Hn; simpl.
        -- apply Hempty. simpl. now rewrite Hn.
        -- rewrite (proj2 (UntypedFacts.compare_None protocol L (number n)));
             [now destruct typedLocal|].
           right. split; [simpl; now rewrite Hn | now left].
      * apply Hcore.
      * rewrite (proj2 (UntypedFacts.compare_None protocol L
                          (object [("revision", embedRevision revision)])));
          [now destruct typedLocal|].
        right. split; [reflexivity | now left].
  - now destruct typedLocal.
Qed.

Lemma resolve_agrees (fileContent : string) (s : Snapshot.store) :
  Untyped.resolve parse md5 fileContent s
  = option_map (fun x => (fst (fst x), snd (fst x)))
               (Snapshot.resolve md5 JSON_parse fileContent s).
Proof.
  unfold Untyped.resolve, Snapshot.resolve.
  destruct (JSON_parse fileContent) as [content|]; simpl; [|reflexivity].
  rewrite get_revision_embed.
  destruct (Snapshot.sync_revision_json s) as [cached|].
  - destruct (JSON_parse cached) as [doc|]; simpl; [|reflexivity].
    rewrite get_revision_embed.
    destruct (Snapshot.get_revision doc) as [revisionID|]; simpl; [|reflexivity].
    destruct (Snapshot.get_revision content) as [revision|]; simpl; [|reflexivity].
    rewrite !truthy_embedRevision, strict_eq_embedRevision.
    destruct (Snapshot.truthy revision); [|reflexivity].
    destruct (Snapshot.files_remote_json s); [|reflexivity].
    destruct (Snapshot.truthy revisionID); [reflexivity|].
    now destruct revision.
  - destruct (Snapshot.get_revision content) as [revision|]; simpl; [|reflexivity].
    rewrite truthy_embedRevision.
    destruct (Snapshot.truthy revision); [|reflexivity].
    destruct (Snapshot.files_remote_json s); [|reflexivity]. simpl.
    now destruct revision.
Qed.

(** On documents of the expected shapes both resolutions make the same
    calls, leave the same files and give the same diff. *)
Lemma resolution_agrees (fileContent : string) (s : Snapshot.store) :
  let typed := Snapshot.checkLocalListWithRemoteList md5 JSON_parse protocol
                                                     fileContent s in
  let untyped := Untyped.checkLocalListWithRemoteList protocol parse md5
                                                      fileContent s in
  Untyped.invoked untyped = Snapshot.invoked typed /\
  Untyped.after untyped = Snapshot.after typed /\
  Untyped.outcome untyped = option_map embedResult (Snapshot.outcome typed).
Proof.
  unfold Untyped.checkLocalListWithRemoteList,
    Snapshot.checkLocalListWithRemoteList.
  rewrite resolve_agrees.
  destruct (Snapshot.resolve md5 JSON_parse fileContent s) as [[[v s'] rt]|];
    simpl.
  - rewrite compareFilesList_agrees.
    destruct (Snapshot.compareFilesList JSON_parse protocol v s'); simpl; auto.
    now rewrite compareFilesList_agrees.
  - now rewrite compareFilesList_agrees.
Qed.

End Agreement.
End AgreementFacts.

(** C8: Resolution never fails.  Whatever the fetched bytes, the cached
    revision file and the cached remote list are (any text, any parsed
    value, or missing), [checkLocalListWithRemoteList] run on the list file
    that [prepareLocalFilesList] has just written returns: its last call of
    [compareFilesList] returns a diff, and it is made with a boolean
    verdict.  The calls are [true] alone, [false] alone, or [true] then
    [false]; when the verdict is [false] nothing is removed and every local
    entry is uploaded.  Every failure ends in the verdict [false]: a
    manifest that does not parse or is [null], a cached revision that does
    not parse or is [null], a revision to check with no cached remote list,
    and a cached remote list on which [compareFilesList(true)] raises. *)
Theorem resolution_never_fails
        (md5 : string -> string) (JSON_parse : string -> option Js.value)
        (protocol fileContent : string) (s : Snapshot.store)
        (localFiles : list entry) :
  UntypedSpec.localListIs JSON_parse s localFiles ->
  let r := Untyped.checkLocalListWithRemoteList protocol JSON_parse md5
                                                fileContent s in
  let verdict := last (Untyped.invoked r) true in
  (exists result,
      Untyped.outcome r = Some result /\
      Untyped.compareFilesList protocol JSON_parse verdict (Untyped.after r)
      = Some result /\
      (verdict = false -> UntypedSpec.fullUpload protocol localFiles result)) /\
  (Untyped.invoked r = [true] \/ Untyped.invoked r = [false] \/
   Untyped.invoked r = [true; false]) /\
  (JSON_parse fileContent = None \/ JSON_parse fileContent = Some Js.null ->
   Untyped.invoked r = [false]) /\
  (forall cached,
      Snapshot.sync_revision_json s = Some cached ->
      JSON_parse cached = None \/ JSON_parse cached = Some Js.null ->
      Untyped.invoked r = [false]) /\
  (forall content revision,
      JSON_parse fileContent = Some content ->
      Js.get content "revision" = Some revision ->
      Js.truthy revision = true ->
      Snapshot.files_remote_json s = None ->
      Untyped.invoked r = [false]) /\
  (forall s',
      Untyped.resolve JSON_parse md5 fileContent s = Some (true, s') ->
      UntypedSpec.remoteListBroken JSON_parse protocol s' ->
      Untyped.invoked r = [true; false]).
Proof.
  intros Hl r verdict. subst verdict r.
  unfold Untyped.checkLocalListWithRemoteList.
  assert (Hfalse : forall s',
             Snapshot.files_publii_json s' = Snapshot.files_publii_json s ->
             exists result,
               Untyped.compareFilesList protocol JSON_parse false s' = Some result /\
               UntypedSpec.fullUpload protocol localFiles result).
  { intros s' Hk. apply UntypedFacts.untrusted_is_full_upload.
    destruct Hl as (text & Hs & Hne & Hp). exists text. rewrite Hk. auto. }
  assert (Hnone : Untyped.resolve JSON_parse md5 fileContent s = None ->
                  forall X : Untyped.resolution,
                    match Untyped.resolve JSON_parse md5 fileContent s with
                    | Some (v, s') =>
                        match Untyped.compareFilesList protocol JSON_parse v s' with
                        | Some d => Untyped.Resolution [v] (Some d) s'
                        | None =>
                            Untyped.Resolution
                              [v; false]
                              (Untyped.compareFilesList protocol JSON_parse false s')
                              s'
                        end
                    | None => X
                    end = X)
    by (intros ->; reflexivity).
  split; [|split; [|split; [|split; [|split]]]].
  - destruct (Untyped.resolve JSON_parse md5 fileContent s) as [[v s']|] eqn:E.
    + pose proof (UntypedFacts.resolve_keeps_list_file JSON_parse md5 _ _ _ _ E) as Hk.
      destruct (Hfalse s' Hk) as (res & Hres & Hfull).
      destruct (Untyped.compareFilesList protocol JSON_parse v s') as [d|] eqn:C;
        simpl.
      * exists d. split; [reflexivity|]. split; [exact C|].
        intros ->. rewrite Hres in C. now injection C as <-.
      * exists res. auto.
    + destruct (Hfalse s eq_refl) as (res & Hres & Hfull). simpl.
      exists res. auto.
  - destruct (Untyped.resolve JSON_parse md5 fileContent s) as [[v s']|] eqn:E;
      [|simpl; auto].
    pose proof (UntypedFacts.resolve_keeps_list_file JSON_parse md5 _ _ _ _ E) as Hk.
    destruct (Hfalse s' Hk) as (res & Hres & _).
    destruct v.
    + destruct (Untyped.compareFilesList protocol JSON_parse true s'); simpl; auto.
    + rewrite Hres. simpl. auto.
  - intros H. rewrite Hnone; [reflexivity|].
    unfold Untyped.resolve. destruct H as [-> | ->]; [reflexivity|]. simpl.
    now destruct (match Snapshot.sync_revision_json s with
                  | Some t => _ | None => _ end).
  - intros cached Hs Hc. rewrite Hnone; [reflexivity|].
    unfold Untyped.resolve. rewrite Hs.
    destruct (JSON_parse fileContent); [|reflexivity].
    destruct Hc as [-> | ->]; reflexivity.
  - intros content revision Hf Hg Ht Hr. rewrite Hnone; [reflexivity|].
    unfold Untyped.resolve. rewrite Hf, Hg, Ht, Hr.
    now destruct (match Snapshot.sync_revision_json s with
                  | Some t => _ | None => _ end).
  - intros s' E Hb. rewrite E.
    assert (C : Untyped.compareFilesList protocol JSON_parse true s' = None).
    { unfold Untyped.compareFilesList.
      destruct (Untyped.readLocalFiles JSON_parse s') as [L|]; [|reflexivity].
      apply UntypedFacts.remoteListBroken_stops in Hb.
      destruct Hb as [Hm|(text & doc & Hr & Hne & Hp & Ht & Hu & Hg)].
      - now rewrite (proj2 (UntypedFacts.readRemoteFiles_None protocol JSON_parse
                              true s') (conj eq_refl Hm)).
      - destruct (proj2 (UntypedFacts.readRemoteFiles_truthy protocol JSON_parse
                           true s' doc)) as [-> _].
        + split; [reflexivity|]. exists text. auto.
        + apply UntypedFacts.compare_None. right. auto. }
    now rewrite C.
Qed.

Lemma resolution_never_fails_witness :
  let JSON_parse := fun text : string =>
    if String.eqb text "[local]"
    then Some (Js.array [Untyped.encode (Entry "a.txt" File (Some "h1"))])
    else if String.eqb text "{}" then Some (Js.object [])
         else if String.eqb text "[null]" then Some (Js.array [Js.null])
              else if String.eqb text (Snapshot.descriptor "R1")
                   then Some (Js.object [("revision", Js.str "R1")])
                   else None in
  let s := Snapshot.Store (Some "[local]") (Some "[cache]") None in
  let trusted := Snapshot.Store (Some "[local]") (Some "[null]")
                                (Some (Snapshot.descriptor "R1")) in
  let r := Untyped.checkLocalListWithRemoteList "ftp" JSON_parse (fun b => b) in
  Untyped.invoked (r "<html>" s) = [false] /\
  Untyped.invoked (r "{}" s) = [true; false] /\
  Untyped.invoked (r (Snapshot.descriptor "R1") trusted) = [true; false] /\
  exists result,
    Untyped.outcome (r (Snapshot.descriptor "R1") trusted) = Some result /\
    UntypedSpec.fullUpload "ftp" [Entry "a.txt" File (Some "h1")] result.
Proof.
  intros JSON_parse s trusted r.
  assert (Hl : UntypedSpec.localListIs JSON_parse s [Entry "a.txt" File (Some "h1")]).
  { exists "[local]". split; [reflexivity|]. split; [discriminate | reflexivity]. }
  assert (Ht : UntypedSpec.localListIs JSON_parse trusted
                                       [Entry "a.txt" File (Some "h1")]).
  { exists "[local]". split; [reflexivity|]. split; [discriminate | reflexivity]. }
  split; [|split; [|split]].
  - destruct (resolution_never_fails (fun b => b) JSON_parse "ftp" "<html>" s _ Hl)
      as (_ & _ & Hparse & _).
    apply Hparse. left. reflexivity.
  - destruct (resolution_never_fails (fun b => b) JSON_parse "ftp" "{}" s _ Hl)
      as (_ & _ & _ & _ & _ & Hbroken).
    apply (Hbroken (Snapshot.Store (Some "[local]") (Some "{}") None));
      [reflexivity|].
    right. exists "{}", (Js.object []).
    split; [reflexivity|]. split; [discriminate|]. split; [reflexivity|].
    split; [exact I | discriminate].
  - destruct (resolution_never_fails (fun b => b) JSON_parse "ftp"
                (Snapshot.descriptor "R1") trusted _ Ht)
      as (_ & _ & _ & _ & _ & Hbroken).
    apply (Hbroken trusted); [reflexivity|].
    right. exists "[null]", (Js.array [Js.null]).
    split; [reflexivity|]. split; [discriminate|]. split; [reflexivity|].
    split; [|discriminate]. exists Js.null. split; [now left | now left].
  - destruct (resolution_never_fails (fun b => b) JSON_parse "ftp"
                (Snapshot.descriptor "R1") trusted _ Ht)
      as ((res & Ho & _ & Hfull) & _).
    exists res. split; [exact Ho | exact (Hfull eq_refl)].
Defined.

(** X15: when the diff of [compareFilesList] raises.  Up to the call of
    [sortFiles], [compareFilesList] raises exactly when [files.publii.json]
    is missing, or is not empty and does not parse, or parses to a value
    the loops cannot go through (anything but an array or a string, or an
    array with a [null] item); or when it is called with [true] and
    [files-remote.json] is missing or parses to a truthy value the loops
    cannot go through (for gitlab-pages anything but an array is caught
    and read as an empty list, an array with a [null] item still
    raises). *)
Theorem compareFilesList_raises_exactly
        (JSON_parse : string -> option Js.value) (protocol : string)
        (remoteFileListExists : bool) (s : Snapshot.store) :
  Untyped.compareFilesList protocol JSON_parse remoteFileListExists s = None <->
  UntypedSpec.localListBroken JSON_parse s \/
  (remoteFileListExists = true /\
   UntypedSpec.remoteListBroken JSON_parse protocol s).
Proof.
  rewrite UntypedFacts.localListBroken_stops, UntypedFacts.remoteListBroken_stops.
  unfold Untyped.compareFilesList.
  split.
  - destruct (Untyped.readLocalFiles JSON_parse s) as [L|] eqn:EL.
    2:{ intros _. left. apply UntypedFacts.readLocalFiles_None in EL.
        destruct EL as [H|(text & H & Hne & Hp)]; [now left|].
        right. exists text. auto. }
    destruct (Untyped.readRemoteFiles protocol JSON_parse remoteFileListExists s)
      as [R|] eqn:ER.
    2:{ intros _. right. apply UntypedFacts.readRemoteFiles_None in ER.
        destruct ER as [-> H]. auto. }
    intros H. apply UntypedFacts.compare_None in H.
    destruct H as [HL|[Ht HR]].
    + left. right.
      destruct (UntypedFacts.readLocalFiles_Some JSON_parse s L EL)
        as [Hn|(text & Hs & Hne & Hp)]; [contradiction|].
      exists text. split; [exact Hs|]. split; [exact Hne|]. right. eauto.
    + right.
      destruct (proj1 (UntypedFacts.readRemoteFiles_truthy protocol JSON_parse
                         remoteFileListExists s R) (conj ER Ht))
        as (-> & text & Hs & Hne & Hp & _ & Hg).
      split; [reflexivity|]. right. exists text, R. auto 10.
  - intros [[Hm|(text & Hs & Hne & [Hp|(doc & Hp & Hu)])]
           |(-> & [Hm|(text & doc & Hs & Hne & Hp & Ht & Hu & Hg)])].
    + now rewrite (proj2 (UntypedFacts.readLocalFiles_None JSON_parse s)
                         (or_introl Hm)).
    + rewrite (UntypedFacts.readLocalFiles_parsed JSON_parse s text Hs Hne).
      now rewrite Hp.
    + rewrite (UntypedFacts.readLocalFiles_parsed JSON_parse s text Hs Hne), Hp.
      destruct (Untyped.readRemoteFiles protocol JSON_parse remoteFileListExists s);
        [|reflexivity].
      apply UntypedFacts.compare_None. now left.
    + destruct (Untyped.readLocalFiles JSON_parse s); [|reflexivity].
      now rewrite (proj2 (UntypedFacts.readRemoteFiles_None protocol JSON_parse
                            true s) (conj eq_refl Hm)).
    + destruct (Untyped.readLocalFiles JSON_parse s); [|reflexivity].
      destruct (proj2 (UntypedFacts.readRemoteFiles_truthy protocol JSON_parse
                         true s doc)) as [-> _].
      * split; [reflexivity|]. exists text. auto.
      * apply UntypedFacts.compare_None. right. auto.
Qed.

Lemma compareFilesList_raises_exactly_witness :
  let JSON_parse := fun text : string =>
    if String.eqb text "[local]"
    then Some (Js.array [Untyped.encode (Entry "a.txt" File (Some "h1"))])
    else if String.eqb text "[null]" then Some (Js.array [Js.null])
         else if String.eqb text "'ab'" then Some (Js.str "ab")
              else None in
  Untyped.compareFilesList "gitlab-pages" JSON_parse true
    (Snapshot.Store (Some "[local]") (Some "[null]") None) = None /\
  Untyped.compareFilesList "ftp" JSON_parse true
    (Snapshot.Store (Some "'ab'") (Some "'ab'") None) <> None.
Proof.
  intros JSON_parse. split.
  - apply compareFilesList_raises_exactly. right. split; [reflexivity|].
    right. exists "[null]", (Js.array [Js.null]).
    split; [reflexivity|]. split; [discriminate|]. split; [reflexivity|].
    split; [|eauto]. exists Js.null. split; [now left | now left].
  - intros H. apply compareFilesList_raises_exactly in H.
    destruct H as [[E|(text & E & _ & [Hp|(doc & Hp & Hu)])]
                  |(_ & [E|(text & doc & E & _ & Hp & Hu & _)])];
      try discriminate E; injection E as <-;
      try discriminate Hp; injection Hp as <-; exact Hu.
Defined.

Module FatalFacts.
Import Js Untyped UntypedSpec.

Section Fatal.
Variable protocol : string.
Variable JSON_parse : string -> option value.

(** A broken local list makes every call raise. *)
Lemma broken_raises (s : Snapshot.store) (flag : bool) :
  localListBroken JSON_parse s ->
  compareFilesList protocol JSON_parse flag s = None.
Proof.
  rewrite UntypedFacts.localListBroken_stops. unfold compareFilesList.
  intros [Hm|(text & Hs & Hne & [Hp|(doc & Hp & Hu)])].
  - now rewrite (proj2 (UntypedFacts.readLocalFiles_None JSON_parse s)
                       (or_introl Hm)).
  - rewrite (UntypedFacts.readLocalFiles_parsed JSON_parse s text Hs Hne).
    now rewrite Hp.
  - rewrite (UntypedFacts.readLocalFiles_parsed JSON_parse s text Hs Hne), Hp.
    destruct (readRemoteFiles protocol JSON_parse flag s); [|reflexivity].
    apply UntypedFacts.compare_None. now left.
Qed.

(** [compareFilesList(false)] raises on nothing else. *)
Lemma raises_broken (s : Snapshot.store) :
  compareFilesList protocol JSON_parse false s = None ->
  localListBroken JSON_parse s.
Proof.
  rewrite UntypedFacts.localListBroken_stops. unfold compareFilesList.
  destruct (readLocalFiles JSON_parse s) as [L|] eqn:EL.
  - change (readRemoteFiles protocol JSON_parse false s)
      with (Some (boolean false)).
    intros H. apply UntypedFacts.compare_None in H.
    destruct H as [HL|[Ht _]]; [|discriminate].
    destruct (UntypedFacts.readLocalFiles_Some JSON_parse s L EL)
      as [Hn|(text & Hs & Hne & Hp)]; [contradiction|].
    right. exists text. split; [exact Hs|]. split; [exact Hne|]. right. eauto.
  - intros _. apply UntypedFacts.readLocalFiles_None in EL.
    destruct EL as [H|(text & H & Hne & Hp)]; [now left|].
    right. exists text. auto.
Qed.

Lemma broken_same (s s' : Snapshot.store) :
  Snapshot.files_publii_json s' = Snapshot.files_publii_json s ->
  localListBroken JSON_parse s' <-> localListBroken JSON_parse s.
Proof. unfold localListBroken. now intros ->. Qed.

End Fatal.
End FatalFacts.

(** X24: when the resolution is fatal.  The [catch] of
    [checkLocalListWithRemoteList] answers every exception of the [try]
    block with [compareFilesList(false)], which is outside any [try]: as
    far as the resolution and the diff go (up to the call of [sortFiles]),
    an exception leaves [checkLocalListWithRemoteList] exactly when the
    local list file cannot be used, that is when [files.publii.json] is
    missing, or is not empty and does not parse, or parses to a value the
    loops cannot go through. *)
Theorem resolution_fatal_exactly
        (md5 : string -> string) (JSON_parse : string -> option Js.value)
        (protocol fileContent : string) (s : Snapshot.store) :
  Untyped.outcome
    (Untyped.checkLocalListWithRemoteList protocol JSON_parse md5 fileContent s)
  = None <->
  UntypedSpec.localListBroken JSON_parse s.
Proof.
  unfold Untyped.checkLocalListWithRemoteList.
  destruct (Untyped.resolve JSON_parse md5 fileContent s) as [[v s']|] eqn:E.
  - pose proof (UntypedFacts.resolve_keeps_list_file JSON_parse md5 _ _ _ _ E) as Hk.
    rewrite <- (FatalFacts.broken_same JSON_parse s s' Hk).
    destruct (Untyped.compareFilesList protocol JSON_parse v s') as [d|] eqn:C;
      simpl.
    + split; [discriminate|]. intros Hb.
      rewrite (FatalFacts.broken_raises protocol JSON_parse s' v Hb) in C.
      discriminate.
    + split; [apply FatalFacts.raises_broken|].
      apply FatalFacts.broken_raises.
  - simpl. split; [apply FatalFacts.raises_broken|].
    apply FatalFacts.broken_raises.
Qed.

(* ================================================================== *)
(** ** The second session finds the list file of the first *)
(* ================================================================== *)

Module WorkspaceFacts.
Import Inventory Workspace SessionSpec.

Lemma rewritten_dir (name content : string) (n : node) (dir : string)
      (children : list node) :
  rewritten name content n = DirNode dir children <-> n = DirNode dir children.
Proof.
  unfold rewritten. destruct n as [f c|f ch]; simpl; [|tauto].
  destruct (String.eqb f name); split; discriminate.
Qed.

Lemma In_insert {A : Type} (x y : A) (place : nat) (l : list A) :
  In x (firstn place l ++ y :: skipn place l) <-> x = y \/ In x l.
Proof.
  rewrite <- (firstn_skipn place l) at 3. rewrite !in_app_iff. simpl.
  intuition congruence.
Qed.

Lemma readFile_rewritten (name content : string) : forall files,
    existsb (isDirectoryNamed name) files = false ->
    existsb (isFileNamed name) files = true ->
    readFile name (map (rewritten name content) files) = Some content.
Proof.
  induction files as [|[f c|f ch] rest IH]; simpl; intros Hd Hf.
  - discriminate.
  - unfold rewritten. simpl. destruct (String.eqb f name) eqn:E; simpl.
    + now rewrite String.eqb_refl.
    + rewrite E. now apply IH.
  - apply orb_false_elim in Hd. destruct Hd as [Hd1 Hd2].
    unfold rewritten. simpl. rewrite Hd1. now apply IH.
Qed.

Lemma readFile_inserted (name content : string) : forall files place,
    existsb (isDirectoryNamed name) files = false ->
    existsb (isFileNamed name) files = false ->
    readFile name (firstn place files ++ FileNode name content :: skipn place files)
    = Some content.
Proof.
  induction files as [|n rest IH]; intros [|place] Hd Hf; simpl;
    try now rewrite String.eqb_refl.
  simpl in Hd, Hf. apply orb_false_elim in Hd, Hf.
  destruct Hd as [Hd1 Hd2], Hf as [Hf1 Hf2].
  destruct n as [f c|f ch]; simpl in *.
  - rewrite Hf1. now apply IH.
  - rewrite Hd1. now apply IH.
Qed.

(** With no file and no directory of that name, no node has it. *)
Lemma readFile_None (name : string) : forall files,
    readFile name files = None ->
    existsb (isDirectoryNamed name) files = false ->
    forall content, ~ In (FileNode name content) files.
Proof.
  induction files as [|[f c|f ch] rest IH]; simpl; intros Hr Hd content Hin.
  - contradiction.
  - destruct (String.eqb f name) eqn:E; [discriminate|].
    destruct Hin as [H|Hin]; [|now apply (IH Hr Hd content)].
    injection H as -> _. now rewrite String.eqb_refl in E.
  - apply orb_false_elim in Hd. destruct Hd as [Hd1 Hd2]. rewrite Hd1 in Hr.
    destruct Hin as [H|Hin]; [discriminate | now apply (IH Hr Hd2 content)].
Qed.

Section Written.
Variable place : nat.
Variables name content : string.
Variables files files' : list node.
Hypothesis written : writeFile place name content files = Some files'.

Lemma written_no_directory : existsb (isDirectoryNamed name) files = false.
Proof.
  pose proof written as W. unfold writeFile in W.
  now destruct (existsb (isDirectoryNamed name) files).
Qed.

Lemma written_cases :
  files' = map (rewritten name content) files /\
  existsb (isFileNamed name) files = true \/
  files' = firstn place files ++ FileNode name content :: skipn place files /\
  existsb (isFileNamed name) files = false.
Proof.
  pose proof written as W. unfold writeFile in W.
  rewrite written_no_directory in W.
  destruct (existsb (isFileNamed name) files); injection W as <-; auto.
Qed.

Lemma written_sameBut : sameBut name files files'.
Proof.
  destruct written_cases as [[W Hf]|[W Hf]]; rewrite W; split; [|split| |split].
  - intros d ch. rewrite in_map_iff. split.
    + intros (n & E & Hn). apply rewritten_dir in E. now subst n.
    + intros H. exists (DirNode d ch). split; [reflexivity | exact H].
  - intros f c Hin. apply in_map_iff in Hin. destruct Hin as (n & E & Hn).
    unfold rewritten in E. destruct n as [f' c'|f' ch']; simpl in E.
    + destruct (String.eqb f' name).
      * injection E as <- _. now right.
      * injection E as <- <-. now left.
    + discriminate.
  - intros f c Hin Hne. apply in_map_iff. exists (FileNode f c).
    split; [|exact Hin]. unfold rewritten. simpl.
    apply String.eqb_neq in Hne. now rewrite Hne.
  - intros d ch. rewrite In_insert. split; [|auto].
    intros [E|H]; [discriminate | exact H].
  - intros f c Hin. apply In_insert in Hin.
    destruct Hin as [E|H]; [injection E as -> _; now right | now left].
  - intros f c Hin _. apply In_insert. now right.
Qed.

Lemma written_there : In (FileNode name content) files'.
Proof.
  destruct written_cases as [[E Hf]|[E Hf]]; rewrite E.
  - apply existsb_exists in Hf. destruct Hf as (n & Hn & En).
    apply in_map_iff. exists n. split; [|exact Hn].
    unfold rewritten. now rewrite En.
  - apply In_insert. now left.
Qed.

Lemma written_read : readFile name files' = Some content.
Proof.
  destruct written_cases as [[E Hf]|[E Hf]]; rewrite E.
  - apply readFile_rewritten; [exact written_no_directory | exact Hf].
  - apply readFile_inserted; [exact written_no_directory | exact Hf].
Qed.

End Written.

(** A second write of the same file goes through. *)
Lemma writeFile_again (place : nat) (name content content' : string)
      (files files' : list node) :
  writeFile place name content files = Some files' ->
  exists files'', writeFile place name content' files' = Some files''.
Proof.
  intros W. pose proof (written_no_directory _ _ _ _ _ W) as Hd.
  destruct (written_sameBut _ _ _ _ _ W) as (Hdirs & _ & _).
  assert (Hd' : existsb (isDirectoryNamed name) files' = false).
  { apply not_true_iff_false. intros H. apply existsb_exists in H.
    destruct H as ([f c|f ch] & Hn & E); [discriminate|].
    apply Hdirs in Hn.
    assert (existsb (isDirectoryNamed name) files = true)
      by (apply existsb_exists; eexists; split; [exact Hn | exact E]).
    congruence. }
  unfold writeFile. rewrite Hd'.
  destruct (existsb (isFileNamed name) files'); eexists; reflexivity.
Qed.

Lemma sameBut_trans (name : string) (a b c : list node) :
  sameBut name a b -> sameBut name b c -> sameBut name a c.
Proof.
  intros (D1 & F1 & B1) (D2 & F2 & B2). split; [|split].
  - intros d ch. now rewrite D2, D1.
  - intros f x H. apply F2 in H. destruct H as [H|H]; [|now right].
    now apply F1.
  - intros f x H Hne. apply B2; [|exact Hne]. now apply B1.
Qed.

Section Trees.
Variables before after : list node.
Hypothesis same : sameBut manifest before after.

Lemma inside_after (ancestors : list string) (name listed content : string) :
  InventorySpec.inside EmptyString after ancestors name listed content ->
  InventorySpec.inside EmptyString before ancestors name listed content \/
  (ancestors = [] /\ name = manifest /\ listed = manifest).
Proof.
  destruct same as (D & F & _). intros H. inversion H; subst.
  - destruct (F _ _ H0) as [Hb| ->].
    + left. now apply InventorySpec.inside_here.
    + right. auto.
  - left. eapply InventorySpec.inside_below; [|eassumption]. now apply D.
Qed.

Lemma inside_before (ancestors : list string) (name listed content : string) :
  InventorySpec.inside EmptyString before ancestors name listed content ->
  InventorySpec.inside EmptyString after ancestors name listed content \/
  (ancestors = [] /\ name = manifest /\ listed = manifest).
Proof.
  destruct same as (D & _ & B). intros H. inversion H; subst.
  - destruct (String.eqb name manifest) eqn:E.
    + apply String.eqb_eq in E. subst name. right. auto.
    + apply String.eqb_neq in E. left. apply InventorySpec.inside_here.
      now apply B.
  - left. eapply InventorySpec.inside_below; [|eassumption]. now apply D.
Qed.

Lemma dirInside_same (ancestors : list string) (name listed : string) :
  TreeSpec.dirInside EmptyString after ancestors name listed <->
  TreeSpec.dirInside EmptyString before ancestors name listed.
Proof.
  destruct same as (D & _ & _). split; intros H; inversion H; subst.
  - eapply TreeSpec.dir_here. apply D. eassumption.
  - eapply TreeSpec.dir_below; [|eassumption]. now apply D.
  - eapply TreeSpec.dir_here. apply D. eassumption.
  - eapply TreeSpec.dir_below; [|eassumption]. now apply D.
Qed.

Section Lists.
Variable md5 : string -> string.
Variable isBinaryFile : string -> bool.
Variable protocol : string.
Variables listBefore listAfter : list entry.
Hypothesis builtBefore :
  Inventory.prepareLocalFilesList md5 isBinaryFile protocol before
  = Some listBefore.
Hypothesis builtAfter :
  Inventory.prepareLocalFilesList md5 isBinaryFile protocol after
  = Some listAfter.

(** The later list holds the earlier one's entries and at most one more
    path, the list file. *)
Lemma entries_after (e : entry) :
  In e listAfter ->
  In e listBefore \/ (path e = manifest /\ type e = File).
Proof.
  destruct (ExactFacts.entries_of_the_loop _ _ _ _ _ builtBefore) as [F0 D0].
  destruct (ExactFacts.entries_of_the_loop _ _ _ _ _ builtAfter) as [F1 D1].
  destruct e as [p [|] h]; intros He.
  - apply F1 in He. destruct He as (anc & name & c & Hi & Hg & Hn & Hcase).
    destruct (inside_after _ _ _ _ Hi) as [Hb|(_ & _ & ->)]; [|now right].
    left. apply F0. exists anc, name, c. auto.
  - left. apply D1 in He. apply D0.
    destruct He as (Hh & Hl & anc & name & listed & Hd & Hrest).
    split; [exact Hh|]. split; [exact Hl|].
    exists anc, name, listed. split; [|exact Hrest]. now apply dirInside_same.
Qed.

Lemma manifest_entry (content : string) :
  In (FileNode manifest content) after ->
  In (Entry manifest File (Some (fileMD5 md5 isBinaryFile content))) listAfter.
Proof.
  destruct (ExactFacts.entries_of_the_loop _ _ _ _ _ builtAfter) as [F1 _].
  intros Hin. apply F1. exists [], manifest, content.
  split; [exact (InventorySpec.inside_here EmptyString after manifest content Hin)|].
  split; [simpl; tauto|].
  split; [split; [discriminate | left; reflexivity]|].
  right. split; [|reflexivity]. intros [_ [E|E]]; discriminate.
Qed.

(** Every path of the earlier list is a path of the later one. *)
Lemma paths_before (content : string) (r : entry) :
  In (FileNode manifest content) after ->
  In r listBefore ->
  exists l, In l listAfter /\ path l = path r.
Proof.
  destruct (ExactFacts.entries_of_the_loop _ _ _ _ _ builtBefore) as [F0 D0].
  destruct (ExactFacts.entries_of_the_loop _ _ _ _ _ builtAfter) as [F1 D1].
  intros Hm. destruct r as [p [|] h]; intros Hr.
  - apply F0 in Hr. destruct Hr as (anc & name & c & Hi & Hg & Hn & Hcase).
    destruct (inside_before _ _ _ _ Hi) as [Ha|(_ & _ & ->)].
    + exists (Entry p File h). split; [|reflexivity].
      apply F1. exists anc, name, c. auto.
    + eexists. split; [exact (manifest_entry content Hm) | reflexivity].
  - exists (Entry p Directory h). split; [|reflexivity].
    apply D0 in Hr. apply D1.
    destruct Hr as (Hh & Hl & anc & name & listed & Hd & Hrest).
    split; [exact Hh|]. split; [exact Hl|].
    exists anc, name, listed. split; [|exact Hrest]. now apply dirInside_same.
Qed.

(** An entry of the earlier list under the path of the list file is a
    directory or the list file that was there. *)
Lemma manifest_before (k : kind) (h : option string) :
  In (Entry manifest k h) listBefore ->
  k = Directory \/
  exists content,
    In (FileNode manifest content) before /\
    h = Some (fileMD5 md5 isBinaryFile content).
Proof.
  destruct (ExactFacts.entries_of_the_loop _ _ _ _ _ builtBefore) as [F0 _].
  intros Hr. destruct k; [|now left].
  right. apply F0 in Hr. destruct Hr as (anc & name & c & Hi & _ & _ & Hcase).
  destruct (BuilderFacts.inside_root _ _ _ _ _ Hi) as [(-> & E)|(_ & [rest E])];
    [|discriminate E].
  subst name. exists c. split; [now inversion Hi|].
  destruct Hcase as [([_ [E|E]] & _)|(_ & ->)]; try discriminate. reflexivity.
Qed.

End Lists.

(** A tree that differs in the list file only can be listed when the
    other one can. *)
Lemma built_after (md5 : string -> string) (isBinaryFile : string -> bool)
      (protocol : string) (listBefore : list entry) :
  Inventory.prepareLocalFilesList md5 isBinaryFile protocol before
  = Some listBefore ->
  exists listAfter,
    Inventory.prepareLocalFilesList md5 isBinaryFile protocol after
    = Some listAfter.
Proof.
  intros Hb.
  destruct (Inventory.prepareLocalFilesList md5 isBinaryFile protocol after)
    as [l|] eqn:E; [now exists l|].
  exfalso. unfold Inventory.prepareLocalFilesList in E, Hb.
  apply BuilderFacts.buildFileList_None in E.
  destruct E as (Hx & p & Hs & Hin).
  apply (TreeFacts.readDirRecursiveSync_sound after (p, isDir)) in Hin.
  destruct Hin as (anc & name & Hd & Hg).
  apply dirInside_same in Hd.
  assert (N : buildFileList md5 isBinaryFile protocol (readDirRecursiveSync before)
              = None).
  { apply BuilderFacts.buildFileList_None. split; [exact Hx|].
    exists p. split; [exact Hs|].
    exact (TreeFacts.dirInside_listed _ _ _ _ _ Hd Hg []). }
  congruence.
Qed.

End Trees.

Lemma detectFilesToRemove_covered (protocol : string) (localFiles : list entry) :
  forall remoteFiles,
    (forall r, In r remoteFiles ->
               exists l, In l localFiles /\ path l = path r) ->
    Diff.detectFilesToRemove protocol localFiles remoteFiles = [].
Proof.
  induction remoteFiles as [|r rest IH]; intros Hc; simpl; [reflexivity|].
  assert (Hf : Diff.fileFounded localFiles r = true).
  { apply DiffFacts.fileFounded_true. apply Hc. now left. }
  rewrite Hf. apply IH. intros x Hx. apply Hc. now right.
Qed.

Lemma compareFilesList_two_lists (JSON_parse : string -> option Js.value)
      (protocol : string) (localText remoteText : string)
      (localFiles remoteFiles : list entry) (cached : option string) :
  localText <> EmptyString -> remoteText <> EmptyString ->
  JSON_parse localText = Some (Js.array (map Untyped.encode localFiles)) ->
  JSON_parse remoteText = Some (Js.array (map Untyped.encode remoteFiles)) ->
  Untyped.compareFilesList protocol JSON_parse true
    (Snapshot.Store (Some localText) (Some remoteText) cached)
  = Some (let d := Diff.compare protocol localFiles remoteFiles in
          Untyped.Result (map UntypedSpec.item (Diff.filesToRemove d))
                         (map UntypedSpec.item (Diff.filesToUpload d))
                         (Diff.operations d)).
Proof.
  intros Hl Hr Pl Pr. unfold Untyped.compareFilesList.
  rewrite (UntypedFacts.readLocalFiles_parsed
             JSON_parse (Snapshot.Store (Some localText) (Some remoteText) cached)
             localText eq_refl Hl), Pl.
  destruct (proj2 (UntypedFacts.readRemoteFiles_truthy
                     protocol JSON_parse true
                     (Snapshot.Store (Some localText) (Some remoteText) cached)
                     (Js.array (map Untyped.encode remoteFiles)))) as [-> _].
  - split; [reflexivity|]. exists remoteText.
    repeat (split; [reflexivity || assumption|]). intros _. eauto.
  - apply UntypedFacts.compare_encode.
Qed.

Lemma resolve_published_revision (JSON_parse : string -> option Js.value)
      (md5 : string -> string) (R : string) (s : Snapshot.store)
      (remoteList : string) :
  R <> EmptyString ->
  JSON_parse (Snapshot.descriptor R)
  = Some (Js.object [("revision", Js.str R)]) ->
  Snapshot.sync_revision_json s = Some (Snapshot.descriptor R) ->
  Snapshot.files_remote_json s = Some remoteList ->
  Untyped.resolve JSON_parse md5 (Snapshot.descriptor R) s = Some (true, s).
Proof.
  intros Hne Hd Hs Hr. unfold Untyped.resolve. rewrite Hs, Hd, Hr. simpl.
  apply String.eqb_neq in Hne. rewrite Hne. simpl. now rewrite String.eqb_refl.
Qed.

End WorkspaceFacts.

(** Against C3 as first stated: the first session leaves its list file,
    [files.publii.json], in the input directory, and the second session
    lists it and uploads it. *)
Lemma session_idempotence_counterexample :
  let listed := [Entry "index.html" File (Some "<p>hello</p>")] in
  let relisted := [Entry "files.publii.json" File (Some (Snapshot.descriptor "R1"));
                   Entry "index.html" File (Some "<p>hello</p>")] in
  ~ SessionSpec.idempotent
      (fun bytes => bytes)
      (fun text =>
         if String.eqb text "[index.html]"
         then Some (Js.array (map Untyped.encode listed))
         else if String.eqb text "[files.publii.json, index.html]"
              then Some (Js.array (map Untyped.encode relisted))
              else if String.eqb text (Snapshot.descriptor "R1")
                   then Some (Js.object [("revision", Js.str "R1")])
                   else None)
      "ftp"
      (fun fileList => if Nat.eqb (length fileList) 1 then "[index.html]"
                       else "[files.publii.json, index.html]")
      (fun _ => false) 0 "R1" "R2" "<html>not found</html>"
      (Workspace.Disk [Inventory.FileNode "index.html" "<p>hello</p>"] None None).
Proof.
  intros listed relisted H.
  edestruct H as (r2 & d2 & E & _ & Hup); [reflexivity|].
  vm_compute in E. injection E as <- _. discriminate Hup.
Qed.

(** C3: Idempotence, as amended.  When a first session has succeeded and
    been finalised with revision R1, the second session, run on what the
    first one left on disk and fetching the manifest it published (the
    descriptor of R1), succeeds and finds nothing to remove; its upload set
    holds nothing but [files.publii.json], the list file of the first
    session, and does hold it unless the input directory already held a
    list file with the fingerprint of the new one. *)
Theorem second_session_uploads_list_file
        (md5 : string -> string) (JSON_parse : string -> option Js.value)
        (protocol : string) (JSON_stringify : list entry -> string)
        (isBinaryFile : string -> bool) (place : nat)
        (R1 R2 fileContent : string) (d0 d1 : Workspace.disk)
        (r1 : Untyped.result) :
  Workspace.session md5 JSON_parse protocol JSON_stringify isBinaryFile place
                    R1 fileContent d0 = Some (r1, d1) ->
  SessionSpec.roundTrips md5 JSON_parse protocol JSON_stringify isBinaryFile
                         (Workspace.inputDir d0) ->
  SessionSpec.roundTrips md5 JSON_parse protocol JSON_stringify isBinaryFile
                         (Workspace.inputDir d1) ->
  JSON_parse (Snapshot.descriptor R1)
  = Some (Js.object [("revision", Js.str R1)]) ->
  R1 <> EmptyString ->
  let listFile := Untyped.ListItem (Js.str "files.publii.json") (Js.str "file") in
  exists r2 d2,
    Workspace.session md5 JSON_parse protocol JSON_stringify isBinaryFile place
                      R2 (Snapshot.descriptor R1) d1 = Some (r2, d2) /\
    Untyped.filesToRemove r2 = [] /\
    (forall f, In f (Untyped.filesToUpload r2) -> f = listFile) /\
    ((forall content,
         In (Inventory.FileNode "files.publii.json" content) (Workspace.inputDir d0) ->
         md5 (FingerprintSpec.hashed isBinaryFile content)
         <> md5 (FingerprintSpec.hashed isBinaryFile (Snapshot.descriptor R1))) ->
     In listFile (Untyped.filesToUpload r2)).
Proof.
  intros Hs1 RT0 RT1 Hdesc HR listFile.
  unfold Workspace.session, Workspace.prepareLocalFilesList in Hs1.
  destruct (Inventory.prepareLocalFilesList md5 isBinaryFile protocol
              (Workspace.inputDir d0)) as [L1|] eqn:B0; [|discriminate].
  destruct (Workspace.writeFile place Workspace.manifest (JSON_stringify L1)
              (Workspace.inputDir d0)) as [tree0|] eqn:W0; [|discriminate].
  destruct (Untyped.outcome _) as [r|] in Hs1; [|discriminate].
  unfold Workspace.replaceSyncInfoFiles in Hs1. simpl in Hs1.
  rewrite (WorkspaceFacts.written_read _ _ _ _ _ W0) in Hs1.
  destruct (Workspace.writeFile place Workspace.manifest (Snapshot.descriptor R1)
              tree0) as [tree1|] eqn:W1; [|discriminate].
  injection Hs1 as _ <-. simpl in RT1.
  assert (same : SessionSpec.sameBut Workspace.manifest (Workspace.inputDir d0) tree1).
  { eapply WorkspaceFacts.sameBut_trans.
    - exact (WorkspaceFacts.written_sameBut _ _ _ _ _ W0).
    - exact (WorkspaceFacts.written_sameBut _ _ _ _ _ W1). }
  pose proof (WorkspaceFacts.written_there _ _ _ _ _ W1) as Hthere.
  destruct (WorkspaceFacts.built_after _ _ same md5 isBinaryFile protocol L1 B0)
    as [L2 B1].
  destruct (RT0 L1 B0) as [N1 P1]. destruct (RT1 L2 B1) as [N2 P2].
  destruct (WorkspaceFacts.writeFile_again place Workspace.manifest _
              (JSON_stringify L2) _ _ W1) as [tree2 W2].
  destruct (WorkspaceFacts.writeFile_again place Workspace.manifest _
              (Snapshot.descriptor R2) _ _ W2) as [tree3 W3].
  unfold Workspace.session, Workspace.prepareLocalFilesList. simpl.
  rewrite B1, W2. unfold Workspace.view. simpl.
  rewrite (WorkspaceFacts.written_read _ _ _ _ _ W2).
  set (s := Snapshot.Store (Some (JSON_stringify L2)) (Some (JSON_stringify L1))
                           (Some (Snapshot.descriptor R1))).
  assert (E : Untyped.resolve JSON_parse md5 (Snapshot.descriptor R1) s
              = Some (true, s)).
  { now apply (WorkspaceFacts.resolve_published_revision JSON_parse md5 R1 s
                 (JSON_stringify L1)). }
  unfold Untyped.checkLocalListWithRemoteList. rewrite E. unfold s.
  rewrite (WorkspaceFacts.compareFilesList_two_lists JSON_parse protocol _ _ L2 L1 _
             N2 N1 P2 P1).
  simpl. unfold Workspace.replaceSyncInfoFiles. simpl.
  rewrite (WorkspaceFacts.written_read _ _ _ _ _ W2), W3.
  eexists. eexists. split; [reflexivity|]. simpl.
  split; [|split].
  - rewrite (WorkspaceFacts.detectFilesToRemove_covered protocol L2 L1);
      [reflexivity|].
    intros r0 Hr0.
    exact (WorkspaceFacts.paths_before _ _ same md5 isBinaryFile protocol L1 L2
             B0 B1 _ r0 Hthere Hr0).
  - intros f Hf. apply in_map_iff in Hf. destruct Hf as ([p k] & <- & Hf).
    apply DiffFacts.In_detectFilesToUpload in Hf.
    destruct Hf as (l & Hl & Hp & Hk & Hu & _).
    destruct (WorkspaceFacts.entries_after _ _ same md5 isBinaryFile protocol
                L1 L2 B0 B1 l Hl) as [Hin|[Hpm Hkf]].
    + exfalso. rewrite DiffFacts.fileShouldBeUploaded_true in Hu.
      now apply (Hu l Hin).
    + now rewrite <- Hp, <- Hk, Hpm, Hkf.
  - intros Hnew.
    apply (in_map UntypedSpec.item _ (Item Workspace.manifest File)).
    apply DiffFacts.In_detectFilesToUpload.
    exists (Entry Workspace.manifest File
                  (Some (Inventory.fileMD5 md5 isBinaryFile
                                           (Snapshot.descriptor R1)))).
    split; [exact (WorkspaceFacts.manifest_entry _ md5 isBinaryFile protocol L2 B1
                     _ Hthere)|].
    split; [reflexivity|]. split; [reflexivity|].
    split; [|simpl; apply andb_false_r].
    apply DiffFacts.fileShouldBeUploaded_true. intros r0 Hr0 Hp Hm.
    destruct r0 as [p0 k0 h0]. simpl in Hp, Hm. subst p0 h0.
    destruct (WorkspaceFacts.manifest_before _ md5 isBinaryFile protocol L1 B0
                _ _ Hr0) as [Hdir|(c & Hc & Hh)].
    + destruct (ExactFacts.entries_of_the_loop _ _ _ _ _ B0) as [_ D0].
      subst k0. apply D0 in Hr0. destruct Hr0 as [Hn _]. discriminate.
    + injection Hh as Hh.
      rewrite !ExactFacts.fileMD5_hashed in Hh. now apply (Hnew c).
Qed.

Lemma second_session_uploads_list_file_witness :
  let listed := [Entry "index.html" File (Some "<p>hello</p>")] in
  let relisted := [Entry "files.publii.json" File (Some (Snapshot.descriptor "R1"));
                   Entry "index.html" File (Some "<p>hello</p>")] in
  let JSON_parse := fun text : string =>
    if String.eqb text "[index.html]"
    then Some (Js.array (map Untyped.encode listed))
    else if String.eqb text "[files.publii.json, index.html]"
         then Some (Js.array (map Untyped.encode relisted))
         else if String.eqb text (Snapshot.descriptor "R1")
              then Some (Js.object [("revision", Js.str "R1")])
              else None in
  let JSON_stringify := fun fileList : list entry =>
    if Nat.eqb (length fileList) 1 then "[index.html]"
    else "[files.publii.json, index.html]" in
  let d1 := Workspace.Disk
              [Inventory.FileNode "files.publii.json" (Snapshot.descriptor "R1");
               Inventory.FileNode "index.html" "<p>hello</p>"]
              (Some "[index.html]") (Some (Snapshot.descriptor "R1")) in
  exists r2 d2,
    Workspace.session (fun bytes => bytes) JSON_parse "ftp" JSON_stringify
                      (fun _ => false) 0 "R2" (Snapshot.descriptor "R1") d1
    = Some (r2, d2) /\
    Untyped.filesToRemove r2 = [] /\
    In (Untyped.ListItem (Js.str "files.publii.json") (Js.str "file"))
       (Untyped.filesToUpload r2).
Proof.
  intros listed relisted JSON_parse JSON_stringify d1.
  destruct (second_session_uploads_list_file
              (fun bytes => bytes) JSON_parse "ftp" JSON_stringify (fun _ => false)
              0 "R1" "R2" "<html>not found</html>"
              (Workspace.Disk [Inventory.FileNode "index.html" "<p>hello</p>"]
                              None None)
              d1
              (Untyped.Result
                 [] [Untyped.ListItem (Js.str "index.html") (Js.str "file")] 2))
    as (r2 & d2 & E & Hrm & _ & Hup).
  - reflexivity.
  - intros fileList Hb. vm_compute in Hb. injection Hb as <-.
    split; [discriminate | reflexivity].
  - intros fileList Hb. vm_compute in Hb. injection Hb as <-.
    split; [discriminate | reflexivity].
  - reflexivity.
  - discriminate.
  - exists r2, d2. split; [exact E|]. split; [exact Hrm|].
    apply Hup. intros content [H|[]]. discriminate.
Defined.

(* ================================================================== *)
(** ** Further properties: the order inside each group of uploads *)
(* ================================================================== *)

Module OrderFacts.
Import Scheduler SchedulerSpec SchedulerFacts.

Lemma insertDirectory_stable (n : nat) (x : fileItem) (sorted : list fileItem) :
  StronglySorted longerFirst sorted ->
  filter (fun f => pathLength f =? n) (insertDirectory x sorted)
  = filter (fun f => pathLength f =? n) sorted
    ++ filter (fun f => pathLength f =? n) [x].
Proof.
  intros Hs.
  destruct (insertDirectory_split x sorted Hs) as (keep & move & -> & E & Hk & Hm).
  rewrite E. rewrite !filter_app. simpl.
  destruct (pathLength x =? n) eqn:Hx.
  - apply Nat.eqb_eq in Hx.
    rewrite (filter_none (fun f => pathLength f =? n) move).
    + now rewrite !app_nil_r.
    + eapply Forall_impl; [|exact Hm]. intros f Hf. simpl in Hf.
      apply Nat.ltb_lt in Hf. apply Nat.eqb_neq. lia.
  - now rewrite app_nil_r.
Qed.

Lemma orderDirectories_stable (n : nat) : forall ds sorted,
    StronglySorted longerFirst sorted ->
    filter (fun f => pathLength f =? n)
           (fold_left (fun s x => insertDirectory x s) ds sorted)
    = filter (fun f => pathLength f =? n) sorted
      ++ filter (fun f => pathLength f =? n) ds.
Proof.
  induction ds as [|d ds IH]; intros sorted Hs; simpl.
  - now rewrite app_nil_r.
  - rewrite IH by now apply insertDirectory_sorted.
    rewrite (insertDirectory_stable n d sorted Hs). simpl.
    destruct (pathLength d =? n); simpl; now rewrite <- ?app_assoc, ?app_nil_r.
Qed.

Lemma removalOrder_sorted (filesToRemove : list fileItem) :
  removalOrder (sortFilesToRemove filesToRemove)
  = rev (filter (fun f => isFile (itemType f)) filesToRemove)
    ++ filter (fun f => isDirectory (itemType f)) filesToRemove.
Proof.
  rewrite removalOrder_rev, sortFilesToRemove_eq.
  now rewrite rev_app_distr, rev_involutive.
Qed.

Lemma filter_filter {A : Type} (p q : A -> bool) (l : list A) :
  filter p (filter q l) = filter (fun x => q x && p x) l.
Proof.
  induction l as [|x l IH]; simpl; [reflexivity|].
  destruct (q x); simpl; [destruct (p x)|]; now rewrite IH.
Qed.

End OrderFacts.

(** X19: the order inside each group of uploads.  In the order of
    execution, the files that are not binary are uploaded in the reverse of
    their discovery order, the binary files in their discovery order, and
    the directories of one same path length are created in the reverse of
    their discovery order. *)
Theorem upload_order_within_groups
        (isBinaryFileSync : string -> bool) (filesToUpload : list fileItem) :
  let order := Scheduler.uploadOrder
                 (Scheduler.sortFilesToUpload isBinaryFileSync filesToUpload) in
  filter (SchedulerSpec.isTextItem isBinaryFileSync) order
  = rev (filter (SchedulerSpec.isTextItem isBinaryFileSync) filesToUpload) /\
  filter (SchedulerSpec.isBinaryItem isBinaryFileSync) order
  = filter (SchedulerSpec.isBinaryItem isBinaryFileSync) filesToUpload /\
  forall n,
    filter (fun f => SchedulerSpec.isDirItem f
                     && (String.length (itemPath f) =? n)) order
    = rev (filter (fun f => SchedulerSpec.isDirItem f
                            && (String.length (itemPath f) =? n))
                  filesToUpload).
Proof.
  intros order. subst order. rewrite SchedulerFacts.uploadOrder_eq.
  set (D := filter SchedulerSpec.isDirItem filesToUpload).
  set (T := filter (SchedulerSpec.isTextItem isBinaryFileSync) filesToUpload).
  set (B := filter (SchedulerSpec.isBinaryItem isBinaryFileSync) filesToUpload).
  destruct (SchedulerFacts.orderDirectories_from D [] (SSorted_nil _)) as [_ Hp].
  rewrite app_nil_r in Hp. fold (SchedulerSpec.orderDirectories D) in Hp.
  assert (HD : Forall (fun f => SchedulerSpec.isDirItem f = true)
                      (rev (SchedulerSpec.orderDirectories D))).
  { apply Forall_rev. eapply Permutation_Forall; [exact Hp|].
    apply SchedulerFacts.Forall_filter_true. }
  assert (HT : Forall (fun f => SchedulerSpec.isTextItem isBinaryFileSync f = true)
                      (rev T))
    by (apply Forall_rev, SchedulerFacts.Forall_filter_true).
  assert (HB : Forall (fun f => SchedulerSpec.isBinaryItem isBinaryFileSync f = true) B)
    by apply SchedulerFacts.Forall_filter_true.
  assert (C := SchedulerFacts.class_cases isBinaryFileSync).
  assert (dirs_not : forall (q : fileItem -> bool) m,
             (forall f, SchedulerSpec.isDirItem f = true -> q f = false) ->
             Forall (fun f => SchedulerSpec.isDirItem f = true) m ->
             filter q m = []).
  { intros q m Hq Hm. apply SchedulerFacts.filter_none.
    eapply Forall_impl; [|exact Hm]. exact Hq. }
  assert (Htd : forall f, SchedulerSpec.isDirItem f = true ->
                          SchedulerSpec.isTextItem isBinaryFileSync f = false).
  { intros f H. destruct (C f) as [(?&?&?)|[(?&?&?&?)|(?&?&?&?)]]; congruence. }
  assert (Hbd : forall f, SchedulerSpec.isDirItem f = true ->
                          SchedulerSpec.isBinaryItem isBinaryFileSync f = false).
  { intros f H. destruct (C f) as [(?&?&?)|[(?&?&?&?)|(?&?&?&?)]]; congruence. }
  split; [|split].
  - rewrite !filter_app.
    rewrite (dirs_not _ _ Htd HD).
    rewrite (SchedulerFacts.filter_all _ _ HT).
    rewrite (SchedulerFacts.filter_none _ B).
    + now rewrite app_nil_r.
    + eapply Forall_impl; [|exact HB]. intros f Hf. simpl in Hf.
      destruct (C f) as [(?&?&?)|[(?&?&?&?)|(?&?&?&?)]]; congruence.
  - rewrite !filter_app.
    rewrite (dirs_not _ _ Hbd HD).
    rewrite (SchedulerFacts.filter_none _ (rev T)).
    + now rewrite (SchedulerFacts.filter_all _ _ HB).
    + eapply Forall_impl; [|exact HT]. intros f Hf. simpl in Hf.
      destruct (C f) as [(?&?&?)|[(?&?&?&?)|(?&?&?&?)]]; congruence.
  - intros n. rewrite !filter_app.
    rewrite (SchedulerFacts.filter_none _ (rev T)).
    2:{ eapply Forall_impl; [|exact HT]. intros f Hf. simpl in Hf.
        now rewrite (SchedulerFacts.text_not_dir isBinaryFileSync f Hf). }
    rewrite (SchedulerFacts.filter_none _ B).
    2:{ eapply Forall_impl; [|exact HB]. intros f Hf. simpl in Hf.
        now rewrite (SchedulerFacts.binary_not_dir isBinaryFileSync f Hf). }
    rewrite !app_nil_r. rewrite filter_rev. f_equal.
    rewrite <- (OrderFacts.filter_filter
                  (fun f => String.length (itemPath f) =? n)
                  SchedulerSpec.isDirItem filesToUpload).
    fold D.
    rewrite <- (OrderFacts.filter_filter
                  (fun f => String.length (itemPath f) =? n)
                  SchedulerSpec.isDirItem (SchedulerSpec.orderDirectories D)).
    assert (HOD : Forall (fun f => SchedulerSpec.isDirItem f = true)
                         (SchedulerSpec.orderDirectories D)).
    { eapply Permutation_Forall; [exact Hp|].
      apply SchedulerFacts.Forall_filter_true. }
    rewrite (SchedulerFacts.filter_all _ _ HOD).
    unfold SchedulerSpec.orderDirectories.
    exact (OrderFacts.orderDirectories_stable n D [] (SSorted_nil _)).
Qed.

(* ================================================================== *)
(** ** Further properties: the order of the removals *)
(* ================================================================== *)

Module RemovalFacts.
Import Diff RemovalSpec.

Lemma detectFilesToRemove_filter (protocol : string) (localFiles : list entry) :
  forall remoteFiles,
    detectFilesToRemove protocol localFiles remoteFiles
    = map (fun r => Item (path r) (type r))
          (filter (fun r => negb (fileFounded localFiles r)
                            && negb (skipsDirectories protocol
                                     && isDirectory (type r)))
                  remoteFiles).
Proof.
  induction remoteFiles as [|r rest IH]; simpl; [reflexivity|].
  destruct (fileFounded localFiles r); simpl; [exact IH|].
  destruct (skipsDirectories protocol && isDirectory (type r)); simpl;
    now rewrite IH.
Qed.

Lemma filter_map_item (q : kind -> bool) (l : list entry) :
  filter (fun f => q (itemType f)) (map (fun r => Item (path r) (type r)) l)
  = map (fun r => Item (path r) (type r)) (filter (fun r => q (type r)) l).
Proof.
  induction l as [|r l IH]; simpl; [reflexivity|].
  destruct (q (type r)); simpl; now rewrite IH.
Qed.

End RemovalFacts.

(** X20: the removals follow the remote list.  In the order of execution,
    the files to remove are the remote files without a local counterpart in
    the reverse of the order of the remote list, and the directories to
    remove are the remote directories without a local counterpart in the
    order of the remote list itself (none for a transport that skips
    directories): a directory listed before its sub-directories is removed
    before them. *)
Theorem removals_follow_remote_list
        (protocol : string) (localFiles remoteFiles : list entry) :
  let order :=
    Scheduler.removalOrder
      (Scheduler.sortFilesToRemove
         (Diff.filesToRemove (Diff.compare protocol localFiles remoteFiles))) in
  filter (fun f => isFile (itemType f)) order
  = rev (RemovalSpec.staleEntries localFiles File remoteFiles) /\
  filter (fun f => isDirectory (itemType f)) order
  = if Diff.skipsDirectories protocol then []
    else RemovalSpec.staleEntries localFiles Directory remoteFiles.
Proof.
  intros order. subst order. rewrite OrderFacts.removalOrder_sorted. simpl.
  set (R := Diff.detectFilesToRemove protocol localFiles remoteFiles).
  assert (FF : forall l : list fileItem,
             filter (fun f => isFile (itemType f))
                    (filter (fun f => isFile (itemType f)) l)
             = filter (fun f => isFile (itemType f)) l).
  { intros l. apply SchedulerFacts.filter_all, SchedulerFacts.Forall_filter_true. }
  assert (DD : forall l : list fileItem,
             filter (fun f => isDirectory (itemType f))
                    (filter (fun f => isDirectory (itemType f)) l)
             = filter (fun f => isDirectory (itemType f)) l).
  { intros l. apply SchedulerFacts.filter_all, SchedulerFacts.Forall_filter_true. }
  assert (FD : forall l : list fileItem,
             filter (fun f => isFile (itemType f))
                    (filter (fun f => isDirectory (itemType f)) l) = []).
  { intros l. apply SchedulerFacts.filter_none.
    eapply Forall_impl; [|apply SchedulerFacts.Forall_filter_true].
    intros f. simpl. now destruct (itemType f). }
  assert (DF : forall l : list fileItem,
             filter (fun f => isDirectory (itemType f))
                    (filter (fun f => isFile (itemType f)) l) = []).
  { intros l. apply SchedulerFacts.filter_none.
    eapply Forall_impl; [|apply SchedulerFacts.Forall_filter_true].
    intros f. simpl. now destruct (itemType f). }
  rewrite !filter_app, !filter_rev, FF, FD, DF, DD, app_nil_r. simpl.
  subst R. rewrite RemovalFacts.detectFilesToRemove_filter.
  rewrite (RemovalFacts.filter_map_item isFile),
    (RemovalFacts.filter_map_item isDirectory).
  unfold RemovalSpec.staleEntries.
  rewrite !OrderFacts.filter_filter.
  split.
  - do 2 f_equal. apply filter_ext. intros r.
    destruct (type r); simpl.
    + destruct (Diff.fileFounded localFiles r); simpl; [reflexivity|].
      now rewrite andb_false_r.
    + now rewrite andb_false_r.
  - destruct (Diff.skipsDirectories protocol) eqn:Hs.
    + rewrite (SchedulerFacts.filter_none _ remoteFiles); [reflexivity|].
      apply Forall_forall. intros r _.
      destruct (type r); simpl; now rewrite ?andb_false_r.
    + f_equal. apply filter_ext. intros r.
      destruct (type r); simpl.
      * now rewrite andb_false_r.
      * now rewrite !andb_true_r.
Qed.

(** X22: moved and unchanged entries.  The diff joins the two lists on the
    path: an entry found on both sides with the same path and digest gives
    neither a removal nor (when local paths are unique) an upload, while a
    file that changed its path gives one removal, at the old path, and one
    upload, at the new one, even though its digest is the same. *)
Theorem moved_and_unchanged_entries
        (protocol : string) (localFiles remoteFiles : list entry) :
  let d := Diff.compare protocol localFiles remoteFiles in
  (forall localFile remoteFile,
      In localFile localFiles -> In remoteFile remoteFiles ->
      path localFile = path remoteFile -> md5 localFile = md5 remoteFile ->
      NoDup (map path localFiles) ->
      (forall k, ~ In (Item (path remoteFile) k) (Diff.filesToRemove d)) /\
      (forall k, ~ In (Item (path localFile) k) (Diff.filesToUpload d))) /\
  (forall localFile remoteFile,
      In localFile localFiles -> In remoteFile remoteFiles ->
      type localFile = File -> type remoteFile = File ->
      md5 localFile = md5 remoteFile ->
      ~ In (path remoteFile) (map path localFiles) ->
      ~ In (path localFile) (map path remoteFiles) ->
      In (Item (path remoteFile) File) (Diff.filesToRemove d) /\
      In (Item (path localFile) File) (Diff.filesToUpload d)).
Proof.
  simpl. split.
  - intros l r Hl Hr Hp Hm Hnd. split.
    + intros k Hin. apply DiffFacts.In_detectFilesToRemove in Hin.
      destruct Hin as (r' & _ & Hp' & _ & Hf & _).
      apply not_true_iff_false in Hf. apply Hf.
      apply DiffFacts.fileFounded_true. exists l. split; [exact Hl|congruence].
    + intros k Hin. apply DiffFacts.In_detectFilesToUpload in Hin.
      destruct Hin as (l' & Hl' & Hp' & _ & Hu & _).
      assert (l' = l).
      { clear - Hnd Hl Hl' Hp'.
        induction localFiles as [|x rest IH]; [contradiction|].
        simpl in Hnd. inversion Hnd as [|? ? Hx Hrest]; subst.
        destruct Hl as [->|Hl], Hl' as [->|Hl']; auto.
        - exfalso. apply Hx. rewrite <- Hp'. now apply in_map.
        - exfalso. apply Hx. rewrite Hp'. now apply in_map. }
      subst l'. rewrite DiffFacts.fileShouldBeUploaded_true in Hu.
      apply (Hu r Hr); congruence.
  - intros l r Hl Hr Kl Kr Hm Hnl Hnr. split.
    + apply DiffFacts.In_detectFilesToRemove. exists r.
      repeat split; auto.
      * apply not_true_iff_false. intros Hf.
        apply DiffFacts.fileFounded_true in Hf. destruct Hf as (l' & Hl' & Hp').
        apply Hnl. rewrite <- Hp'. now apply in_map.
      * simpl. apply andb_false_r.
    + apply DiffFacts.In_detectFilesToUpload. exists l.
      repeat split; auto.
      * apply DiffFacts.fileShouldBeUploaded_true. intros r' Hr' Hp' _.
        apply Hnr. rewrite <- Hp'. now apply in_map.
      * simpl. apply andb_false_r.
Qed.

Lemma moved_and_unchanged_entries_witness :
  let d := Diff.compare "ftp"
             [Entry "/new/a.txt" File (Some "h1"); Entry "/b.txt" File (Some "h2")]
             [Entry "/old/a.txt" File (Some "h1"); Entry "/b.txt" File (Some "h2")] in
  (In (Item "/old/a.txt" File) (Diff.filesToRemove d) /\
   In (Item "/new/a.txt" File) (Diff.filesToUpload d)) /\
  (forall k, ~ In (Item "/b.txt" k) (Diff.filesToUpload d)).
Proof.
  intros d.
  destruct (moved_and_unchanged_entries "ftp"
              [Entry "/new/a.txt" File (Some "h1"); Entry "/b.txt" File (Some "h2")]
              [Entry "/old/a.txt" File (Some "h1"); Entry "/b.txt" File (Some "h2")])
    as [U M].
  split.
  - apply (M (Entry "/new/a.txt" File (Some "h1"))
             (Entry "/old/a.txt" File (Some "h1"))); simpl; auto.
    + intros [H|[H|[]]]; discriminate.
    + intros [H|[H|[]]]; discriminate.
  - apply (U (Entry "/b.txt" File (Some "h2")) (Entry "/b.txt" File (Some "h2")));
      simpl; auto.
    constructor; [simpl; intros [H|[]]; discriminate|].
    constructor; [simpl; tauto | constructor].
Defined.

(** X23: a manifest that is an object without revision.  When the cached
    revision, if there is one, can be read (it parses, and not to [null]),
    such a manifest (an empty object, an error body) takes the old-format
    route: it replaces [files-remote.json]; [compareFilesList(true)] then
    raises on it, the [catch] calls [compareFilesList(false)] and
    everything is uploaded - except for gitlab-pages, where the object is
    caught earlier and read as an empty list.  Either way nothing is
    removed and the cache is left holding the object. *)
Theorem object_manifest_without_revision
        (md5 : string -> string) (JSON_parse : string -> option Snapshot.json)
        (protocol : string) (fileContent : string) (revision : Snapshot.jsval)
        (s : Snapshot.store) (localFiles : list entry) :
  JSON_parse fileContent = Some (Snapshot.JObject revision) ->
  Snapshot.truthy revision = false ->
  fileContent <> EmptyString ->
  (Snapshot.sync_revision_json s = None \/
   exists cached doc revisionID,
     Snapshot.sync_revision_json s = Some cached /\
     JSON_parse cached = Some doc /\
     Snapshot.get_revision doc = Some revisionID) ->
  SnapshotSpec.localListIs JSON_parse s localFiles ->
  let r := Snapshot.checkLocalListWithRemoteList md5 JSON_parse protocol
                                                 fileContent s in
  Snapshot.invoked r
  = (if String.eqb protocol "gitlab-pages" then [true] else [true; false]) /\
  Snapshot.outcome r = Some (Diff.compare protocol localFiles []) /\
  Diff.filesToRemove (Diff.compare protocol localFiles []) = [] /\
  Diff.filesToUpload (Diff.compare protocol localFiles [])
  = SnapshotSpec.everyLocalEntry protocol localFiles /\
  Snapshot.files_remote_json (Snapshot.after r) = Some fileContent.
Proof.
  intros Hf Ht Hne Hsync (text & Hs & Htne & Hp) r. subst r.
  unfold Snapshot.checkLocalListWithRemoteList.
  assert (E : Snapshot.resolve md5 JSON_parse fileContent s
              = Some (true,
                      Snapshot.Store (Snapshot.files_publii_json s)
                                     (Some fileContent)
                                     (Snapshot.sync_revision_json s),
                      Snapshot.legacyList)).
  { unfold Snapshot.resolve. rewrite Hf.
    destruct Hsync as [-> |(cached & doc & v & -> & Hc & Hv)].
    - simpl. now rewrite Ht.
    - rewrite Hc, Hv. simpl. now rewrite Ht. }
  rewrite E.
  set (s' := Snapshot.Store (Snapshot.files_publii_json s) (Some fileContent)
                            (Snapshot.sync_revision_json s)).
  assert (Cf : Snapshot.compareFilesList JSON_parse protocol false s'
               = Some (Diff.compare protocol localFiles [])).
  { apply SnapshotMore.compareFilesList_false. exists text. auto. }
  assert (Ct : Snapshot.compareFilesList JSON_parse protocol true s'
               = if String.eqb protocol "gitlab-pages"
                 then Some (Diff.compare protocol localFiles [])
                 else None).
  { unfold Snapshot.compareFilesList. simpl. rewrite Hs.
    destruct text as [|c t]; [congruence|]. rewrite Hp. simpl.
    destruct fileContent as [|c' t']; [congruence|]. rewrite Hf.
    now destruct (String.eqb protocol "gitlab-pages"). }
  rewrite Ct.
  destruct (SnapshotMore.compare_nil protocol localFiles) as [N U].
  destruct (String.eqb protocol "gitlab-pages"); simpl; auto.
Qed.

Lemma object_manifest_without_revision_witness :
  let JSON_parse := fun text : string =>
    if String.eqb text "[local]"
    then Some (Snapshot.JArray [Entry "a.txt" File (Some "h1")])
    else if String.eqb text "{}"
         then Some (Snapshot.JObject Snapshot.undefined)
         else if String.eqb text (Snapshot.descriptor "R0")
              then Some (Snapshot.JObject (Snapshot.str "R0"))
              else None in
  let r := Snapshot.checkLocalListWithRemoteList
             (fun b => b) JSON_parse "ftp" "{}"
             (Snapshot.Store (Some "[local]") (Some "[cache]")
                             (Some (Snapshot.descriptor "R0"))) in
  Snapshot.invoked r = [true; false] /\
  Snapshot.outcome r
  = Some (Diff.compare "ftp" [Entry "a.txt" File (Some "h1")] []) /\
  Diff.filesToRemove (Diff.compare "ftp" [Entry "a.txt" File (Some "h1")] []) = [] /\
  Diff.filesToUpload (Diff.compare "ftp" [Entry "a.txt" File (Some "h1")] [])
  = SnapshotSpec.everyLocalEntry "ftp" [Entry "a.txt" File (Some "h1")] /\
  Snapshot.files_remote_json (Snapshot.after r) = Some "{}".
Proof.
  intros JSON_parse.
  apply (object_manifest_without_revision
           (fun b => b) JSON_parse "ftp" "{}" Snapshot.undefined
           (Snapshot.Store (Some "[local]") (Some "[cache]")
                           (Some (Snapshot.descriptor "R0")))
           [Entry "a.txt" File (Some "h1")]); try reflexivity; try discriminate.
  - right. exists (Snapshot.descriptor "R0"), (Snapshot.JObject (Snapshot.str "R0")),
      (Snapshot.str "R0"). repeat split.
  - exists "[local]". split; [reflexivity|]. split; [discriminate | reflexivity].
Defined.
